(** * A shallow embedding of the ed line editor (with syntax highlighting)

    The development follows the C sources file by file: [signal.c],
    [sh.cpp], [regex.c], [buffer.c], [global.c], [io.c] and [main_loop.c].
    C [int]s are mathematical integers ([Z]); where the source relies on
    [unsigned] arithmetic the wrap-around is written out.  Pointers to line
    nodes are natural numbers, the heap of line nodes is a total function,
    and the static variables of each translation unit are the fields of one
    record per file, gathered in the editor state [ed].  Every C function
    that can fail is a computation in the monad [M]: it returns [None] where
    the C function returns [false], [0] or a negative status, and it always
    returns the state it leaves behind. *)

From stdpp Require Import base numbers list sets strings functions option.
From Stdlib Require Import ZArith Lia Ascii.
From Stdlib Require String DecimalString.

Open Scope Z_scope.

(** ** Machine integers *)

Definition INT_MAX : Z := 2147483647.
Definition UINT_MOD : Z := 4294967296.

(** [(unsigned)x] for an [int] or wider [x]. *)
Definition to_unsigned (x : Z) : Z := x mod UINT_MOD.

(** ** Characters *)

Definition NUL : ascii := "000"%char.
Definition NL : ascii := "010"%char.
Definition CR : ascii := "013"%char.
Definition TAB : ascii := "009"%char.

Definition char_eqb (a b : ascii) : bool := Ascii.eqb a b.

(** ** The data of [ed.h] *)

(** A pointer to a line node; [NULL] is the null pointer. *)
Definition ptr : Type := nat.
Definition NULL : ptr := 0%nat.

Record line_t : Type := Line {
  q_forw : ptr;
  q_back : ptr;
  pos : Z;          (* position of text in scratch buffer *)
  len : Z           (* length of line ('\n' is not stored) *)
}.

Definition UADD : Z := 0.
Definition UDEL : Z := 1.
Definition UMOV : Z := 2.
Definition VMOV : Z := 3.

Record undo_t : Type := Undo_atom {
  u_type : Z;
  u_head : ptr;     (* head of list *)
  u_tail : ptr      (* tail of list *)
}.

Definition pf_l : Z := 1.   (* list after command *)
Definition pf_n : Z := 2.   (* enumerate after command *)
Definition pf_p : Z := 4.   (* print after command *)

Definition mem_msg : string := "Memory exhausted".
Definition no_prev_subst : string := "No previous substitution".

#[global] Instance line_t_inhabited : Inhabited line_t := populate (Line NULL NULL 0 0).
#[global] Instance undo_t_inhabited : Inhabited undo_t := populate (Undo_atom 0 NULL NULL).

(** The two statically allocated list heads of [buffer.c]. *)
Definition buffer_head : ptr := 1%nat.
Definition yank_buffer_head : ptr := 2%nat.

(** ** The editor state

    One record per translation unit holds its static variables.  What the C
    library and the operating system contribute is gathered in [libc_t]:
    the standard streams, the allocator, and the outcome of every library
    call that may fail for reasons outside the program (no memory, a full
    disk), which is read off the oracle [env_ok] call by call. *)

(** A compiled regular expression is identified by what it was compiled
    from; matching is the library's business ([regexec_]). *)
Record regex_t : Type := Regex {
  re_pat : list ascii;
  re_cflags : Z;
  re_nsub : Z
}.

Definition REG_EXTENDED : Z := 1.
Definition REG_ICASE : Z := 2.
Definition REG_NOTBOL : Z := 1.

Record libc_t : Type := Libc {
  env_ok : nat -> bool;        (* does the n-th fallible library call succeed *)
  env_tick : nat;              (* number of fallible library calls so far *)
  brk : ptr;                   (* next address malloc hands out for a node *)
  stdin_ : list ascii;         (* unread standard input *)
  stdout_ : list ascii;        (* everything written to standard output *)
  regcomp_ : list ascii -> Z -> Z * Z;      (* pattern, cflags: error code, re_nsub *)
  regerror_ : Z -> string;
  regexec_ : regex_t -> list ascii -> Z -> option (list (Z * Z));
  srchilite_ : list ascii -> string -> list ascii;  (* the source-highlight pass *)
  fs_read : bool -> list ascii -> option (list ascii);   (* what popen (true) or fopen gives for reading *)
  system_ : list ascii -> Z;   (* the status of system() *)
  path_max_ : Z;               (* path_max( 0 ) *)
  fin : list ascii;            (* unread contents of the stream being read *)
  fout : list ascii;           (* what has been written to the stream being written *)
  fs_log : list (list ascii * list ascii * list ascii)   (* streams written: name, mode, contents *)
}.

Record signal_t : Type := Signal {
  mutex : Z;                   (* if > 0, signals stay pending *)
  window_lines_ : Z;           (* scroll lines set by sigwinch_handler *)
  window_columns_ : Z
}.

Record main_t : Type := Main {
  extended_regexp_ : bool;     (* if set, use EREs *)
  restricted_ : bool;          (* if set, run in restricted mode *)
  scripted_ : bool;            (* if set, suppress diagnostics *)
  strip_cr_ : bool;            (* if set, strip trailing CRs *)
  traditional_ : bool          (* if set, be backwards compatible *)
}.

Record buffer_t : Type := Buffer {
  current_addr_ : Z;           (* current address in editor buffer *)
  last_addr_ : Z;              (* last address in editor buffer *)
  isbinary_ : bool;            (* if set, buffer contains ASCII NULs *)
  modified_ : bool;            (* if set, buffer modified since last write *)
  seek_write : bool;           (* seek before writing *)
  sfp : option (list ascii);   (* scratch file: its contents when open *)
  sfpos : Z;                   (* scratch file position *)
  sf_off : Z;                  (* the position of the stream itself *)
  heap : ptr -> line_t;        (* the line nodes, the two list heads included *)
  s_lp : ptr;                  (* search_line_node: cached node *)
  s_o_addr : Z;                (* search_line_node: cached address *)
  ustack : list undo_t;        (* undo stack; u_idx is its length *)
  ustack_alloc : bool;         (* ustack != 0 *)
  usize : Z;                   (* ustack size (in bytes) *)
  u_current_addr : Z;          (* if < 0, undo disabled *)
  u_last_addr : Z;             (* if < 0, undo disabled *)
  u_modified : bool
}.

Record global_t : Type := Global {
  active_list : list ptr;      (* lines active in a global command; active_len is its length *)
  active_alloc : bool;         (* active_list != 0 *)
  active_size : Z;             (* size (in bytes) of active_list *)
  active_idx : Z;              (* active_list index ( non-decreasing ) *)
  active_idxm : Z              (* active_list index ( modulo active_len ) *)
}.

Record io_t : Type := Io {
  unterminated_line : ptr;     (* last line has no '\n' *)
  linenum_ : Z;                (* script line number *)
  lang : string                (* argument for source-highlight *)
}.

Record regex_state_t : Type := RegexState {
  last_regexp : option nat;    (* pointer to last regex found: a slot of store *)
  subst_regexp : option nat;   (* regex of last substitution: a slot of store *)
  store : nat -> option regex_t;   (* space for three compiled regexes *)
  rbuf : option (list ascii);  (* replacement buffer and its length rlen *)
  rbufsz : Z
}.

Record main_loop_t : Type := MainLoop {
  def_filename : list ascii;   (* default filename *)
  errmsg : string;             (* error message buffer *)
  prompt_str : list ascii;     (* command prompt *)
  first_addr : Z;
  second_addr : Z;
  prompt_on : bool;            (* if set, show command prompt *)
  verbose : bool;              (* if set, print all error messages *)
  mark : nat -> ptr;           (* line markers *)
  markno : Z;                  (* line marker count *)
  s_pflags : Z;                (* command_s: print suffixes *)
  s_pmask : Z;                 (* command_s: the print suffixes to be toggled *)
  s_snum : Z;                  (* command_s: > 0 count, <= 0 global substitute *)
  shcmd : list ascii           (* get_shell_command: shell command buffer; shcmdlen is its length *)
}.

Record sh_t : Type := Sh {
  ips : list ascii;            (* unread contents of the input stringstream *)
  ops : list ascii             (* unread contents of the output stringstream *)
}.

(** The growable static buffers handled by [resize_buffer]. *)
Inductive bufid : Type :=
  | buf_def_filename | buf_prompt | buf_shell_tmp | buf_shcmd | buf_filename
  | buf_global | buf_sbuf_line | buf_join | buf_extended | buf_stdin
  | buf_stream | buf_pattern | buf_replacement | buf_txt | buf_strip.

#[global] Instance bufid_eq_dec : EqDecision bufid.
Proof. solve_decision. Defined.

Record ed : Type := Ed {
  libc : libc_t;
  sig : signal_t;
  mn : main_t;
  buf : buffer_t;
  gl : global_t;
  io : io_t;
  re : regex_state_t;
  ml : main_loop_t;
  sh : sh_t;
  bufsz : bufid -> Z           (* the capacity of each growable static buffer *)
}.

(** Field updates: [with_f v r] is [r] with field [f] set to [v]. *)

Definition with_env_tick v (r : libc_t) : libc_t :=
  Libc (env_ok r) v (brk r) (stdin_ r) (stdout_ r) (regcomp_ r) (regerror_ r)
    (regexec_ r) (srchilite_ r) (fs_read r) (system_ r) (path_max_ r) (fin r)
    (fout r) (fs_log r).
Definition with_brk v (r : libc_t) : libc_t :=
  Libc (env_ok r) (env_tick r) v (stdin_ r) (stdout_ r) (regcomp_ r)
    (regerror_ r) (regexec_ r) (srchilite_ r) (fs_read r) (system_ r)
    (path_max_ r) (fin r) (fout r) (fs_log r).
Definition with_stdin_ v (r : libc_t) : libc_t :=
  Libc (env_ok r) (env_tick r) (brk r) v (stdout_ r) (regcomp_ r)
    (regerror_ r) (regexec_ r) (srchilite_ r) (fs_read r) (system_ r)
    (path_max_ r) (fin r) (fout r) (fs_log r).
Definition with_stdout_ v (r : libc_t) : libc_t :=
  Libc (env_ok r) (env_tick r) (brk r) (stdin_ r) v (regcomp_ r) (regerror_ r)
    (regexec_ r) (srchilite_ r) (fs_read r) (system_ r) (path_max_ r) (fin r)
    (fout r) (fs_log r).
Definition with_fin v (r : libc_t) : libc_t :=
  Libc (env_ok r) (env_tick r) (brk r) (stdin_ r) (stdout_ r) (regcomp_ r)
    (regerror_ r) (regexec_ r) (srchilite_ r) (fs_read r) (system_ r)
    (path_max_ r) v (fout r) (fs_log r).
Definition with_fout v (r : libc_t) : libc_t :=
  Libc (env_ok r) (env_tick r) (brk r) (stdin_ r) (stdout_ r) (regcomp_ r)
    (regerror_ r) (regexec_ r) (srchilite_ r) (fs_read r) (system_ r)
    (path_max_ r) (fin r) v (fs_log r).
Definition with_fs_log v (r : libc_t) : libc_t :=
  Libc (env_ok r) (env_tick r) (brk r) (stdin_ r) (stdout_ r) (regcomp_ r)
    (regerror_ r) (regexec_ r) (srchilite_ r) (fs_read r) (system_ r)
    (path_max_ r) (fin r) (fout r) v.
Definition with_mutex v (r : signal_t) : signal_t :=
  Signal v (window_lines_ r) (window_columns_ r).
Definition with_window_lines_ v (r : signal_t) : signal_t :=
  Signal (mutex r) v (window_columns_ r).
Definition with_window_columns_ v (r : signal_t) : signal_t :=
  Signal (mutex r) (window_lines_ r) v.
Definition with_current_addr_ v (r : buffer_t) : buffer_t :=
  Buffer v (last_addr_ r) (isbinary_ r) (modified_ r) (seek_write r) (sfp r)
    (sfpos r) (sf_off r) (heap r) (s_lp r) (s_o_addr r) (ustack r)
    (ustack_alloc r) (usize r) (u_current_addr r) (u_last_addr r)
    (u_modified r).
Definition with_last_addr_ v (r : buffer_t) : buffer_t :=
  Buffer (current_addr_ r) v (isbinary_ r) (modified_ r) (seek_write r)
    (sfp r) (sfpos r) (sf_off r) (heap r) (s_lp r) (s_o_addr r) (ustack r)
    (ustack_alloc r) (usize r) (u_current_addr r) (u_last_addr r)
    (u_modified r).
Definition with_isbinary_ v (r : buffer_t) : buffer_t :=
  Buffer (current_addr_ r) (last_addr_ r) v (modified_ r) (seek_write r)
    (sfp r) (sfpos r) (sf_off r) (heap r) (s_lp r) (s_o_addr r) (ustack r)
    (ustack_alloc r) (usize r) (u_current_addr r) (u_last_addr r)
    (u_modified r).
Definition with_modified_ v (r : buffer_t) : buffer_t :=
  Buffer (current_addr_ r) (last_addr_ r) (isbinary_ r) v (seek_write r)
    (sfp r) (sfpos r) (sf_off r) (heap r) (s_lp r) (s_o_addr r) (ustack r)
    (ustack_alloc r) (usize r) (u_current_addr r) (u_last_addr r)
    (u_modified r).
Definition with_seek_write v (r : buffer_t) : buffer_t :=
  Buffer (current_addr_ r) (last_addr_ r) (isbinary_ r) (modified_ r) v
    (sfp r) (sfpos r) (sf_off r) (heap r) (s_lp r) (s_o_addr r) (ustack r)
    (ustack_alloc r) (usize r) (u_current_addr r) (u_last_addr r)
    (u_modified r).
Definition with_sfp v (r : buffer_t) : buffer_t :=
  Buffer (current_addr_ r) (last_addr_ r) (isbinary_ r) (modified_ r)
    (seek_write r) v (sfpos r) (sf_off r) (heap r) (s_lp r) (s_o_addr r)
    (ustack r) (ustack_alloc r) (usize r) (u_current_addr r) (u_last_addr r)
    (u_modified r).
Definition with_sfpos v (r : buffer_t) : buffer_t :=
  Buffer (current_addr_ r) (last_addr_ r) (isbinary_ r) (modified_ r)
    (seek_write r) (sfp r) v (sf_off r) (heap r) (s_lp r) (s_o_addr r)
    (ustack r) (ustack_alloc r) (usize r) (u_current_addr r) (u_last_addr r)
    (u_modified r).
Definition with_sf_off v (r : buffer_t) : buffer_t :=
  Buffer (current_addr_ r) (last_addr_ r) (isbinary_ r) (modified_ r)
    (seek_write r) (sfp r) (sfpos r) v (heap r) (s_lp r) (s_o_addr r)
    (ustack r) (ustack_alloc r) (usize r) (u_current_addr r) (u_last_addr r)
    (u_modified r).
Definition with_heap v (r : buffer_t) : buffer_t :=
  Buffer (current_addr_ r) (last_addr_ r) (isbinary_ r) (modified_ r)
    (seek_write r) (sfp r) (sfpos r) (sf_off r) v (s_lp r) (s_o_addr r)
    (ustack r) (ustack_alloc r) (usize r) (u_current_addr r) (u_last_addr r)
    (u_modified r).
Definition with_s_lp v (r : buffer_t) : buffer_t :=
  Buffer (current_addr_ r) (last_addr_ r) (isbinary_ r) (modified_ r)
    (seek_write r) (sfp r) (sfpos r) (sf_off r) (heap r) v (s_o_addr r)
    (ustack r) (ustack_alloc r) (usize r) (u_current_addr r) (u_last_addr r)
    (u_modified r).
Definition with_s_o_addr v (r : buffer_t) : buffer_t :=
  Buffer (current_addr_ r) (last_addr_ r) (isbinary_ r) (modified_ r)
    (seek_write r) (sfp r) (sfpos r) (sf_off r) (heap r) (s_lp r) v (ustack r)
    (ustack_alloc r) (usize r) (u_current_addr r) (u_last_addr r)
    (u_modified r).
Definition with_ustack v (r : buffer_t) : buffer_t :=
  Buffer (current_addr_ r) (last_addr_ r) (isbinary_ r) (modified_ r)
    (seek_write r) (sfp r) (sfpos r) (sf_off r) (heap r) (s_lp r) (s_o_addr r)
    v (ustack_alloc r) (usize r) (u_current_addr r) (u_last_addr r)
    (u_modified r).
Definition with_ustack_alloc v (r : buffer_t) : buffer_t :=
  Buffer (current_addr_ r) (last_addr_ r) (isbinary_ r) (modified_ r)
    (seek_write r) (sfp r) (sfpos r) (sf_off r) (heap r) (s_lp r) (s_o_addr r)
    (ustack r) v (usize r) (u_current_addr r) (u_last_addr r) (u_modified r).
Definition with_usize v (r : buffer_t) : buffer_t :=
  Buffer (current_addr_ r) (last_addr_ r) (isbinary_ r) (modified_ r)
    (seek_write r) (sfp r) (sfpos r) (sf_off r) (heap r) (s_lp r) (s_o_addr r)
    (ustack r) (ustack_alloc r) v (u_current_addr r) (u_last_addr r)
    (u_modified r).
Definition with_u_current_addr v (r : buffer_t) : buffer_t :=
  Buffer (current_addr_ r) (last_addr_ r) (isbinary_ r) (modified_ r)
    (seek_write r) (sfp r) (sfpos r) (sf_off r) (heap r) (s_lp r) (s_o_addr r)
    (ustack r) (ustack_alloc r) (usize r) v (u_last_addr r) (u_modified r).
Definition with_u_last_addr v (r : buffer_t) : buffer_t :=
  Buffer (current_addr_ r) (last_addr_ r) (isbinary_ r) (modified_ r)
    (seek_write r) (sfp r) (sfpos r) (sf_off r) (heap r) (s_lp r) (s_o_addr r)
    (ustack r) (ustack_alloc r) (usize r) (u_current_addr r) v (u_modified r).
Definition with_u_modified v (r : buffer_t) : buffer_t :=
  Buffer (current_addr_ r) (last_addr_ r) (isbinary_ r) (modified_ r)
    (seek_write r) (sfp r) (sfpos r) (sf_off r) (heap r) (s_lp r) (s_o_addr r)
    (ustack r) (ustack_alloc r) (usize r) (u_current_addr r) (u_last_addr r) v.
Definition with_active_list v (r : global_t) : global_t :=
  Global v (active_alloc r) (active_size r) (active_idx r) (active_idxm r).
Definition with_active_alloc v (r : global_t) : global_t :=
  Global (active_list r) v (active_size r) (active_idx r) (active_idxm r).
Definition with_active_size v (r : global_t) : global_t :=
  Global (active_list r) (active_alloc r) v (active_idx r) (active_idxm r).
Definition with_active_idx v (r : global_t) : global_t :=
  Global (active_list r) (active_alloc r) (active_size r) v (active_idxm r).
Definition with_active_idxm v (r : global_t) : global_t :=
  Global (active_list r) (active_alloc r) (active_size r) (active_idx r) v.
Definition with_unterminated_line v (r : io_t) : io_t :=
  Io v (linenum_ r) (lang r).
Definition with_linenum_ v (r : io_t) : io_t :=
  Io (unterminated_line r) v (lang r).
Definition with_lang v (r : io_t) : io_t :=
  Io (unterminated_line r) (linenum_ r) v.
Definition with_last_regexp v (r : regex_state_t) : regex_state_t :=
  RegexState v (subst_regexp r) (store r) (rbuf r) (rbufsz r).
Definition with_subst_regexp v (r : regex_state_t) : regex_state_t :=
  RegexState (last_regexp r) v (store r) (rbuf r) (rbufsz r).
Definition with_store v (r : regex_state_t) : regex_state_t :=
  RegexState (last_regexp r) (subst_regexp r) v (rbuf r) (rbufsz r).
Definition with_rbuf v (r : regex_state_t) : regex_state_t :=
  RegexState (last_regexp r) (subst_regexp r) (store r) v (rbufsz r).
Definition with_rbufsz v (r : regex_state_t) : regex_state_t :=
  RegexState (last_regexp r) (subst_regexp r) (store r) (rbuf r) v.
Definition with_def_filename v (r : main_loop_t) : main_loop_t :=
  MainLoop v (errmsg r) (prompt_str r) (first_addr r) (second_addr r)
    (prompt_on r) (verbose r) (mark r) (markno r) (s_pflags r) (s_pmask r)
    (s_snum r) (shcmd r).
Definition with_errmsg v (r : main_loop_t) : main_loop_t :=
  MainLoop (def_filename r) v (prompt_str r) (first_addr r) (second_addr r)
    (prompt_on r) (verbose r) (mark r) (markno r) (s_pflags r) (s_pmask r)
    (s_snum r) (shcmd r).
Definition with_prompt_str v (r : main_loop_t) : main_loop_t :=
  MainLoop (def_filename r) (errmsg r) v (first_addr r) (second_addr r)
    (prompt_on r) (verbose r) (mark r) (markno r) (s_pflags r) (s_pmask r)
    (s_snum r) (shcmd r).
Definition with_first_addr v (r : main_loop_t) : main_loop_t :=
  MainLoop (def_filename r) (errmsg r) (prompt_str r) v (second_addr r)
    (prompt_on r) (verbose r) (mark r) (markno r) (s_pflags r) (s_pmask r)
    (s_snum r) (shcmd r).
Definition with_second_addr v (r : main_loop_t) : main_loop_t :=
  MainLoop (def_filename r) (errmsg r) (prompt_str r) (first_addr r) v
    (prompt_on r) (verbose r) (mark r) (markno r) (s_pflags r) (s_pmask r)
    (s_snum r) (shcmd r).
Definition with_prompt_on v (r : main_loop_t) : main_loop_t :=
  MainLoop (def_filename r) (errmsg r) (prompt_str r) (first_addr r)
    (second_addr r) v (verbose r) (mark r) (markno r) (s_pflags r) (s_pmask r)
    (s_snum r) (shcmd r).
Definition with_verbose v (r : main_loop_t) : main_loop_t :=
  MainLoop (def_filename r) (errmsg r) (prompt_str r) (first_addr r)
    (second_addr r) (prompt_on r) v (mark r) (markno r) (s_pflags r)
    (s_pmask r) (s_snum r) (shcmd r).
Definition with_mark v (r : main_loop_t) : main_loop_t :=
  MainLoop (def_filename r) (errmsg r) (prompt_str r) (first_addr r)
    (second_addr r) (prompt_on r) (verbose r) v (markno r) (s_pflags r)
    (s_pmask r) (s_snum r) (shcmd r).
Definition with_markno v (r : main_loop_t) : main_loop_t :=
  MainLoop (def_filename r) (errmsg r) (prompt_str r) (first_addr r)
    (second_addr r) (prompt_on r) (verbose r) (mark r) v (s_pflags r)
    (s_pmask r) (s_snum r) (shcmd r).
Definition with_s_pflags v (r : main_loop_t) : main_loop_t :=
  MainLoop (def_filename r) (errmsg r) (prompt_str r) (first_addr r)
    (second_addr r) (prompt_on r) (verbose r) (mark r) (markno r) v
    (s_pmask r) (s_snum r) (shcmd r).
Definition with_s_pmask v (r : main_loop_t) : main_loop_t :=
  MainLoop (def_filename r) (errmsg r) (prompt_str r) (first_addr r)
    (second_addr r) (prompt_on r) (verbose r) (mark r) (markno r) (s_pflags r)
    v (s_snum r) (shcmd r).
Definition with_s_snum v (r : main_loop_t) : main_loop_t :=
  MainLoop (def_filename r) (errmsg r) (prompt_str r) (first_addr r)
    (second_addr r) (prompt_on r) (verbose r) (mark r) (markno r) (s_pflags r)
    (s_pmask r) v (shcmd r).
Definition with_shcmd v (r : main_loop_t) : main_loop_t :=
  MainLoop (def_filename r) (errmsg r) (prompt_str r) (first_addr r)
    (second_addr r) (prompt_on r) (verbose r) (mark r) (markno r) (s_pflags r)
    (s_pmask r) (s_snum r) v.
Definition with_ips v (r : sh_t) : sh_t :=
  Sh v (ops r).
Definition with_ops v (r : sh_t) : sh_t :=
  Sh (ips r) v.

(** [on_x f s] applies [f] to the component [x] of the editor state. *)

Definition on_libc f (s : ed) : ed :=
  Ed (f (libc s)) (sig s) (mn s) (buf s) (gl s) (io s) (re s) (ml s) (sh s) (bufsz s).
Definition on_sig f (s : ed) : ed :=
  Ed (libc s) (f (sig s)) (mn s) (buf s) (gl s) (io s) (re s) (ml s) (sh s) (bufsz s).
Definition on_mn f (s : ed) : ed :=
  Ed (libc s) (sig s) (f (mn s)) (buf s) (gl s) (io s) (re s) (ml s) (sh s) (bufsz s).
Definition on_buf f (s : ed) : ed :=
  Ed (libc s) (sig s) (mn s) (f (buf s)) (gl s) (io s) (re s) (ml s) (sh s) (bufsz s).
Definition on_gl f (s : ed) : ed :=
  Ed (libc s) (sig s) (mn s) (buf s) (f (gl s)) (io s) (re s) (ml s) (sh s) (bufsz s).
Definition on_io f (s : ed) : ed :=
  Ed (libc s) (sig s) (mn s) (buf s) (gl s) (f (io s)) (re s) (ml s) (sh s) (bufsz s).
Definition on_re f (s : ed) : ed :=
  Ed (libc s) (sig s) (mn s) (buf s) (gl s) (io s) (f (re s)) (ml s) (sh s) (bufsz s).
Definition on_ml f (s : ed) : ed :=
  Ed (libc s) (sig s) (mn s) (buf s) (gl s) (io s) (re s) (f (ml s)) (sh s) (bufsz s).
Definition on_sh f (s : ed) : ed :=
  Ed (libc s) (sig s) (mn s) (buf s) (gl s) (io s) (re s) (ml s) (f (sh s)) (bufsz s).
Definition on_bufsz f (s : ed) : ed :=
  Ed (libc s) (sig s) (mn s) (buf s) (gl s) (io s) (re s) (ml s) (sh s) (f (bufsz s)).

(** ** The monad of editor computations *)

Definition M (A : Type) : Type := ed -> option A * ed.

Definition ret {A} (a : A) : M A := fun s => (Some a, s).

(** The C function gives up: [return false], [return 0], [return -1]. *)
Definition fail {A} : M A := fun s => (None, s).

Definition bind {A B} (c : M A) (k : A -> M B) : M B :=
  fun s => match c s with
           | (Some a, s') => k a s'
           | (None, s') => (None, s')
           end.

Notation "x <- c ;; k" := (bind c (fun x => k))
  (at level 100, c at next level, right associativity, only parsing).
Notation "c ;; k" := (bind c (fun _ => k))
  (at level 100, k at level 200, right associativity, only parsing).

Definition gets {A} (f : ed -> A) : M A := fun s => (Some (f s), s).
Definition modify (f : ed -> ed) : M unit := fun s => (Some tt, f s).

(** [attempt c] runs [c] and reports whether it failed, without failing:
    the caller tests the result as C tests [if( !c() )]. *)
Definition attempt {A} (c : M A) : M (option A) :=
  fun s => let '(r, s') := c s in (Some r, s').

(** The next fallible library call: its outcome is the oracle's. *)
Definition libc_call : M bool :=
  fun s => (Some (env_ok (libc s) (env_tick (libc s))),
            on_libc (with_env_tick (S (env_tick (libc s)))) s).

(** ** main.c: access functions for command line flags *)

Definition extended_regexp : M bool := gets (fun s => extended_regexp_ (mn s)).
Definition restricted : M bool := gets (fun s => restricted_ (mn s)).
Definition scripted : M bool := gets (fun s => scripted_ (mn s)).
Definition strip_cr : M bool := gets (fun s => strip_cr_ (mn s)).
Definition traditional : M bool := gets (fun s => traditional_ (mn s)).

(** [show_strerror] writes to standard error only, which is not part of
    the state. *)
Definition show_strerror : M unit := ret tt.

(** ** main_loop.c: the error message *)

(** [strncpy( errmsg, msg, sizeof errmsg ); errmsg[sizeof(errmsg)-1] = 0;]
    with [char errmsg[80]]. *)
Definition set_error_msg (msg : string) : M unit :=
  modify (on_ml (with_errmsg (String.substring 0 79 msg))).

Definition invalid_address : M unit := set_error_msg "Invalid address".

(** ** signal.c *)

Definition disable_interrupts : M unit :=
  modify (on_sig (fun g => with_mutex (mutex g + 1) g)).

(** Signals are not delivered in this sequential model, so nothing is ever
    pending when the counter returns to zero. *)
Definition enable_interrupts : M unit :=
  modify (on_sig (fun g => with_mutex (if mutex g - 1 <=? 0 then 0 else mutex g - 1) g)).

(** [sigwinch_handler]: [ws] is what [ioctl( 0, TIOCGWINSZ, &ws )] reports,
    the pair ([ws_row], [ws_col]), or [None] when the call fails. *)
Definition sigwinch_handler (ws : option (Z * Z)) : M unit :=
  match ws with
  | Some (ws_row, ws_col) =>
      (* Sanity check values of environment vars *)
      (if (ws_row >? 2) && (ws_row <? 600)
       then modify (on_sig (with_window_lines_ (ws_row - 2))) else ret tt) ;;
      (if (ws_col >? 8) && (ws_col <? 1800)
       then modify (on_sig (with_window_columns_ (ws_col - 8))) else ret tt)
  | None => ret tt
  end.

Definition set_window_lines (lines : Z) : M unit :=
  modify (on_sig (with_window_lines_ lines)).
Definition window_columns : M Z := gets (fun s => window_columns_ (sig s)).
Definition window_lines : M Z := gets (fun s => window_lines_ (sig s)).

(** The size computed for a buffer that has to grow:
    [( min_size < 512 ) ? 512 :
     ( min_size > INT_MAX / 2 ) ? INT_MAX : ( min_size / 512 ) * 1024],
    in [unsigned] arithmetic. *)
Definition grown_size (min_size : Z) : Z :=
  if min_size <? 512 then 512
  else if min_size >? INT_MAX / 2 then INT_MAX
  else to_unsigned ((min_size / 512) * 1024).

(** [resize_buffer( &buf, &size, min_size )] on the capacity [size]:
    assure at least a minimum size for buffer [buf].  The result is the new
    capacity.  [min_size] is the [unsigned] argument. *)
Definition resize_buffer_size (size min_size : Z) : M Z :=
  if to_unsigned size <? min_size then
    if min_size >=? INT_MAX then set_error_msg "Line too long" ;; fail
    else
      let new_size := grown_size min_size in
      disable_interrupts ;;
      ok <- libc_call ;;               (* realloc or malloc *)
      if negb ok then show_strerror ;; set_error_msg mem_msg ;; enable_interrupts ;; fail
      else enable_interrupts ;; ret new_size
  else ret size.

(** The same for one of the static buffers of the program. *)
Definition resize_buffer (b : bufid) (min_size : Z) : M unit :=
  size <- gets (fun s => bufsz s b) ;;
  new_size <- resize_buffer_size size min_size ;;
  modify (on_bufsz (fun f => <[b := new_size]> f)).

(** ** sh.cpp: the syntax-highlighting pass *)

(** [out[i] = c] in a buffer of [length out] bytes.  A store outside the
    buffer is an overflow: there is no result. *)
Definition store_char (out : list ascii) (i : Z) (c : ascii) : option (list ascii) :=
  if (0 <=? i) && (i <? Z.of_nat (length out))
  then Some (<[Z.to_nat i := c]> out) else None.

(** [for (char c; ops.get(c) && bytesWritten < 999; ) out[bytesWritten++] = c;]
    over the unread contents [avail] of [ops].  The result is the buffer,
    [bytesWritten] and what is left unread in [ops]; the character fetched
    when [bytesWritten] has reached 999 is dropped. *)
Fixpoint highlight_copy (avail : list ascii) (out : list ascii) (bytesWritten : Z)
  : option (list ascii * Z * list ascii) :=
  match avail with
  | [] => Some (out, bytesWritten, [])
  | c :: rest =>
      if bytesWritten <? 999 then
        match store_char out bytesWritten c with
        | Some out' => highlight_copy rest out' (bytesWritten + 1)
        | None => None
        end
      else Some (out, bytesWritten, rest)
  end.

(** [highlight( input, len, out, &nchar, lang )]: the result is the buffer
    [out] as the call leaves it, and [*nchar].  The two string streams are
    static: [clear()] resets their error flags only, so what an earlier call
    left unread is still there. *)
Definition highlight (input : list ascii) (len : Z) (out : list ascii) (lang : string)
  : M (list ascii * Z) :=
  (* for (int i = 0; i < len; i++) ips << input[i]; *)
  modify (on_sh (fun h => with_ips (ips h ++ take (Z.to_nat len) input) h)) ;;
  (* sourceHighlight.highlight(ips, ops, lang); *)
  modify (fun s => on_sh (fun h =>
            with_ips [] (with_ops (ops h ++ srchilite_ (libc s) (ips h) lang) h)) s) ;;
  avail <- gets (fun s => ops (sh s)) ;;
  match highlight_copy avail out 0 with
  | None => fail
  | Some (out1, bytesWritten, rest) =>
      modify (on_sh (with_ops rest)) ;;
      (* null-terminate the result *)
      match store_char out1 bytesWritten NUL with
      | None => fail
      | Some out2 => ret (out2, bytesWritten)
      end
  end.

(** ** regex.c: the pool of compiled regular expressions *)

Definition inv_i_suf : string := "Suffix 'I' not allowed on empty regexp".
Definition inv_pat_del : string := "Invalid pattern delimiter".
Definition mis_pat_del : string := "Missing pattern delimiter".
Definition no_match : string := "No match".
Definition no_prev_pat : string := "No previous pattern".

Definition subst_regex : M bool := gets (fun s => bool_decide (subst_regexp (re s) ≠ None)).

(** [for( n = 0; n < 3; ++n )
       if( ( exp = &store[n] ) != last_regexp && exp != subst_regexp ) break;]
    over the slots [ns] still to try; [exp] is the slot tried last. *)
Fixpoint find_slot (ns : list nat) (exp : nat) (last subst : option nat) : nat :=
  match ns with
  | [] => exp
  | n :: ns' =>
      if bool_decide (Some n ≠ last) && bool_decide (Some n ≠ subst) then n
      else find_slot ns' n last subst
  end.

Definition regfree (slot : nat) : M unit :=
  modify (on_re (fun r => with_store (<[slot := None]> (store r)) r)).

(** Return pointer to compiled regex (last_regexp), different from
    subst_regexp.  Return 0 if error.  After a failed [regcomp] the contents
    of the slot it was given are undefined: the slot holds no regex. *)
Definition compile_regex (pat : list ascii) (ignore_case : bool) : M nat :=
  last <- gets (fun s => last_regexp (re s)) ;;
  subst <- gets (fun s => subst_regexp (re s)) ;;
  let exp := find_slot [0; 1; 2]%nat 0%nat last subst in
  ext <- extended_regexp ;;
  let cflags := Z.lor (if ext then REG_EXTENDED else 0)
                      (if ignore_case then REG_ICASE else 0) in
  res <- gets (fun s => regcomp_ (libc s) pat cflags) ;;
  let '(n, nsub) := res in
  if negb (n =? 0) then
    modify (on_re (fun r => with_store (<[exp := None]> (store r)) r)) ;;
    msg <- gets (fun s => regerror_ (libc s) n) ;;
    set_error_msg msg ;;
    fail
  else
    modify (on_re (fun r => with_store (<[exp := Some (Regex pat cflags nsub)]> (store r)) r)) ;;
    (* free last_regexp if compiled and different from subst_regexp *)
    match last with
    | Some l => if bool_decide (last ≠ subst) then regfree l else ret tt
    | None => ret tt
    end ;;
    modify (on_re (with_last_regexp (Some exp))) ;;
    ret exp.

(** ** main_loop.c and io.c: what [buffer.c] needs of them *)

(** [for( i = 0; markno && i < 26; ++i )
       if( mark[i] == lp ) { mark[i] = 0; --markno; }] from index [26 - n]. *)
Fixpoint unmark_loop (n : nat) (lp : ptr) (m : main_loop_t) : main_loop_t :=
  match n with
  | O => m
  | S n' =>
      let i := (26 - n)%nat in
      if negb (markno m =? 0) then
        unmark_loop n' lp
          (if bool_decide (mark m i = lp)
           then with_markno (markno m - 1) (with_mark (<[i := NULL]> (mark m)) m)
           else m)
      else m
  end.

Definition unmark_line_node (lp : ptr) : M unit :=
  modify (on_ml (unmark_loop 26 lp)).

Definition reset_unterminated_line : M unit :=
  modify (on_io (with_unterminated_line NULL)).

Definition unmark_unterminated_line (lp : ptr) : M unit :=
  modify (on_io (fun i => if bool_decide (unterminated_line i = lp)
                          then with_unterminated_line NULL i else i)).

(** ** global.c: the list of lines active in a global command *)

(** The size in bytes of a pointer and of an [undo_t] (LP64). *)
Definition sizeof_ptr : Z := 8.
Definition sizeof_undo_t : Z := 24.

Definition active_len (g : global_t) : Z := Z.of_nat (length (active_list g)).

(** clear the global-active list *)
Definition clear_active_list : M unit :=
  disable_interrupts ;;
  modify (on_gl (fun _ => Global [] false 0 0 0)) ;;
  enable_interrupts.

(** [while( active_idx < active_len && !active_list[active_idx] ) ++active_idx;] *)
Fixpoint skip_inactive (fuel : nat) (g : global_t) : global_t :=
  match fuel with
  | O => g
  | S fuel' =>
      if (active_idx g <? active_len g)
         && bool_decide (active_list g !!! Z.to_nat (active_idx g) = NULL)
      then skip_inactive fuel' (with_active_idx (active_idx g + 1) g)
      else g
  end.

(** return the next global-active line node *)
Definition next_active_node : M ptr :=
  modify (on_gl (fun g => skip_inactive (length (active_list g)) g)) ;;
  g <- gets gl ;;
  if active_idx g <? active_len g then
    modify (on_gl (with_active_idx (active_idx g + 1))) ;;
    ret (active_list g !!! Z.to_nat (active_idx g))
  else ret NULL.

(** add a line node to the global-active list *)
Definition set_active_node (lp : ptr) : M unit :=
  g <- gets gl ;;
  let min_size := to_unsigned ((active_len g + 1) * sizeof_ptr) in
  (if to_unsigned (active_size g) <? min_size then
     if min_size >=? INT_MAX then set_error_msg "Too many matching lines" ;; fail
     else
       let new_size := grown_size min_size in
       disable_interrupts ;;
       ok <- libc_call ;;
       if negb ok then show_strerror ;; set_error_msg mem_msg ;; enable_interrupts ;; fail
       else
         modify (on_gl (fun g => with_active_alloc true (with_active_size new_size g))) ;;
         enable_interrupts
   else ret tt) ;;
  modify (on_gl (fun g => with_active_list (active_list g ++ [lp]) g)).

(** The [for] loop of [unset_active_nodes]: at most [n] steps of
    [if( ++active_idxm >= active_len ) active_idxm = 0;
     if( active_list[active_idxm] == bp ) { active_list[active_idxm] = 0; break; }] *)
Fixpoint unset_active_scan (n : nat) (bp : ptr) (g : global_t) : global_t :=
  match n with
  | O => g
  | S n' =>
      let idxm := if active_idxm g + 1 >=? active_len g then 0 else active_idxm g + 1 in
      let g1 := with_active_idxm idxm g in
      if bool_decide (active_list g1 !!! Z.to_nat idxm = bp)
      then with_active_list (<[Z.to_nat idxm := NULL]> (active_list g1)) g1
      else unset_active_scan n' bp g1
  end.

(** remove a range of lines from the global-active list; the walk from [bp]
    to [ep] visits each node once, so it is over after [fuel] steps when
    [fuel] bounds the number of nodes. *)
Fixpoint unset_active_loop (fuel : nat) (bp ep : ptr) : M unit :=
  match fuel with
  | O => ret tt
  | S fuel' =>
      if bool_decide (bp = ep) then ret tt
      else
        modify (on_gl (fun g => unset_active_scan (length (active_list g)) bp g)) ;;
        next <- gets (fun s => q_forw (heap (buf s) bp)) ;;
        unset_active_loop fuel' next ep
  end.

Definition unset_active_nodes (bp ep : ptr) : M unit :=
  fuel <- gets (fun s => brk (libc s)) ;;
  unset_active_loop fuel bp ep.

(** ** buffer.c: scratch-file buffer routines *)

Definition current_addr : M Z := gets (fun s => current_addr_ (buf s)).
Definition inc_current_addr : M Z :=
  modify (on_buf (fun b =>
    with_current_addr_ (if current_addr_ b + 1 >? last_addr_ b
                        then last_addr_ b else current_addr_ b + 1) b)) ;;
  current_addr.
Definition set_current_addr (addr : Z) : M unit :=
  modify (on_buf (with_current_addr_ addr)).

Definition last_addr : M Z := gets (fun s => last_addr_ (buf s)).

Definition isbinary : M bool := gets (fun s => isbinary_ (buf s)).
Definition set_binary : M unit := modify (on_buf (with_isbinary_ true)).

Definition modified : M bool := gets (fun s => modified_ (buf s)).
Definition set_modified (m : bool) : M unit := modify (on_buf (with_modified_ m)).

Definition inc_addr (addr : Z) : M Z :=
  last <- last_addr ;; ret (if addr + 1 >? last then 0 else addr + 1).

Definition dec_addr (addr : Z) : M Z :=
  last <- last_addr ;; ret (if addr - 1 <? 0 then last else addr - 1).

Definition set_q_forw (n : ptr) (l : line_t) : line_t := Line n (q_back l) (pos l) (len l).
Definition set_q_back (p : ptr) (l : line_t) : line_t := Line (q_forw l) p (pos l) (len l).

(** [prev->q_forw = next; next->q_back = prev;] *)
Definition link_heap (prev next : ptr) (h : ptr -> line_t) : ptr -> line_t :=
  let h1 := <[prev := set_q_forw next (h prev)]> h in
  <[next := set_q_back prev (h1 next)]> h1.

(** link next and previous nodes *)
Definition link_nodes (prev next : ptr) : M unit :=
  modify (on_buf (fun b => with_heap (link_heap prev next (heap b)) b)).

(** [p->q_forw] and [p->q_back] *)
Definition forw (p : ptr) : M ptr := gets (fun s => q_forw (heap (buf s) p)).
Definition back (p : ptr) : M ptr := gets (fun s => q_back (heap (buf s) p)).

(** insert line node into circular queue after previous *)
Definition insert_node (lp prev : ptr) : M unit :=
  next <- forw prev ;;
  link_nodes lp next ;;
  link_nodes prev lp.

(** to be called before add_line_node; [true] when there are too many *)
Definition too_many_lines : M bool :=
  last <- last_addr ;;
  if last <? INT_MAX - 1 then ret false
  else set_error_msg "Too many lines in buffer" ;; ret true.

(** [k] times [lp = lp->q_forw] *)
Fixpoint walk_forw (h : ptr -> line_t) (k : nat) (lp : ptr) : ptr :=
  match k with
  | O => lp
  | S k' => walk_forw h k' (q_forw (h lp))
  end.

(** [k] times [lp = lp->q_back] *)
Fixpoint walk_back (h : ptr -> line_t) (k : nat) (lp : ptr) : ptr :=
  match k with
  | O => lp
  | S k' => walk_back h k' (q_back (h lp))
  end.

(** [while( o_addr < addr ) { ++o_addr; lp = lp->q_forw; }] *)
Definition seek_forw (h : ptr -> line_t) (lp : ptr) (o_addr addr : Z) : ptr * Z :=
  (walk_forw h (Z.to_nat (addr - o_addr)) lp, Z.max o_addr addr).

(** [while( o_addr > addr ) { --o_addr; lp = lp->q_back; }] *)
Definition seek_back (h : ptr -> line_t) (lp : ptr) (o_addr addr : Z) : ptr * Z :=
  (walk_back h (Z.to_nat (o_addr - addr)) lp, Z.min o_addr addr).

(** The body of [search_line_node]: the node at [addr] and the address
    cached with it, found from the cached node, from the head or from the
    last node, whichever the comparisons pick. *)
Definition search_cache (b : buffer_t) (addr : Z) : ptr * Z :=
  let h := heap b in
  if s_o_addr b <? addr then
    if s_o_addr b + last_addr_ b >=? 2 * addr
    then seek_forw h (s_lp b) (s_o_addr b) addr
    else seek_back h (q_back (h buffer_head)) (last_addr_ b) addr
  else if s_o_addr b <=? 2 * addr
  then seek_back h (s_lp b) (s_o_addr b) addr
  else seek_forw h buffer_head 0 addr.

(** return pointer to a line node in the editor buffer *)
Definition search_line_node (addr : Z) : M ptr :=
  disable_interrupts ;;
  found <- gets (fun s => search_cache (buf s) addr) ;;
  modify (on_buf (fun b => with_s_lp (fst found) (with_s_o_addr (snd found) b))) ;;
  enable_interrupts ;;
  ret (fst found).

(** add a line node in the editor buffer after the given line *)
Definition add_line_node (lp : ptr) : M unit :=
  cur <- current_addr ;;
  prev <- search_line_node cur ;;
  insert_node lp prev ;;
  modify (on_buf (fun b => with_current_addr_ (current_addr_ b + 1) b)) ;;
  modify (on_buf (fun b => with_last_addr_ (last_addr_ b + 1) b)).

(** return a pointer to a copy of a line node, or to a new node if lp == 0.
    [malloc] hands out the next unused address; the links of the new node
    are whatever the memory held. *)
Definition dup_line_node (lp : ptr) : M ptr :=
  ok <- libc_call ;;
  if negb ok then show_strerror ;; set_error_msg mem_msg ;; fail
  else
    p <- gets (fun s => brk (libc s)) ;;
    modify (on_libc (with_brk (S p))) ;;
    (if bool_decide (lp ≠ NULL)
     then modify (on_buf (fun b =>
            let h := heap b in
            with_heap (<[p := Line (q_forw (h p)) (q_back (h p)) (pos (h lp)) (len (h lp))]> h) b))
     else ret tt) ;;
    ret p.

(** *** The undo stack *)

Definition u_idx (b : buffer_t) : Z := Z.of_nat (length (ustack b)).

(** The inner loop of [clear_undo_stack]: from [bp] to [ep],
    [unmark_line_node( bp ); unmark_unterminated_line( bp ); free( bp );].
    Freed memory is never handed out again in this model. *)
Fixpoint free_range (fuel : nat) (bp ep : ptr) : M unit :=
  match fuel with
  | O => ret tt
  | S fuel' =>
      if bool_decide (bp = ep) then ret tt
      else
        lp <- forw bp ;;
        unmark_line_node bp ;;
        unmark_unterminated_line bp ;;
        free_range fuel' lp ep
  end.

(** [while( u_idx-- ) if( ustack[u_idx].type == UDEL ) ...] over the atoms
    from the top of the stack down. *)
Fixpoint clear_undo_atoms (atoms : list undo_t) : M unit :=
  match atoms with
  | [] => ret tt
  | a :: rest =>
      (if u_type a =? UDEL then
         ep <- forw (u_tail a) ;;
         fuel <- gets (fun s => brk (libc s)) ;;
         free_range fuel (u_head a) ep
       else ret tt) ;;
      clear_undo_atoms rest
  end.

Definition clear_undo_stack : M unit :=
  atoms <- gets (fun s => ustack (buf s)) ;;
  clear_undo_atoms (rev atoms) ;;
  modify (on_buf (fun b =>
    with_ustack []
      (with_u_current_addr (current_addr_ b)
        (with_u_last_addr (last_addr_ b)
          (with_u_modified (modified_ b) b))))).

Definition reset_undo_state : M unit :=
  clear_undo_stack ;;
  modify (on_buf (fun b =>
    with_u_current_addr (-1) (with_u_last_addr (-1) (with_u_modified false b)))).

Definition free_undo_stack : M unit :=
  alloc <- gets (fun s => ustack_alloc (buf s)) ;;
  if alloc then
    clear_undo_stack ;;
    modify (on_buf (fun b =>
      with_ustack_alloc false
        (with_usize 0
          (with_ustack []
            (with_u_current_addr (-1) (with_u_last_addr (-1) b))))))
  else ret tt.

(** return pointer to intialized undo node: its index in the stack *)
Definition push_undo_atom (type : Z) (from to : Z) : M nat :=
  b <- gets buf ;;
  let min_size := to_unsigned ((u_idx b + 1) * sizeof_undo_t) in
  disable_interrupts ;;
  (if to_unsigned (usize b) <? min_size then
     if min_size >=? INT_MAX then
       set_error_msg "Undo stack too long" ;;
       free_undo_stack ;; enable_interrupts ;; fail
     else
       let new_size := grown_size min_size in
       ok <- libc_call ;;
       if negb ok then
         show_strerror ;; set_error_msg mem_msg ;;
         free_undo_stack ;; enable_interrupts ;; fail
       else modify (on_buf (fun b => with_usize new_size (with_ustack_alloc true b)))
   else ret tt) ;;
  tail <- search_line_node to ;;
  head <- search_line_node from ;;
  modify (on_buf (fun b => with_ustack (ustack b ++ [Undo_atom type head tail]) b)) ;;
  enable_interrupts ;;
  ret (length (ustack b)).

(** [up->tail = lp] *)
Definition set_atom_tail (up : nat) (lp : ptr) : M unit :=
  modify (on_buf (fun b =>
    with_ustack (<[up := Undo_atom (u_type (ustack b !!! up)) (u_head (ustack b !!! up)) lp]>
                   (ustack b)) b)).

(** *** The scratch file *)

(** open scratch file *)
Definition open_sbuf : M unit :=
  modify (on_buf (with_isbinary_ false)) ;;
  reset_unterminated_line ;;
  ok <- libc_call ;;                (* tmpfile() *)
  if negb ok then
    modify (on_buf (with_sfp None)) ;;
    show_strerror ;; set_error_msg "Cannot open temp file" ;; fail
  else modify (on_buf (with_sfp (Some []))).

(** [fwrite( buf, 1, len, sfp )] at the file position [off]. *)
Definition file_write (off : Z) (bytes file : list ascii) : list ascii :=
  take (Z.to_nat off) file ++ bytes ++ drop (Z.to_nat off + length bytes) file.

(** Write a line of text to the scratch file and add a line node to the
    editor buffer.  The text line stops at the first newline and may be
    shorter than size.  The result is the text following the newline in
    [buf].  The position of the stream is [sfpos]: the source keeps the two
    together ([ftell] after [fseek], and [sfpos += len] after a write). *)
Definition put_sbuf_line (buf_ : list ascii) (size : Z) : M (list ascii) :=
  match list_find (fun c => c = NL) (take (Z.to_nat size) buf_) with
  | None =>
      set_error_msg "internal error: unterminated line passed to put_sbuf_line" ;; fail
  | Some (i, _) =>
      let len_ := Z.of_nat i in
      many <- too_many_lines ;;
      if many then fail else
      sw <- gets (fun s => seek_write (buf s)) ;;
      (if sw then                                  (* out of position *)
         ok <- libc_call ;;                        (* fseek( sfp, 0L, SEEK_END ) *)
         if negb ok then show_strerror ;; set_error_msg "Cannot seek temp file" ;; fail
         else modify (on_buf (fun b =>
                let end_ := Z.of_nat (length (default [] (sfp b))) in
                with_sf_off end_ (with_sfpos end_ (with_seek_write false b))))   (* sfpos = ftell( sfp ) *)
       else ret tt) ;;
      ok <- libc_call ;;                           (* fwrite( buf, 1, len, sfp ) *)
      if negb ok then
        modify (on_buf (with_sfpos (-1))) ;;
        show_strerror ;; set_error_msg "Cannot write temp file" ;; fail
      else
        modify (on_buf (fun b =>
          with_sf_off (sf_off b + len_)
            (with_sfp (file_write (sf_off b) (take i buf_) <$> sfp b) b))) ;;
        lp <- dup_line_node NULL ;;
        modify (on_buf (fun b =>
          let h := heap b in
          with_heap (<[lp := Line (q_forw (h lp)) (q_back (h lp)) (sfpos b) len_]> h) b)) ;;
        add_line_node lp ;;
        modify (on_buf (fun b => with_sfpos (sfpos b + len_) b)) ;;   (* update file position *)
        ret (drop (S i) buf_)
  end.

(** get a line of text from the scratch file; return the text.  The
    [fread] fails when the oracle says so or when the file is too short. *)
Definition get_sbuf_line (lp : ptr) : M (list ascii) :=
  if bool_decide (lp = buffer_head) then fail else
  modify (on_buf (with_seek_write true)) ;;        (* force seek on write *)
  b <- gets buf ;;
  let l := heap b lp in
  (if negb (sfpos b =? pos l) then                 (* out of position *)
     modify (on_buf (with_sfpos (pos l))) ;;
     ok <- libc_call ;;                            (* fseek( sfp, sfpos, SEEK_SET ) *)
     if negb ok then show_strerror ;; set_error_msg "Cannot seek temp file" ;; fail
     else modify (on_buf (fun b => with_sf_off (sfpos b) b))
   else ret tt) ;;
  resize_buffer buf_sbuf_line (to_unsigned (len l + 1)) ;;
  ok <- libc_call ;;                               (* fread( buf, 1, len, sfp ) *)
  b <- gets buf ;;
  let file := default [] (sfp b) in
  if negb ok || (sf_off b <? 0) || (len l <? 0)
     || (Z.of_nat (length file) <? sf_off b + len l) then
    show_strerror ;; set_error_msg "Cannot read temp file" ;; fail
  else
    modify (on_buf (fun b => with_sf_off (sf_off b + len l)
                               (with_sfpos (sfpos b + len l) b))) ;;   (* update file position *)
    ret (take (Z.to_nat (len l)) (drop (Z.to_nat (sf_off b)) file)).

(** ** io.c: reading standard input *)

Definition linenum : M Z := gets (fun s => linenum_ (io s)).

(** The loop of [get_stdin_line] over the unread input [input], with the
    characters [line] already in the buffer ([i = length line]).  Each
    character is taken off the stream as [getchar] fetches it. *)
Fixpoint get_stdin_loop (input line : list ascii) : M (list ascii) :=
  let i := Z.of_nat (length line) in
  match input with
  | [] =>                                           (* c == EOF *)
      resize_buffer buf_stdin (to_unsigned (i + 2)) ;;
      set_error_msg "Unexpected end-of-file" ;;
      (if i >? 0 then modify (on_io (fun o => with_linenum_ (linenum_ o + 1) o))
       else ret tt) ;;                              (* discard line *)
      ret []
  | c :: rest =>
      modify (on_libc (with_stdin_ rest)) ;;
      resize_buffer buf_stdin (to_unsigned (i + 2)) ;;
      (if char_eqb c NUL then set_binary else ret tt) ;;
      if negb (char_eqb c NL) then get_stdin_loop rest (line ++ [c])
      else
        modify (on_io (fun o => with_linenum_ (linenum_ o + 1) o)) ;;
        ret (line ++ [c])
  end.

(** Read a line of text from stdin.  Incomplete lines (lacking the trailing
    newline) are discarded.  The result is the line, the trailing newline
    included; it is empty at the end of the input, and there is none if
    error. *)
Definition get_stdin_line : M (list ascii) :=
  input <- gets (fun s => stdin_ (libc s)) ;;
  get_stdin_loop input [].

(** ** buffer.c: the commands on lines *)

(** The loop of [append_lines]; [up] is the undo atom of the lines added so
    far.  Every round consumes a line of standard input or of the command
    buffer, so [fuel] rounds suffice when [fuel] exceeds what is left of
    both. *)
Fixpoint append_loop (fuel : nat) (ibuf : list ascii) (insert isglobal : bool)
    (up : option nat) : M (list ascii) :=
  match fuel with
  | O => fail
  | S fuel' =>
      next <-
        (if negb isglobal then
           line <- get_stdin_line ;;                (* no result: error *)
           ret (line, Z.of_nat (length line), bool_decide (line = []))   (* EOF *)
         else
           match ibuf with
           | [] => ret (ibuf, 0, true)
           | _ =>
               (* for( size = 0; ( *ibufpp )[size++] != '\n'; ) ; *)
               match list_find (fun c => c = NL) ibuf with
               | Some (i, _) => ret (ibuf, Z.of_nat (S i), false)
               | None => fail       (* the scan leaves the command buffer *)
               end
           end) ;;
      let '(ibuf, size, stop) := next in
      if (stop : bool) then ret ibuf
      else if (size =? 2) && bool_decide (head ibuf = Some "."%char)
      then ret (drop (Z.to_nat size) ibuf)
      else
        disable_interrupts ;;
        (if insert then
           modify (on_buf (fun b =>
             if current_addr_ b >? 0 then with_current_addr_ (current_addr_ b - 1) b else b))
         else ret tt) ;;
        put <- attempt (put_sbuf_line ibuf size) ;;
        match put with
        | None => enable_interrupts ;; fail
        | Some _ =>
            up' <- (match up with
                    | Some u =>
                        cur <- current_addr ;;
                        lp <- search_line_node cur ;;
                        set_atom_tail u lp ;; ret (Some u)
                    | None =>
                        cur <- current_addr ;;
                        pushed <- attempt (push_undo_atom UADD cur cur) ;;
                        match pushed with
                        | None => enable_interrupts ;; fail
                        | Some u => ret (Some u)
                        end
                    end) ;;
            modify (on_buf (with_modified_ true)) ;;
            enable_interrupts ;;
            append_loop fuel' (drop (Z.to_nat size) ibuf) false isglobal up'
        end
  end.

(** Insert text from stdin (or from command buffer if global) to after
    line n; stop when either a single period is read or at EOF.
    There is no result if insertion fails; otherwise the result is what is
    left of the command buffer. *)
Definition append_lines (ibuf : list ascii) (addr : Z) (insert isglobal : bool)
  : M (list ascii) :=
  modify (on_buf (with_current_addr_ addr)) ;;
  input <- gets (fun s => stdin_ (libc s)) ;;
  append_loop (S (length input + length ibuf)) ibuf insert isglobal None.

(** The loop of [clear_yank_buffer]:
    [p = lp->q_forw; link_nodes( lp->q_back, lp->q_forw ); free( lp ); lp = p;] *)
Fixpoint clear_yank_loop (fuel : nat) (lp : ptr) : M unit :=
  match fuel with
  | O => ret tt
  | S fuel' =>
      if bool_decide (lp = yank_buffer_head) then ret tt
      else
        p <- forw lp ;;
        prev <- back lp ;;
        link_nodes prev p ;;
        clear_yank_loop fuel' p
  end.

Definition clear_yank_buffer : M unit :=
  lp <- forw yank_buffer_head ;;
  disable_interrupts ;;
  fuel <- gets (fun s => brk (libc s)) ;;
  clear_yank_loop fuel lp ;;
  enable_interrupts.

(** close scratch file *)
Definition close_sbuf : M unit :=
  clear_yank_buffer ;;
  clear_undo_stack ;;
  open <- gets (fun s => bool_decide (sfp (buf s) ≠ None)) ;;
  (if open then
     ok <- libc_call ;;                            (* fclose( sfp ) *)
     if negb ok then show_strerror ;; set_error_msg "Cannot close temp file" ;; fail
     else modify (on_buf (with_sfp None))
   else ret tt) ;;
  modify (on_buf (fun b => with_sf_off 0 (with_sfpos 0 (with_seek_write false b)))).

(** The inner loop of [copy_lines]: [for( ; n-- > 0; np = np->q_forw )];
    the result is [np] and [up]. *)
Fixpoint copy_loop (n : nat) (np : ptr) (up : option nat) : M (ptr * option nat) :=
  match n with
  | O => ret (np, up)
  | S n' =>
      many <- too_many_lines ;;
      if many then fail else
      disable_interrupts ;;
      dup <- attempt (dup_line_node np) ;;
      match dup with
      | None => enable_interrupts ;; fail
      | Some lp =>
          add_line_node lp ;;
          up' <- (match up with
                  | Some u => set_atom_tail u lp ;; ret (Some u)
                  | None =>
                      cur <- current_addr ;;
                      pushed <- attempt (push_undo_atom UADD cur cur) ;;
                      match pushed with
                      | None => enable_interrupts ;; fail
                      | Some u => ret (Some u)
                      end
                  end) ;;
          modify (on_buf (with_modified_ true)) ;;
          enable_interrupts ;;
          np' <- forw np ;;
          copy_loop n' np' up'
      end
  end.

(** copy a range of lines; no result if error *)
Definition copy_lines (first_addr second_addr addr : Z) : M unit :=
  np <- search_line_node first_addr ;;
  modify (on_buf (with_current_addr_ addr)) ;;
  let '(n, m) :=
    if (addr >=? first_addr) && (addr <? second_addr)
    then (addr - first_addr + 1, second_addr - addr)
    else (second_addr - first_addr + 1, 0) in
  (* for( ; n > 0; n = m, m = 0, np = search_line_node( current_addr_ + 1 ) ) *)
  if n >? 0 then
    r <- copy_loop (Z.to_nat n) np None ;;
    let up := snd r in
    cur <- current_addr ;;
    np <- search_line_node (cur + 1) ;;
    if m >? 0 then
      copy_loop (Z.to_nat m) np up ;;
      cur <- current_addr ;;
      search_line_node (cur + 1) ;;
      ret tt
    else ret tt
  else ret tt.

(** The loop of [yank_lines]: from [bp] to [ep], a copy of each node is
    put after [lp] in the yank buffer. *)
Fixpoint yank_loop (fuel : nat) (bp ep lp : ptr) : M unit :=
  match fuel with
  | O => fail
  | S fuel' =>
      if bool_decide (bp = ep) then ret tt
      else
        disable_interrupts ;;
        dup <- attempt (dup_line_node bp) ;;
        match dup with
        | None => enable_interrupts ;; fail
        | Some p =>
            insert_node p lp ;;
            bp' <- forw bp ;;
            enable_interrupts ;;
            yank_loop fuel' bp' ep p
        end
  end.

(** copy a range of lines to the cut buffer.  The walk from [from] to the
    line after [to] passes no more than all the lines of the buffer. *)
Definition yank_lines (from to : Z) : M unit :=
  a <- inc_addr to ;;
  ep <- search_line_node a ;;
  bp <- search_line_node from ;;
  clear_yank_buffer ;;
  last <- last_addr ;;
  yank_loop (S (Z.to_nat (last + 1))) bp ep yank_buffer_head.

(** delete a range of lines *)
Definition delete_lines (from to : Z) (isglobal : bool) : M unit :=
  yank_lines from to ;;
  disable_interrupts ;;
  pushed <- attempt (push_undo_atom UDEL from to) ;;
  match pushed with
  | None => enable_interrupts ;; fail
  | Some _ =>
      a <- inc_addr to ;;
      n <- search_line_node a ;;
      p <- search_line_node (from - 1) ;;          (* this search_line_node last! *)
      (if isglobal then first <- forw p ;; unset_active_nodes first n else ret tt) ;;
      link_nodes p n ;;
      modify (on_buf (fun b => with_last_addr_ (last_addr_ b - (to - from + 1)) b)) ;;
      modify (on_buf (fun b => with_current_addr_ (Z.min from (last_addr_ b)) b)) ;;
      modify (on_buf (with_modified_ true)) ;;
      enable_interrupts
  end.

(** The loop of [get_line_node_addr]:
    [while( p != lp && ( p = p->q_forw ) != &buffer_head ) ++addr;] *)
Fixpoint line_addr_loop (fuel : nat) (h : ptr -> line_t) (p lp : ptr) (addr : Z) : ptr * Z :=
  match fuel with
  | O => (p, addr)
  | S fuel' =>
      if bool_decide (p = lp) then (p, addr)
      else
        let p' := q_forw (h p) in
        if bool_decide (p' = buffer_head) then (p', addr)
        else line_addr_loop fuel' h p' lp (addr + 1)
  end.

(** return line number of pointer, or -1 (with the message set).  The walk
    is back at the head after one round of the buffer. *)
Definition get_line_node_addr (lp : ptr) : M Z :=
  b <- gets buf ;;
  let '(p, addr) :=
    line_addr_loop (S (S (Z.to_nat (last_addr_ b)))) (heap b) buffer_head lp 0 in
  if negb (addr =? 0) && bool_decide (p = buffer_head)
  then invalid_address ;; ret (-1)
  else ret addr.

(** open scratch buffer; initialize line queue *)
Definition init_buffers : M unit :=
  open_sbuf ;;
  link_nodes buffer_head buffer_head ;;
  link_nodes yank_buffer_head yank_buffer_head.

(** The first loop of [join_lines]: the text of the lines from [bp] to
    [ep] is gathered in [text] ([size] is its length). *)
Fixpoint join_loop (fuel : nat) (bp ep : ptr) (text : list ascii) : M (list ascii) :=
  match fuel with
  | O => fail
  | S fuel' =>
      if bool_decide (bp = ep) then ret text
      else
        s <- get_sbuf_line bp ;;
        l <- gets (fun st => len (heap (buf st) bp)) ;;
        resize_buffer buf_join (to_unsigned (Z.of_nat (length text) + l)) ;;
        bp' <- forw bp ;;
        join_loop fuel' bp' ep (text ++ take (Z.to_nat l) s)
  end.

(** replace a range of lines with the joined text of those lines *)
Definition join_lines (from to : Z) (isglobal : bool) : M unit :=
  a <- inc_addr to ;;
  ep <- search_line_node a ;;
  bp <- search_line_node from ;;
  last <- last_addr ;;
  text <- join_loop (S (Z.to_nat (last + 1))) bp ep [] ;;
  let size := Z.of_nat (length text) in
  resize_buffer buf_join (to_unsigned (size + 2)) ;;
  delete_lines from to isglobal ;;
  modify (on_buf (with_current_addr_ (from - 1))) ;;
  disable_interrupts ;;
  put <- attempt (put_sbuf_line (text ++ [NL; NUL]) (size + 2)) ;;
  match put with
  | None => enable_interrupts ;; fail
  | Some _ =>
      cur <- current_addr ;;
      pushed <- attempt (push_undo_atom UADD cur cur) ;;
      match pushed with
      | None => enable_interrupts ;; fail
      | Some _ =>
          modify (on_buf (with_modified_ true)) ;;
          enable_interrupts
      end
  end.

(** move a range of lines *)
Definition move_lines (first_addr second_addr addr : Z) (isglobal : bool) : M unit :=
  n <- inc_addr second_addr ;;
  let p := first_addr - 1 in
  disable_interrupts ;;
  ends <-
    (if (addr =? first_addr - 1) || (addr =? second_addr) then
       a2 <- search_line_node n ;;
       b2 <- search_line_node p ;;
       modify (on_buf (with_current_addr_ second_addr)) ;;
       ret (b2, a2)
     else
       pushed <- attempt (push_undo_atom UMOV p n) ;;
       match pushed with
       | None => enable_interrupts ;; fail
       | Some _ =>
           a <- inc_addr addr ;;
           pushed <- attempt (push_undo_atom UMOV addr a) ;;
           match pushed with
           | None => enable_interrupts ;; fail
           | Some _ =>
               a1 <- search_line_node n ;;
               bs <- (if addr <? first_addr then
                        b1 <- search_line_node p ;;
                        b2 <- search_line_node addr ;;   (* this search_line_node last! *)
                        ret (b1, b2)
                      else
                        b2 <- search_line_node addr ;;
                        b1 <- search_line_node p ;;      (* this search_line_node last! *)
                        ret (b1, b2)) ;;
               let '(b1, b2) := bs in
               a2 <- forw b2 ;;
               first <- forw b1 ;;
               link_nodes b2 first ;;
               second <- back a1 ;;
               link_nodes second a2 ;;
               link_nodes b1 a1 ;;
               modify (on_buf (with_current_addr_
                 (addr + (if addr <? first_addr then second_addr - first_addr + 1 else 0)))) ;;
               ret (b2, a2)
           end
       end) ;;
  let '(b2, a2) := ends in
  (if isglobal then first <- forw b2 ;; unset_active_nodes first a2 else ret tt) ;;
  modify (on_buf (with_modified_ true)) ;;
  enable_interrupts.

(** The loop of [put_lines] over the yank buffer. *)
Fixpoint put_loop (fuel : nat) (lp : ptr) (up : option nat) : M unit :=
  match fuel with
  | O => fail
  | S fuel' =>
      if bool_decide (lp = yank_buffer_head) then ret tt
      else
        many <- too_many_lines ;;
        if many then fail else
        disable_interrupts ;;
        dup <- attempt (dup_line_node lp) ;;
        match dup with
        | None => enable_interrupts ;; fail
        | Some p =>
            add_line_node p ;;
            up' <- (match up with
                    | Some u => set_atom_tail u p ;; ret (Some u)
                    | None =>
                        cur <- current_addr ;;
                        pushed <- attempt (push_undo_atom UADD cur cur) ;;
                        match pushed with
                        | None => enable_interrupts ;; fail
                        | Some u => ret (Some u)
                        end
                    end) ;;
            modify (on_buf (with_modified_ true)) ;;
            lp' <- forw lp ;;
            enable_interrupts ;;
            put_loop fuel' lp' up'
        end
  end.

(** append lines from the yank buffer *)
Definition put_lines (addr : Z) : M unit :=
  lp <- forw yank_buffer_head ;;
  if bool_decide (lp = yank_buffer_head)
  then set_error_msg "Nothing to put" ;; fail
  else
    modify (on_buf (with_current_addr_ addr)) ;;
    fuel <- gets (fun s => brk (libc s)) ;;
    put_loop (S fuel) lp None.

(** *** undo *)

(** [ustack[n]]; an index outside the array reads a null atom. *)
Definition atom_at (st : list undo_t) (n : Z) : undo_t :=
  if n <? 0 then inhabitant else st !!! Z.to_nat n.

(** [ustack[n] = a]; a store outside the array is dropped. *)
Definition set_atom (n : Z) (a : undo_t) (st : list undo_t) : list undo_t :=
  if n <? 0 then st else <[Z.to_nat n := a]> st.

(** [ustack[n].type ^= 1] *)
Definition toggle_type (a : undo_t) : undo_t :=
  Undo_atom (Z.lxor (u_type a) 1) (u_head a) (u_tail a).

(** The body of the first loop of [undo] at index [n]: the links are set
    back, and the result is [n] as the [switch] leaves it. *)
Definition undo_atom (n : Z) : M Z :=
  st <- gets (fun s => ustack (buf s)) ;;
  let a := atom_at st n in
  if u_type a =? UADD then
    p <- back (u_head a) ;; q <- forw (u_tail a) ;;
    link_nodes p q ;; ret n
  else if u_type a =? UDEL then
    p <- back (u_head a) ;;
    link_nodes p (u_head a) ;;
    q <- forw (u_tail a) ;;
    link_nodes (u_tail a) q ;; ret n
  else if (u_type a =? UMOV) || (u_type a =? VMOV) then
    let a' := atom_at st (n - 1) in
    q <- forw (u_head a) ;;
    link_nodes (u_head a') q ;;
    p <- back (u_tail a) ;;
    link_nodes p (u_tail a') ;;
    link_nodes (u_head a) (u_tail a) ;;
    ret (n - 1)
  else ret n.

(** [for( n = u_idx - 1; n >= 0; --n ) { switch ... ; ustack[n].type ^= 1; }] *)
Fixpoint undo_loop (fuel : nat) (n : Z) : M unit :=
  match fuel with
  | O => ret tt
  | S fuel' =>
      if n <? 0 then ret tt
      else
        n' <- undo_atom n ;;
        modify (on_buf (fun b =>
          with_ustack (set_atom n' (toggle_type (atom_at (ustack b) n')) (ustack b)) b)) ;;
        undo_loop fuel' (n' - 1)
  end.

(** reverse undo stack order:
    [for( n = 0; 2 * n < u_idx - 1; ++n ) swap ustack[n], ustack[u_idx-1-n]] *)
Fixpoint reverse_loop (fuel : nat) (n : Z) (st : list undo_t) : list undo_t :=
  match fuel with
  | O => st
  | S fuel' =>
      let idx := Z.of_nat (length st) in
      if 2 * n <? idx - 1 then
        let tmp := atom_at st n in
        let st1 := set_atom n (atom_at st (idx - 1 - n)) st in
        reverse_loop fuel' (n + 1) (set_atom (idx - 1 - n) tmp st1)
      else st
  end.

(** undo last change to the editor buffer *)
Definition undo (isglobal : bool) : M unit :=
  b <- gets buf ;;
  let o_current_addr := current_addr_ b in
  let o_last_addr := last_addr_ b in
  let o_modified := modified_ b in
  if (u_idx b <=? 0) || (u_current_addr b <? 0) || (u_last_addr b <? 0)
  then set_error_msg "Nothing to undo" ;; fail
  else
    search_line_node 0 ;;                          (* reset cached value *)
    disable_interrupts ;;
    undo_loop (length (ustack b)) (u_idx b - 1) ;;
    modify (on_buf (fun b =>
      with_ustack (reverse_loop (length (ustack b)) 0 (ustack b)) b)) ;;
    (if isglobal then clear_active_list else ret tt) ;;
    modify (on_buf (fun b =>
      with_current_addr_ (u_current_addr b) (with_u_current_addr o_current_addr b))) ;;
    modify (on_buf (fun b =>
      with_last_addr_ (u_last_addr b) (with_u_last_addr o_last_addr b))) ;;
    modify (on_buf (fun b =>
      with_modified_ (u_modified b) (with_u_modified o_modified b))) ;;
    enable_interrupts.

(** ** Characters and C strings *)

(** A C string is the list of its characters; the character at its end is
    the terminating NUL. *)
Definition peek (p : list ascii) : ascii := hd NUL p.

(** [p[n]] *)
Definition peek_at (n : nat) (p : list ascii) : ascii := nth n p NUL.

Definition code (c : ascii) : Z := Z.of_nat (nat_of_ascii c).

Definition ch (n : Z) : ascii := ascii_of_nat (Z.to_nat n).

Definition isdigit (c : ascii) : bool := (48 <=? code c) && (code c <=? 57).

(** [isspace] in the C locale: space, and the characters from tab to
    carriage return. *)
Definition isspace (c : ascii) : bool :=
  (code c =? 32) || ((9 <=? code c) && (code c <=? 13)).

(** [strlen]: the characters before the first NUL. *)
Fixpoint cstring (p : list ascii) : list ascii :=
  match p with
  | [] => []
  | c :: rest => if char_eqb c NUL then [] else c :: cstring rest
  end.

Definition strlen (p : list ascii) : Z := Z.of_nat (length (cstring p)).

(** [printf( "%d", n )] *)
Definition show_int (n : Z) : list ascii :=
  String.list_ascii_of_string (DecimalString.NilZero.string_of_int (Z.to_int n)).

(** Writing to standard output. *)
Definition put_string (text : list ascii) : M unit :=
  modify (on_libc (fun l => with_stdout_ (stdout_ l ++ text) l)).

(** [flags & f] is not zero. *)
Definition has_flag (flags f : Z) : bool := negb (Z.land flags f =? 0).

(** ** signal.c: [strip_escapes] and [path_max] *)

(** [while( ( buf[i++] = ( ( *p == '\\' ) ? *++p : *p ) ) ) ++p;] *)
Fixpoint strip_escapes_text (p : list ascii) : list ascii :=
  match p with
  | [] => []
  | c :: rest =>
      if char_eqb c NUL then []
      else if char_eqb c "\"%char then
        match rest with
        | [] => []
        | d :: rest' => if char_eqb d NUL then [] else d :: strip_escapes_text rest'
        end
      else c :: strip_escapes_text rest
  end.

(** return unescaped copy of escaped string *)
Definition strip_escapes (p : list ascii) : M (list ascii) :=
  resize_buffer buf_strip (to_unsigned (strlen p + 1)) ;;
  ret (strip_escapes_text p).

Definition path_max : M Z := gets (fun s => path_max_ (libc s)).

(** ** main.c: [may_access_filename] *)

Definition has_slash (name : list ascii) : bool :=
  existsb (fun c => char_eqb c "/"%char) (cstring name).

Definition may_access_filename (name : list ascii) : M unit :=
  r <- restricted ;;
  if r then
    if char_eqb (peek name) "!"%char
    then set_error_msg "Shell access restricted" ;; fail
    else if bool_decide (cstring name = [("."%char); ("."%char)]) || has_slash name
    then set_error_msg "Directory access restricted" ;; fail
    else ret tt
  else ret tt.

(** ** io.c: printing lines *)

Definition unterminated_last_line : M bool :=
  u <- gets (fun s => unterminated_line (io s)) ;;
  if bool_decide (u ≠ NULL) then
    last <- last_addr ;;
    lp <- search_line_node last ;;
    ret (bool_decide (u = lp))
  else ret false.

(** [escchars[strchr( escapes, ch ) - escapes]] for the characters of
    ["\a\b\f\n\r\t\v"]. *)
Definition escape_letter (c : ascii) : option ascii :=
  let n := code c in
  if n =? 7 then Some "a"%char
  else if n =? 8 then Some "b"%char
  else if n =? 12 then Some "f"%char
  else if n =? 10 then Some "n"%char
  else if n =? 13 then Some "r"%char
  else if n =? 9 then Some "t"%char
  else if n =? 11 then Some "v"%char
  else None.

(** The three octal digits of a character. *)
Definition octal (c : ascii) : list ascii :=
  [ch (Z.land (Z.shiftr (code c) 6) 7 + 48);
   ch (Z.land (Z.shiftr (code c) 3) 7 + 48);
   ch (Z.land (code c) 7 + 48)].

(** The loop of [print_line] over the text, at the column [col]. *)
Fixpoint print_chars (text : list ascii) (list_ : bool) (cols col : Z) : list ascii :=
  match text with
  | [] => []
  | c :: rest =>
      if negb list_ then c :: print_chars rest list_ cols col
      else
        let wrap := col + 1 >? cols in
        let col1 := if wrap then 1 else col + 1 in
        let pre := if wrap then ["\"%char; NL] else [] in
        if (32 <=? code c) && (code c <=? 126) then
          if char_eqb c "$"%char || char_eqb c "\"%char
          then pre ++ ["\"%char; c] ++ print_chars rest list_ cols (col1 + 1)
          else pre ++ [c] ++ print_chars rest list_ cols col1
        else
          match escape_letter c with
          | Some e => pre ++ ["\"%char; e] ++ print_chars rest list_ cols (col1 + 1)
          | None => pre ++ ["\"%char] ++ octal c ++ print_chars rest list_ cols (col1 + 3)
          end
  end.

(** print text to stdout *)
Definition print_line (p : list ascii) (len pflags : Z) : M unit :=
  lg <- gets (fun s => lang (io s)) ;;
  hl <- highlight p len (repeat NUL 1000) lg ;;
  let text := take (Z.to_nat (snd hl)) (fst hl) in
  cur <- current_addr ;;
  cols <- window_columns ;;
  trad <- traditional ;;
  put_string ((if has_flag pflags pf_n then show_int cur ++ [TAB] else [])
              ++ print_chars text (has_flag pflags pf_l) cols
                   (if has_flag pflags pf_n then 8 else 0)
              ++ (if negb trad && has_flag pflags pf_l then ["$"%char] else [])
              ++ [NL]).

(** The loop of [print_lines], from the node [bp] at the address [from] to
    the node [ep]. *)
Fixpoint print_loop (fuel : nat) (bp ep : ptr) (from pflags : Z) : M unit :=
  match fuel with
  | O => fail
  | S fuel' =>
      if bool_decide (bp = ep) then ret tt
      else
        s <- get_sbuf_line bp ;;
        set_current_addr from ;;
        l <- gets (fun st => len (heap (buf st) bp)) ;;
        print_line s l pflags ;;
        bp' <- forw bp ;;
        print_loop fuel' bp' ep (from + 1) pflags
  end.

(** print a range of lines to stdout.  The walk from [from] to the line
    after [to] passes no more than all the lines of the buffer. *)
Definition print_lines (from to pflags : Z) : M unit :=
  a <- inc_addr to ;;
  ep <- search_line_node a ;;
  bp <- search_line_node from ;;
  if from =? 0 then invalid_address ;; fail
  else
    last <- last_addr ;;
    print_loop (S (Z.to_nat (last + 1))) bp ep from pflags.

(** ** io.c: extended lines *)

(** [while( --len >= 0 && s[len] == '\\' ) odd_escape = !odd_escape;] over
    the text [s] of length [len], from its end. *)
Fixpoint trailing_escape_rev (rs : list ascii) : bool :=
  match rs with
  | [] => false
  | c :: rest => if char_eqb c "\"%char then negb (trailing_escape_rev rest) else false
  end.

(** return the parity of escapes at the end of a string *)
Definition trailing_escape (s : list ascii) : bool := trailing_escape_rev (rev s).

(** [--len; buf[len-1] = '\n'; if( strip_escaped_newlines ) --len;] on the
    buffer holding [buf], which ends with an escaped newline. *)
Definition strip_trailing_escape (buf_ : list ascii) (strip_escaped_newlines : bool)
  : list ascii :=
  let body := take (length buf_ - 2) buf_ in
  if strip_escaped_newlines then body else body ++ [NL].

(** The loop of [get_extended_line]: [buf_] holds the [len] characters
    gathered so far. *)
Fixpoint extend_loop (fuel : nat) (buf_ : list ascii) (strip_escaped_newlines : bool)
  : M (list ascii) :=
  match fuel with
  | O => fail
  | S fuel' =>
      s <- get_stdin_line ;;                       (* no result: error *)
      let len := Z.of_nat (length buf_) in
      let len2 := Z.of_nat (length s) in
      if len2 <=? 0 then fail                      (* EOF *)
      else
        resize_buffer buf_extended (to_unsigned (len + len2 + 1)) ;;
        let buf1 := buf_ ++ s in
        if (len2 <? 2) || negb (trailing_escape (removelast buf1)) then ret buf1
        else extend_loop fuel' (strip_trailing_escape buf1 strip_escaped_newlines)
                         strip_escaped_newlines
  end.

(** If the command buffer contains an escaped newline, get an extended
    line (one with escaped newlines) from stdin.  The backslashes escaping
    the newlines are stripped.  The result is the command buffer to go on
    with and the line length, the trailing newline included. *)
Definition get_extended_line (ibuf : list ascii) (strip_escaped_newlines : bool)
  : M (list ascii * Z) :=
  match list_find (fun c => c = NL) ibuf with
  | None => fail                   (* the scan leaves the command buffer *)
  | Some (i, _) =>
      let len := Z.of_nat (S i) in
      if (len <? 2) || negb (trailing_escape (take i ibuf)) then ret (ibuf, len)
      else
        resize_buffer buf_extended (to_unsigned (len + 1)) ;;
        input <- gets (fun s => stdin_ (libc s)) ;;
        buf_ <- extend_loop (S (length input))
                  (strip_trailing_escape (take (S i) ibuf) strip_escaped_newlines)
                  strip_escaped_newlines ;;
        ret (buf_, Z.of_nat (length buf_))
  end.

(** ** io.c: reading and writing files *)

(** The loop of [read_stream_line] over the unread part [input] of the
    stream, with the characters [line] already in the buffer.  The result
    is the buffer and whether the end of the stream was met. *)
Fixpoint read_line_loop (input line : list ascii) : M (list ascii * bool) :=
  let i := Z.of_nat (length line) in
  match input with
  | [] =>
      resize_buffer buf_stream (to_unsigned (i + 2)) ;;
      ret (line, true)                              (* c == EOF *)
  | c :: rest =>
      resize_buffer buf_stream (to_unsigned (i + 2)) ;;
      modify (on_libc (with_fin rest)) ;;
      if char_eqb c NUL then set_binary ;; read_line_loop rest (line ++ [c])
      else if char_eqb c NL then
        (* remove CR only from CR/LF pairs *)
        cr <- strip_cr ;;
        if cr && (i + 1 >? 1) && char_eqb (last line NUL) CR
        then ret (removelast line ++ [c], false)
        else ret (line ++ [c], false)
      else read_line_loop rest (line ++ [c])
  end.

(** Read a line of text from a stream.  The result is the buffer, the line
    size (including the trailing newline if it exists and is not added
    now), and whether a newline has been added, now or before. *)
Definition read_stream_line (newline_added : bool) : M (list ascii * Z * bool) :=
  input <- gets (fun s => fin (libc s)) ;;
  r <- read_line_loop input [] ;;
  let '(line, eof) := r in
  let i := Z.of_nat (length line) in
  if (eof : bool) then
    ok <- libc_call ;;                              (* !ferror( fp ) *)
    if negb ok then show_strerror ;; set_error_msg "Cannot read input file" ;; fail
    else if negb (i =? 0) then
      bin <- isbinary ;;
      ret (line ++ [NL], (if bin then i else i + 1), true)
    else ret (line, i, newline_added)
  else ret (line, i, newline_added).

(** The loop of [read_stream]: [lp] is the node read last, [up] the undo
    atom of the lines read so far. *)
Fixpoint read_stream_loop (fuel : nat) (lp : ptr) (up : option nat) (total_size : Z)
    (newline_added : bool) : M (Z * bool) :=
  match fuel with
  | O => fail
  | S fuel' =>
      r <- read_stream_line newline_added ;;
      let '(s, size, newline_added) := r in
      if size <=? 0 then ret (total_size, newline_added)
      else
        disable_interrupts ;;
        put <- attempt (put_sbuf_line s (size + (if (newline_added : bool) then 1 else 0))) ;;
        match put with
        | None => enable_interrupts ;; fail
        | Some _ =>
            lp' <- forw lp ;;
            up' <- (match up with
                    | Some u => set_atom_tail u lp' ;; ret (Some u)
                    | None =>
                        cur <- current_addr ;;
                        pushed <- attempt (push_undo_atom UADD cur cur) ;;
                        match pushed with
                        | None => enable_interrupts ;; fail
                        | Some u => ret (Some u)
                        end
                    end) ;;
            enable_interrupts ;;
            read_stream_loop fuel' lp' up' (total_size + size) newline_added
        end
  end.

(** read a stream into the editor buffer; the result is the total size of
    data read, and there is none if error.  Every round but the last takes
    a character off the stream. *)
Definition read_stream (addr : Z) : M Z :=
  lp <- search_line_node addr ;;
  o_isbinary <- isbinary ;;
  last <- last_addr ;;
  let appended := addr =? last in
  o_unterminated_last_line <- unterminated_last_line ;;
  set_current_addr addr ;;
  input <- gets (fun s => fin (libc s)) ;;
  r <- read_stream_loop (S (length input)) lp None 0 false ;;
  let '(total_size, newline_added) := r in
  bin <- isbinary ;;
  (if negb (addr =? 0) && appended && negb (total_size =? 0) && o_unterminated_last_line
   then put_string (String.list_ascii_of_string "Newline inserted" ++ [NL])   (* before stream *)
   else if newline_added && (negb appended || negb bin)
   then put_string (String.list_ascii_of_string "Newline appended" ++ [NL])   (* after stream *)
   else ret tt) ;;
  let total_size :=
    if negb appended && bin && negb o_isbinary && newline_added
    then total_size + 1 else total_size in
  (if appended && bin && (newline_added || (total_size =? 0)) then
     last <- last_addr ;;
     lp <- search_line_node last ;;
     modify (on_io (with_unterminated_line lp))
   else ret tt) ;;
  ret total_size.

(** Read a named file/pipe into the buffer.  The result is the line count;
    there is none where the C function returns -1 (file not found) or -2
    (fatal error). *)
Definition read_file (filename : list ascii) (addr : Z) : M Z :=
  let pipe := char_eqb (peek filename) "!"%char in
  name <- (if pipe then ret (tl filename) else strip_escapes filename) ;;
  opened <- gets (fun s => fs_read (libc s) pipe name) ;;
  match opened with
  | None => show_strerror ;; set_error_msg "Cannot open input file" ;; fail
  | Some contents =>
      modify (on_libc (with_fin contents)) ;;
      size <- attempt (read_stream addr) ;;
      ok <- libc_call ;;                            (* pclose( fp ) or fclose( fp ) *)
      match size with
      | None => fail
      | Some size =>
          if negb ok then show_strerror ;; set_error_msg "Cannot close input file" ;; fail
          else
            sc <- scripted ;;
            (if negb sc then put_string (show_int size ++ [NL]) else ret tt) ;;
            cur <- current_addr ;;
            ret (cur - addr)
      end
  end.

(** [fputc( c, fp )] for each character of [text]. *)
Fixpoint write_chars (text : list ascii) : M unit :=
  match text with
  | [] => ret tt
  | c :: rest =>
      ok <- libc_call ;;                            (* fputc( *p++, fp ) != EOF *)
      if negb ok then show_strerror ;; set_error_msg "Cannot write file" ;; fail
      else
        modify (on_libc (fun l => with_fout (fout l ++ [c]) l)) ;;
        write_chars rest
  end.

(** The loop of [write_stream]: [while( from && from <= to )], which ends
    after [to - from + 1] rounds. *)
Fixpoint write_stream_loop (n : nat) (lp : ptr) (from to size : Z) : M Z :=
  match n with
  | O => ret size
  | S n' =>
      if negb (from =? 0) && (from <=? to) then
        p <- get_sbuf_line lp ;;
        len <- gets (fun s => len (heap (buf s) lp)) ;;
        last <- last_addr ;;
        newline <-
          (if negb (from =? last) then ret true
           else
             bin <- isbinary ;;
             if negb bin then ret true
             else
               unterminated <- unterminated_last_line ;;
               ret (negb unterminated)) ;;
        (* if( ... ) p[len++] = '\n'; size += len; *)
        let text := take (Z.to_nat len) p ++ (if (newline : bool) then [NL] else []) in
        let len := if (newline : bool) then len + 1 else len in
        write_chars text ;;
        lp' <- forw lp ;;
        write_stream_loop n' lp' (from + 1) to (size + len)
      else ret size
  end.

(** write a range of lines to a stream; the result is the size written *)
Definition write_stream (from to : Z) : M Z :=
  lp <- search_line_node from ;;
  write_stream_loop (Z.to_nat (to - from + 1)) lp from to 0.

(** write a range of lines to a named file/pipe; the result is the line
    count *)
Definition write_file (filename mode : list ascii) (from to : Z) : M Z :=
  let pipe := char_eqb (peek filename) "!"%char in
  name <- (if pipe then ret (tl filename) else strip_escapes filename) ;;
  opened <- libc_call ;;                            (* popen or fopen *)
  if negb opened then show_strerror ;; set_error_msg "Cannot open output file" ;; fail
  else
    modify (on_libc (with_fout [])) ;;
    size <- attempt (write_stream from to) ;;
    modify (on_libc (fun l => with_fs_log (fs_log l ++ [(filename, mode, fout l)]) l)) ;;
    ok <- libc_call ;;                              (* pclose( fp ) or fclose( fp ) *)
    match size with
    | None => fail
    | Some size =>
        if negb ok then show_strerror ;; set_error_msg "Cannot close output file" ;; fail
        else
          sc <- scripted ;;
          (if negb sc then put_string (show_int size ++ [NL]) else ret tt) ;;
          ret (if negb (from =? 0) && (from <=? to) then to - from + 1 else 0)
    end.
(** ** The state the program starts in *)

(** The static variables as their initializers leave them; [w] is the
    environment the program runs in. *)
Definition initial (w : libc_t) : ed :=
  Ed w
     (Signal 0 22 72)
     (Main false false false false false)
     (Buffer 0 0 false false false None 0 0 (fun _ => Line NULL NULL 0 0)
             buffer_head 0 [] false 0 (-1) (-1) false)
     (Global [] false 0 0 0)
     (Io NULL 0 "cpp.lang")
     (RegexState None None (fun _ => None) None 0)
     (MainLoop [] "" ["*"%char] 0 0 false false (fun _ => NULL) 0
               0 pf_p 1 [])
     (Sh [] [])
     (fun _ => 0).

(** An environment in which no library call fails: the standard input is
    [input], every pattern compiles, no line matches, the highlighter
    returns its input as it is, and there is no file to read. *)
Definition plain_libc (input : list ascii) : libc_t :=
  Libc (fun _ => true) 0 3%nat input []
       (fun _ _ => (0, 0)) (fun _ => "regex error"%string) (fun _ _ _ => None)
       (fun text _ => text)
       (fun _ _ => None) (fun _ => 0) 4096 [] [] [].

(** The result and the final state of a computation. *)
Definition result {A} (r : option A * ed) : option A := fst r.
Definition state_of {A} (r : option A * ed) : ed := snd r.

(** The editor after [init_buffers], reading [input]. *)
Definition boot (input : list ascii) : ed :=
  state_of (init_buffers (initial (plain_libc input))).

(** ** The line sequence and the undo frame, read off the state *)

(** The line sequence: the nodes at the addresses 1 ... [last_addr_], as the
    forward links from the list head give them. *)
Definition line_nodes (b : buffer_t) : list ptr :=
  map (fun k => walk_forw (heap b) k buffer_head) (seq 1 (Z.to_nat (last_addr_ b))).

(** The same with the text each node stands for: its position and length
    in the scratch file. *)
Definition line_sequence (b : buffer_t) : list (ptr * Z * Z) :=
  map (fun p => (p, pos (heap b p), len (heap b p))) (line_nodes b).

(** What the first loop of [undo] does to the links for one atom:
    for [UADD] the range from the head to the tail of the atom is unlinked, *)
Definition unlink_range (a : undo_t) (h : ptr -> line_t) : ptr -> line_t :=
  link_heap (q_back (h (u_head a))) (q_forw (h (u_tail a))) h.

(** for [UDEL] it is linked in again where it was, *)
Definition relink_range (a : undo_t) (h : ptr -> line_t) : ptr -> line_t :=
  let h1 := link_heap (q_back (h (u_head a))) (u_head a) h in
  link_heap (u_tail a) (q_forw (h1 (u_tail a))) h1.

(** and for a pair of [UMOV] atoms, [lo] below [hi] on the stack, the range
    that follows the head of [hi] goes back after the head of [lo]. *)
Definition move_back (lo hi : undo_t) (h : ptr -> line_t) : ptr -> line_t :=
  let h1 := link_heap (u_head lo) (q_forw (h (u_head hi))) h in
  let h2 := link_heap (q_back (h1 (u_tail hi))) (u_tail lo) h1 in
  link_heap (u_head hi) (u_tail hi) h2.

Definition is_mov (a : undo_t) : Prop := u_type a = UMOV \/ u_type a = VMOV.

(** The atom describes an edit that is in effect in the heap [h].
    [UADD]: the range is linked in, its neighbours point at its ends, and
    it is not the whole ring. *)
Definition added_in (h : ptr -> line_t) (a : undo_t) : Prop :=
  let p := q_back (h (u_head a)) in
  let n := q_forw (h (u_tail a)) in
  q_forw (h p) = u_head a /\ q_back (h n) = u_tail a /\ u_tail a <> p.

(** [UDEL]: the range is linked out, the nodes its ends still point at are
    neighbours, and they are not in the range. *)
Definition deleted_from (h : ptr -> line_t) (a : undo_t) : Prop :=
  let p := q_back (h (u_head a)) in
  let n := q_forw (h (u_tail a)) in
  q_forw (h p) = n /\ q_back (h n) = p /\ u_tail a <> p /\ u_head a <> n.

(** A pair of [UMOV] atoms: [lo] holds the two nodes the range was taken
    from between, now neighbours; [hi] holds the two nodes it was put
    between, which now point at its ends. *)
Definition moved_in (h : ptr -> line_t) (lo hi : undo_t) : Prop :=
  let f := q_forw (h (u_head hi)) in
  let s := q_back (h (u_tail hi)) in
  q_back (h f) = u_head hi /\ q_forw (h s) = u_tail hi /\
  q_forw (h (u_head lo)) = u_tail lo /\ q_back (h (u_tail lo)) = u_head lo /\
  u_head lo <> u_head hi /\ u_head lo <> s /\ u_head hi <> s /\
  u_tail lo <> f /\ u_tail lo <> u_tail hi /\ u_tail hi <> f.

(** A committed undo frame: the atoms, from the top of the stack down, each
    describe an edit in effect once the edits above it are undone. *)
Fixpoint frame_ok (h : ptr -> line_t) (atoms : list undo_t) : Prop :=
  match atoms with
  | [] => True
  | a :: rest =>
      (u_type a = UADD /\ added_in h a /\ frame_ok (unlink_range a h) rest) \/
      (u_type a = UDEL /\ deleted_from h a /\ frame_ok (relink_range a h) rest) \/
      (is_mov a /\
       match rest with
       | [] => False
       | b :: rest' => is_mov b /\ moved_in h b a /\ frame_ok (move_back b a h) rest'
       end)
  end.

(** Two heaps hold the same nodes. *)
Definition heap_eq (h h' : ptr -> line_t) : Prop := forall p, h p = h' p.

(** The first loop of [undo] as a function of the atoms, from the top of
    the stack down, and of the heap: the result is the heap, and the atoms
    as the loop leaves them.  A [UMOV] atom takes the atom below it along;
    the type of that one is the one toggled. *)
Fixpoint undo_atoms (atoms : list undo_t) (h : ptr -> line_t)
  : (ptr -> line_t) * list undo_t :=
  match atoms with
  | [] => (h, [])
  | a :: rest =>
      if u_type a =? UADD then
        let '(h', r) := undo_atoms rest (unlink_range a h) in (h', toggle_type a :: r)
      else if u_type a =? UDEL then
        let '(h', r) := undo_atoms rest (relink_range a h) in (h', toggle_type a :: r)
      else if (u_type a =? UMOV) || (u_type a =? VMOV) then
        match rest with
        | b :: rest' =>
            let '(h', r) := undo_atoms rest' (move_back b a h) in
            (h', a :: toggle_type b :: r)
        | [] => (move_back inhabitant a h, [a])
        end
      else
        let '(h', r) := undo_atoms rest h in (h', toggle_type a :: r)
  end.

(** ** Sample sessions *)

(** The characters of a string, and lines of text as the terminal delivers
    them, each with its newline. *)
Definition chars (s : string) : list ascii := String.list_ascii_of_string s.

Definition lines_of (ls : list string) : list ascii :=
  concat (map (fun l => chars l ++ [NL]) ls).

(** The state a computation leaves, whether it failed or not. *)
Definition after {A} (c : M A) (s : ed) : ed := state_of (c s).

(** The buffer holds the five lines [a] ... [e], typed in after the command
    [a]; the undo frame of that command is closed. *)
Definition five_lines : ed :=
  after clear_undo_stack
    (after (append_lines [] 0 false false)
       (boot (lines_of ["a"; "b"; "c"; "d"; "e"; "."]%string))).

(** After that, in one frame: line 2 is deleted, what are now the lines 3
    to 4 are moved to the top, and the line [f] is appended after line 1. *)
Definition five_lines_edited : ed :=
  after (append_lines (lines_of ["f"; "."]%string) 1 false true)
    (after (move_lines 3 4 0 true)
       (after (delete_lines 2 2 true) five_lines)).

(** ** The ring of line nodes *)

(** From [p], the forward links pass through the nodes [L] and reach [q],
    and the backward links go the same way back. *)
Fixpoint chain (h : ptr -> line_t) (p : ptr) (L : list ptr) (q : ptr) : Prop :=
  match L with
  | [] => q_forw (h p) = q /\ q_back (h q) = p
  | x :: L' => q_forw (h p) = x /\ q_back (h x) = p /\ chain h x L' q
  end.

(** The node at the address [addr] when the lines are [L]; address 0 is
    the list head. *)
Definition node_at (L : list ptr) (addr : Z) : ptr :=
  (buffer_head :: L) !!! Z.to_nat addr.

(** The lines at the addresses [from] ... [to] of [L], and what is left of
    [L] without them. *)
Definition lines_between (L : list ptr) (from to : Z) : list ptr :=
  take (Z.to_nat (to - from + 1)) (drop (Z.to_nat (from - 1)) L).

Definition lines_without (L : list ptr) (from to : Z) : list ptr :=
  take (Z.to_nat (from - 1)) L ++ drop (Z.to_nat to) L.

(** The text a node stands for. *)
Definition text_of (h : ptr -> line_t) (p : ptr) : Z * Z := (pos (h p), len (h p)).

(** The invariant of the line buffer: the lines [L] and the yanked lines
    [Y] each form a ring with their list head, no node is in both or twice
    in one, [last_addr_] counts the lines, the node cached by
    [search_line_node] is the one at the cached address, and every node is
    a non-null pointer the allocator has handed out. *)
Record buffer_ok (s : ed) (L Y : list ptr) : Prop := Buffer_ok {
  ok_ring : chain (heap (buf s)) buffer_head L buffer_head;
  ok_yank : chain (heap (buf s)) yank_buffer_head Y yank_buffer_head;
  ok_nodup : NoDup (buffer_head :: yank_buffer_head :: L ++ Y);
  ok_last : last_addr_ (buf s) = Z.of_nat (length L);
  ok_cache_addr : 0 <= s_o_addr (buf s) <= last_addr_ (buf s);
  ok_cache_node : s_lp (buf s) = node_at L (s_o_addr (buf s));
  ok_brk : Forall (fun p => (NULL < p < brk (libc s))%nat)
                  (buffer_head :: yank_buffer_head :: L ++ Y)
}.

(** ** Notions the proofs use *)

(** The state with another heap and another undo stack. *)
Definition with_links (h : ptr -> line_t) (st : list undo_t) (s : ed) : ed :=
  on_buf (fun b => with_heap h (with_ustack st b)) s.

(** The nodes of a chain, both ends included. *)
Definition chain_nodes (p : ptr) (L : list ptr) (q : ptr) : list ptr := p :: L ++ [q].

(** What [search_line_node] leaves: the cache holds the node found. *)
Definition cached (lp : ptr) (addr : Z) (s : ed) : ed :=
  on_sig (fun g => with_mutex (if mutex g + 1 - 1 <=? 0 then 0 else mutex g + 1 - 1) g)
    (on_buf (fun b => with_s_lp lp (with_s_o_addr addr b)) s).


(** The state with another heap. *)
Definition with_nodes (h : ptr -> line_t) (s : ed) : ed := on_buf (with_heap h) s.

(** The nodes [S] are those passed on the way from [bp] to [ep] along the
    forward links. *)
Fixpoint path (h : ptr -> line_t) (bp : ptr) (S : list ptr) (ep : ptr) : Prop :=
  match S with
  | [] => bp = ep
  | x :: S' => bp = x /\ path h (q_forw (h x)) S' ep
  end.

(** [s'] differs from [s] in the buffer only by the nodes and the cache of
    [search_line_node]; the allocator has not gone back and the library
    behaves as before. *)
Definition same_but_nodes (s s' : ed) : Prop :=
  buf s' = with_heap (heap (buf s'))
             (with_s_lp (s_lp (buf s')) (with_s_o_addr (s_o_addr (buf s')) (buf s))) /\
  env_ok (libc s') = env_ok (libc s) /\
  (brk (libc s) <= brk (libc s'))%nat /\
  (env_tick (libc s) <= env_tick (libc s'))%nat.

(** Some library call from the state [s] on fails. *)
Definition some_call_fails (s : ed) : Prop :=
  exists n, (env_tick (libc s) <= n)%nat /\ env_ok (libc s) n = false.

(** The heap after [dup_line_node lp] has put the copy at [p], and after
    [insert_node] has then put the copy behind [prev]. *)
Definition copied (p lp : ptr) (h : ptr -> line_t) : ptr -> line_t :=
  <[p := Line (q_forw (h p)) (q_back (h p)) (pos (h lp)) (len (h lp))]> h.

Definition inserted (p prev : ptr) (h : ptr -> line_t) : ptr -> line_t :=
  link_heap prev p (link_heap p (q_forw (h prev)) h).

(** The state after one more successful allocation, with the heap [h]. *)
Definition allocated (h : ptr -> line_t) (s : ed) : ed :=
  with_nodes h
    (on_libc (fun l => with_brk (S (brk l)) (with_env_tick (S (env_tick l)) l)) s).

(** The interrupt counter after [disable_interrupts; enable_interrupts]. *)
Definition settled (s : ed) : ed :=
  on_sig (fun g => with_mutex (if mutex g + 1 - 1 <=? 0 then 0 else mutex g + 1 - 1) g) s.

(** [c] leaves what [view] shows of the state as it is, whether it fails
    or not. *)
Definition frame {V A} (view : ed -> V) (c : M A) : Prop :=
  forall s, view (snd (c s)) = view s.

(** The lines, their text and what decides how they are written. *)
Definition text_view (s : ed) :=
  (heap (buf s), last_addr_ (buf s), isbinary_ (buf s), sfp (buf s),
   unterminated_line (io s), brk (libc s)).

(** The cache of [search_line_node]. *)
Definition cache_view (s : ed) := (s_lp (buf s), s_o_addr (buf s)).

(** The stream being written. *)
Definition out_view (s : ed) := fout (libc s).

(** The position in the scratch file: the one the editor keeps, and the
    one of the stream. *)
Definition pos_view (s : ed) := (sfpos (buf s), sf_off (buf s)).

(** The text of a line in the scratch file. *)
Definition line_text (s : ed) (lp : ptr) : list ascii :=
  take (Z.to_nat (len (heap (buf s) lp)))
       (drop (Z.to_nat (pos (heap (buf s) lp))) (default [] (sfp (buf s)))).

(** The addresses [from] ... [to]. *)
Definition addresses (from to : Z) : list Z :=
  map (fun i => from + Z.of_nat i) (seq 0 (Z.to_nat (to - from + 1))).

(** What writing the line at the address [k] of the lines [L] is to put in
    the file: the text of the line and a newline, but for the last line of
    a binary buffer marked as unterminated. *)
Definition written_line (s : ed) (L : list ptr) (k : Z) : list ascii :=
  line_text s (node_at L k) ++
  (if (k =? last_addr_ (buf s)) && isbinary_ (buf s)
      && bool_decide (unterminated_line (io s) ≠ NULL)
      && bool_decide (unterminated_line (io s) = node_at L (last_addr_ (buf s)))
   then [] else [NL]).

Definition written_lines (s : ed) (L : list ptr) (from to : Z) : list ascii :=
  concat (map (written_line s L) (addresses from to)).

(** An environment like [plain_libc] in which the file [name] holds
    [contents]. *)
Definition libc_with_file (name contents : list ascii) : libc_t :=
  Libc (fun _ => true) 0 3%nat [] []
       (fun _ _ => (0, 0)) (fun _ => "regex error"%string) (fun _ _ _ => None)
       (fun text _ => text)
       (fun pipe n => if negb pipe && bool_decide (n = name) then Some contents else None)
       (fun _ => 0) 4096 [] [] [].

(** The buffer after reading a file of two lines, the second of which
    holds a NUL and has no newline at its end. *)
Definition binary_file : ed :=
  after (read_file (chars "f") 0)
    (after init_buffers
       (initial (libc_with_file (chars "f") (chars "ab" ++ [NL] ++ chars "c" ++ [NUL] ++ chars "d")))).

(** * Theorems *)

(** ** Running a computation *)

(** Normal form of a state that is a chain of field updates. *)
Ltac norm_state :=
  cbv beta iota delta
    [env_ok env_tick with_env_tick brk with_brk stdin_ with_stdin_ stdout_
     with_stdout_ regcomp_ regerror_ regexec_ srchilite_ fs_read system_
     path_max_ fin with_fin fout with_fout fs_log with_fs_log mutex with_mutex
     window_lines_ with_window_lines_ window_columns_ with_window_columns_
     extended_regexp_ restricted_ scripted_ strip_cr_ traditional_
     current_addr_ with_current_addr_ last_addr_ with_last_addr_ isbinary_
     with_isbinary_ modified_ with_modified_ seek_write with_seek_write sfp
     with_sfp sfpos with_sfpos sf_off with_sf_off heap with_heap s_lp with_s_lp
     s_o_addr with_s_o_addr ustack with_ustack ustack_alloc with_ustack_alloc
     usize with_usize u_current_addr with_u_current_addr u_last_addr
     with_u_last_addr u_modified with_u_modified active_list with_active_list
     active_alloc with_active_alloc active_size with_active_size active_idx
     with_active_idx active_idxm with_active_idxm unterminated_line
     with_unterminated_line linenum_ with_linenum_ lang with_lang last_regexp
     with_last_regexp subst_regexp with_subst_regexp store with_store rbuf
     with_rbuf rbufsz with_rbufsz def_filename with_def_filename errmsg
     with_errmsg prompt_str with_prompt_str first_addr with_first_addr
     second_addr with_second_addr prompt_on with_prompt_on verbose with_verbose
     mark with_mark markno with_markno s_pflags with_s_pflags s_pmask
     with_s_pmask s_snum with_s_snum shcmd with_shcmd ips with_ips ops with_ops
     libc on_libc sig on_sig mn on_mn buf on_buf gl on_gl io on_io re on_re ml
     on_ml sh on_sh bufsz on_bufsz].
Ltac norm_state_in H :=
  cbv beta iota delta
    [env_ok env_tick with_env_tick brk with_brk stdin_ with_stdin_ stdout_
     with_stdout_ regcomp_ regerror_ regexec_ srchilite_ fs_read system_
     path_max_ fin with_fin fout with_fout fs_log with_fs_log mutex with_mutex
     window_lines_ with_window_lines_ window_columns_ with_window_columns_
     extended_regexp_ restricted_ scripted_ strip_cr_ traditional_
     current_addr_ with_current_addr_ last_addr_ with_last_addr_ isbinary_
     with_isbinary_ modified_ with_modified_ seek_write with_seek_write sfp
     with_sfp sfpos with_sfpos sf_off with_sf_off heap with_heap s_lp with_s_lp
     s_o_addr with_s_o_addr ustack with_ustack ustack_alloc with_ustack_alloc
     usize with_usize u_current_addr with_u_current_addr u_last_addr
     with_u_last_addr u_modified with_u_modified active_list with_active_list
     active_alloc with_active_alloc active_size with_active_size active_idx
     with_active_idx active_idxm with_active_idxm unterminated_line
     with_unterminated_line linenum_ with_linenum_ lang with_lang last_regexp
     with_last_regexp subst_regexp with_subst_regexp store with_store rbuf
     with_rbuf rbufsz with_rbufsz def_filename with_def_filename errmsg
     with_errmsg prompt_str with_prompt_str first_addr with_first_addr
     second_addr with_second_addr prompt_on with_prompt_on verbose with_verbose
     mark with_mark markno with_markno s_pflags with_s_pflags s_pmask
     with_s_pmask s_snum with_s_snum shcmd with_shcmd ips with_ips ops with_ops
     libc on_libc sig on_sig mn on_mn buf on_buf gl on_gl io on_io re on_re ml
     on_ml sh on_sh bufsz on_bufsz] in H.

(** Every component of the editor state, named. *)
Ltac destruct_state s :=
  let lc := fresh "lc" in let sg := fresh "sg" in let m := fresh "m" in
  let b := fresh "b" in let g := fresh "g" in let i := fresh "i" in
  let r := fresh "r" in let l := fresh "l" in let h := fresh "h" in
  let z := fresh "z" in
  destruct s as [lc sg m b g i r l h z]; destruct b; destruct sg.

Lemma bind_run {A B} (c : M A) (k : A -> M B) (s s1 : ed) (a : A) :
  c s = (Some a, s1) -> bind c k s = k a s1.
Proof. intros H. unfold bind. by rewrite H. Qed.

Lemma bind_fail {A B} (c : M A) (k : A -> M B) (s s1 : ed) :
  c s = (None, s1) -> bind c k s = (None, s1).
Proof. intros H. unfold bind. by rewrite H. Qed.

(** A run is known by its result and the state it leaves. *)
Lemma run_of_result {A} (X : option A * ed) (a : A) :
  fst X = Some a -> X = (Some a, state_of X).
Proof. destruct X as [r s]. cbn. by intros ->. Qed.



(** ** signal.c *)





(** C9 (as the source has it).  A window-size change reporting [r] rows and
    [c] columns sets the scroll lines to [r - 2] when [2 < r < 600] and the
    list columns to [c - 8] when [8 < c < 1800]; a value outside its range is
    ignored and the setting stays as it was.  So the scroll lines and the
    list columns stay at least 1 once they are, whatever the window reports,
    and a window of fewer than 3 rows changes nothing about the scroll
    lines. *)
Theorem sigwinch_handler_spec (r c : Z) (s : ed) :
  let s' := state_of (sigwinch_handler (Some (r, c)) s) in
  window_lines_ (sig s') =
    (if (2 <? r) && (r <? 600) then r - 2 else window_lines_ (sig s)) /\
  window_columns_ (sig s') =
    (if (8 <? c) && (c <? 1800) then c - 8 else window_columns_ (sig s)) /\
  (r < 3 -> window_lines_ (sig s') = window_lines_ (sig s)) /\
  (1 <= window_lines_ (sig s) -> 1 <= window_lines_ (sig s') <= Z.max 597 (window_lines_ (sig s))) /\
  (1 <= window_columns_ (sig s) -> 1 <= window_columns_ (sig s') <= Z.max 1791 (window_columns_ (sig s))).
Proof.
  unfold sigwinch_handler, state_of, bind, modify, ret. simpl.
  rewrite !Z.gtb_ltb.
  destruct (Z.ltb_spec 2 r), (Z.ltb_spec r 600), (Z.ltb_spec 8 c), (Z.ltb_spec c 1800);
    simpl; repeat split; intros; lia.
Qed.

(** C9, counterexample: a window of 600 rows (and one of 1800 columns) is
    ignored, so the scroll lines stay 22 and are not 598, and the columns
    stay 72 and are not 1792; a window of 3 rows sets the scroll lines to 1,
    which is below 2. *)
Lemma sigwinch_handler_out_of_range :
  window_lines_ (sig (state_of (sigwinch_handler (Some (600, 1800)) (initial (plain_libc []))))) = 22 /\
  window_columns_ (sig (state_of (sigwinch_handler (Some (600, 1800)) (initial (plain_libc []))))) = 72 /\
  window_lines_ (sig (state_of (sigwinch_handler (Some (3, 80)) (initial (plain_libc []))))) = 1.
Proof. repeat split; reflexivity. Qed.

(** ** sh.cpp *)

Lemma store_char_in_range (out : list ascii) (i : Z) (c : ascii) :
  0 <= i < Z.of_nat (length out) ->
  store_char out i c = Some (<[Z.to_nat i := c]> out).
Proof.
  intros H. unfold store_char.
  destruct (Z.leb_spec 0 i); [|lia]. destruct (Z.ltb_spec i (Z.of_nat (length out))); [|lia].
  reflexivity.
Qed.

(** The copy loop stores the first characters of [avail] from index
    [bytesWritten] on, stops at index 999, and touches nothing else. *)
Lemma highlight_copy_spec (avail out : list ascii) (k : nat) :
  (k <= 999)%nat -> (1000 <= length out)%nat ->
  exists rest,
    highlight_copy avail out (Z.of_nat k) =
      Some (take k out ++ take (999 - k) avail ++ drop (min 999 (k + length avail)) out,
            Z.of_nat (min 999 (k + length avail)), rest).
Proof.
  revert out k. induction avail as [|c avail IH]; intros out k Hk Hlen;
    cbn [highlight_copy length].
  - exists []. rewrite Nat.add_0_r, Nat.min_r by lia.
    rewrite take_nil, app_nil_l. by rewrite take_drop.
  - destruct (Z.ltb_spec (Z.of_nat k) 999) as [Hlt|Hge].
    + rewrite store_char_in_range by lia. rewrite Nat2Z.id.
      replace (Z.of_nat k + 1) with (Z.of_nat (S k)) by lia.
      destruct (IH (<[k := c]> out) (S k)) as [rest ->]; [lia|rewrite length_insert; lia|].
      exists rest. replace (k + S (length avail))%nat with (S k + length avail)%nat by lia.
      set (N := (999 `min` (S k + length avail))%nat).
      assert (HN : (k < N)%nat) by (subst N; lia).
      rewrite (take_S_r _ _ c) by (apply list_lookup_insert_eq; lia).
      rewrite take_insert_ge by lia. rewrite <- app_assoc.
      replace (999 - k)%nat with (S (999 - S k)) by lia. cbn [take app].
      rewrite drop_insert_lt by lia. reflexivity.
    + exists avail. assert (k = 999%nat) as -> by lia.
      rewrite Nat.min_l by lia. rewrite Nat.sub_diag. cbn [take app]. by rewrite take_drop.
Qed.

(** C10.  Whatever the line and the streams hold, [highlight] stays inside
    a buffer of 1000 bytes (or more): it stores [n <= 999] characters of the
    highlighted text at the indices below [n] and one NUL at index [n],
    leaves the rest of the buffer as it was, and reports [n] in [*nchar]. *)
Theorem highlight_within_buffer (input : list ascii) (len : Z) (out : list ascii)
    (lang_ : string) (s : ed) :
  (1000 <= length out)%nat ->
  let styled := ops (sh s) ++
                srchilite_ (libc s) (ips (sh s) ++ take (Z.to_nat len) input) lang_ in
  let n := min 999 (length styled) in
  result (highlight input len out lang_ s) =
    Some (take n styled ++ NUL :: drop (S n) out, Z.of_nat n) /\
  (n <= 999)%nat /\
  length (take n styled ++ NUL :: drop (S n) out) = length out.
Proof.
  intros Hlen styled n.
  unfold highlight, result, bind, modify, gets. simpl.
  fold styled.
  destruct (highlight_copy_spec styled out 0 ltac:(lia) Hlen) as [rest Hcopy].
  change (Z.of_nat 0) with 0 in Hcopy. rewrite Hcopy.
  change (0 + length styled)%nat with (length styled). fold n.
  change (999 - 0)%nat with 999%nat. change (take 0 out) with (@nil ascii).
  rewrite app_nil_l.
  assert (Hn : (n <= 999)%nat) by (subst n; lia).
  assert (Htake : length (take 999 styled) = n) by (rewrite length_take; subst n; lia).
  rewrite store_char_in_range by (rewrite length_app, length_drop, Htake; lia).
  rewrite Nat2Z.id. cbn [ret result fst]. split; [|split; [exact Hn|]].
  - f_equal. f_equal.
    rewrite insert_app_r_alt by lia. rewrite Htake, Nat.sub_diag.
    assert (Hd : (n < length out)%nat) by lia.
    destruct (drop n out) as [|x l] eqn:Hdrop.
    { apply (f_equal length) in Hdrop. rewrite length_drop in Hdrop. simpl in Hdrop. lia. }
    assert (Ht : take n styled = take 999 styled).
    { subst n. destruct (Nat.le_ge_cases 999 (length styled)).
      - by rewrite Nat.min_l.
      - rewrite Nat.min_r by lia. by rewrite !take_ge by lia. }
    rewrite Ht. f_equal. cbn [insert list_insert]. f_equal.
    replace (S n) with (n + 1)%nat by lia. rewrite <- drop_drop, Hdrop. reflexivity.
  - rewrite length_app, length_take. cbn [length]. rewrite length_drop. lia.
Qed.

Lemma highlight_within_buffer_witness :
  (1000 <= length (replicate 1000 NUL))%nat /\
  result (highlight ["i"; "n"; "t"]%char 3 (replicate 1000 NUL) "cpp.lang"
            (initial (plain_libc []))) =
    Some (["i"; "n"; "t"]%char ++ NUL :: drop 4 (replicate 1000 NUL), 3).
Proof.
  assert (H : (1000 <= length (replicate 1000 NUL))%nat) by (rewrite length_replicate; lia).
  split; [exact H|].
  exact (proj1 (highlight_within_buffer ["i"; "n"; "t"]%char 3 (replicate 1000 NUL)
                  "cpp.lang" (initial (plain_libc [])) H)).
Defined.

(** ** regex.c *)

(** Of three slots, two pointers leave one free: the slot tried by the loop
    is in the pool and is neither of the cached ones. *)
Lemma find_slot_free (last subst : option nat) :
  let exp := find_slot [0; 1; 2]%nat 0%nat last subst in
  (exp < 3)%nat /\ Some exp <> last /\ Some exp <> subst.
Proof.
  cbn [find_slot].
  repeat (case_bool_decide; cbn [andb]); repeat split; try lia; try congruence;
    destruct last as [[|[|[|?]]]|], subst as [[|[|[|?]]]|]; congruence.
Qed.

(** C7.  [compile_regex] compiles into a slot of the pool that is neither
    the cached search regex nor the cached substitution regex.  When the
    compilation fails, both cached pointers and the regexes they point to
    are as before.  When it succeeds, the new regex becomes the search
    regex, and the substitution regex and what it points to are as
    before. *)
Theorem compile_regex_keeps_cache (pat : list ascii) (ignore_case : bool) (s : ed) :
  let r := compile_regex pat ignore_case s in
  let s' := state_of r in
  let exp := find_slot [0; 1; 2]%nat 0%nat (last_regexp (re s)) (subst_regexp (re s)) in
  (exp < 3)%nat /\ Some exp <> last_regexp (re s) /\ Some exp <> subst_regexp (re s) /\
  match result r with
  | None =>
      fst (regcomp_ (libc s) pat
             (Z.lor (if extended_regexp_ (mn s) then REG_EXTENDED else 0)
                    (if ignore_case then REG_ICASE else 0))) <> 0 /\
      last_regexp (re s') = last_regexp (re s) /\
      subst_regexp (re s') = subst_regexp (re s) /\
      (forall i, last_regexp (re s) = Some i \/ subst_regexp (re s) = Some i ->
                 store (re s') i = store (re s) i)
  | Some e =>
      e = exp /\
      fst (regcomp_ (libc s) pat
             (Z.lor (if extended_regexp_ (mn s) then REG_EXTENDED else 0)
                    (if ignore_case then REG_ICASE else 0))) = 0 /\
      last_regexp (re s') = Some e /\
      (exists rx, store (re s') e = Some rx /\ re_pat rx = pat) /\
      subst_regexp (re s') = subst_regexp (re s) /\
      (forall i, subst_regexp (re s) = Some i -> store (re s') i = store (re s) i)
  end.
Proof.
  intros r s' exp.
  pose proof (find_slot_free (last_regexp (re s)) (subst_regexp (re s))) as Hfree.
  cbv zeta in Hfree. fold exp in Hfree. destruct Hfree as (Hlt & Hl & Hs).
  repeat (split; [assumption|]).
  subst r s'. unfold compile_regex, result, state_of, extended_regexp.
  repeat progress (unfold bind, gets, modify; cbn [fst snd]).
  fold exp. clearbody exp.
  destruct (regcomp_ (libc s) pat _) as [n nsub] eqn:Hcomp. cbn [fst].
  destruct (Z.eqb_spec n 0) as [->|Hn]; cbn [negb].
  - (* the pattern compiled *)
    destruct (last_regexp (re s)) as [l|] eqn:Hlast.
    + case_bool_decide as Hne; unfold regfree, modify, ret; cbn.
      * split_and!; auto.
        -- eexists. split;
             [rewrite fn_lookup_insert_ne by congruence; apply fn_lookup_insert|reflexivity].
        -- intros i Hi. rewrite fn_lookup_insert_ne by congruence.
           apply fn_lookup_insert_ne. congruence.
      * split_and!; auto.
        -- eexists. split; [apply fn_lookup_insert|reflexivity].
        -- intros i Hi. apply fn_lookup_insert_ne. congruence.
    + unfold ret; cbn. split_and!; auto.
      * eexists. split; [apply fn_lookup_insert|reflexivity].
      * intros i Hi. apply fn_lookup_insert_ne. congruence.
  - (* regcomp reported an error *)
    unfold set_error_msg, modify, fail; cbn. split_and!; auto.
    intros i [Hi|Hi]; apply fn_lookup_insert_ne; congruence.
Qed.

(** ** buffer.c: the links *)

Lemma heap_eq_refl h : heap_eq h h.
Proof. intros p; reflexivity. Qed.

Lemma heap_eq_sym h h' : heap_eq h h' -> heap_eq h' h.
Proof. intros H p; symmetry; apply H. Qed.

Lemma heap_eq_trans h1 h2 h3 : heap_eq h1 h2 -> heap_eq h2 h3 -> heap_eq h1 h3.
Proof. intros H1 H2 p; rewrite H1; apply H2. Qed.

Lemma line_t_eq (l l' : line_t) :
  q_forw l = q_forw l' -> q_back l = q_back l' -> pos l = pos l' -> len l = len l' ->
  l = l'.
Proof. destruct l, l'; simpl; intros; subst; reflexivity. Qed.

Lemma forw_link_heap a b h x :
  q_forw (link_heap a b h x) = if decide (x = a) then b else q_forw (h x).
Proof.
  unfold link_heap, set_q_forw, set_q_back.
  destruct (decide (x = b)) as [Hb|Hb], (decide (x = a)) as [Ha|Ha]; subst;
    repeat (rewrite ?fn_lookup_insert, ?fn_lookup_insert_ne by congruence; simpl);
    reflexivity.
Qed.

Lemma back_link_heap a b h x :
  q_back (link_heap a b h x) = if decide (x = b) then a else q_back (h x).
Proof.
  unfold link_heap, set_q_forw, set_q_back.
  destruct (decide (x = b)) as [Hb|Hb], (decide (x = a)) as [Ha|Ha]; subst;
    repeat (rewrite ?fn_lookup_insert, ?fn_lookup_insert_ne by congruence; simpl);
    reflexivity.
Qed.

Lemma pos_link_heap a b h x : pos (link_heap a b h x) = pos (h x).
Proof.
  unfold link_heap, set_q_forw, set_q_back.
  destruct (decide (x = b)) as [Hb|Hb], (decide (x = a)) as [Ha|Ha]; subst;
    repeat (rewrite ?fn_lookup_insert, ?fn_lookup_insert_ne by congruence; simpl);
    reflexivity.
Qed.

Lemma len_link_heap a b h x : len (link_heap a b h x) = len (h x).
Proof.
  unfold link_heap, set_q_forw, set_q_back.
  destruct (decide (x = b)) as [Hb|Hb], (decide (x = a)) as [Ha|Ha]; subst;
    repeat (rewrite ?fn_lookup_insert, ?fn_lookup_insert_ne by congruence; simpl);
    reflexivity.
Qed.

Lemma link_heap_proper a b h h' : heap_eq h h' -> heap_eq (link_heap a b h) (link_heap a b h').
Proof.
  intros H x. apply line_t_eq;
    rewrite ?forw_link_heap, ?back_link_heap, ?pos_link_heap, ?len_link_heap, ?H; reflexivity.
Qed.

(** Reading a field after a chain of links. *)
Ltac read_links :=
  repeat rewrite ?forw_link_heap, ?back_link_heap, ?pos_link_heap, ?len_link_heap.

(** Case analysis on every pointer comparison in the goal. *)
Ltac pointer_cases :=
  repeat match goal with
         | |- context [decide (?x = ?y)] => destruct (decide (x = y)); subst
         | H : context [decide (?x = ?y)] |- _ => destruct (decide (x = y)); subst
         end.

(** *** Undoing an atom and undoing it again *)

Lemma unlink_range_proper a h h' :
  heap_eq h h' -> heap_eq (unlink_range a h) (unlink_range a h').
Proof. intros H. unfold unlink_range. rewrite !H. by apply link_heap_proper. Qed.

Lemma relink_range_proper a h h' :
  heap_eq h h' -> heap_eq (relink_range a h) (relink_range a h').
Proof.
  intros H. unfold relink_range. cbv zeta.
  assert (H1 : heap_eq (link_heap (q_back (h (u_head a))) (u_head a) h)
                       (link_heap (q_back (h' (u_head a))) (u_head a) h'))
    by (rewrite H; by apply link_heap_proper).
  rewrite (H1 (u_tail a)). by apply link_heap_proper.
Qed.

Lemma move_back_proper lo hi h h' :
  heap_eq h h' -> heap_eq (move_back lo hi h) (move_back lo hi h').
Proof.
  intros H. unfold move_back. cbv zeta.
  assert (H1 : heap_eq (link_heap (u_head lo) (q_forw (h (u_head hi))) h)
                       (link_heap (u_head lo) (q_forw (h' (u_head hi))) h'))
    by (rewrite H; by apply link_heap_proper).
  rewrite (H1 (u_tail hi)). by do 2 apply link_heap_proper.
Qed.

(** Linking a deleted range in and out again changes nothing. *)
Lemma unlink_relink a h :
  deleted_from h a -> heap_eq (unlink_range a (relink_range a h)) h.
Proof.
  unfold deleted_from, unlink_range, relink_range. cbv zeta.
  intros (Hf & Hb & Htp & Hhn) x.
  apply line_t_eq; read_links; pointer_cases; congruence.
Qed.

(** Linking an added range out and in again changes nothing. *)
Lemma relink_unlink a h :
  added_in h a -> heap_eq (relink_range a (unlink_range a h)) h.
Proof.
  unfold added_in, unlink_range, relink_range. cbv zeta.
  intros (Hf & Hb & Htp) x.
  apply line_t_eq; read_links; pointer_cases; congruence.
Qed.

(** Moving a range back and forth again changes nothing. *)
Lemma move_back_move_back lo hi h :
  moved_in h lo hi -> heap_eq (move_back hi lo (move_back lo hi h)) h.
Proof.
  unfold moved_in, move_back. cbv zeta.
  intros (H1 & H2 & H3 & H4 & D1 & D2 & D3 & D4 & D5 & D6) x.
  apply line_t_eq; read_links; pointer_cases; congruence.
Qed.

(** *** The loops of [undo] *)

Lemma atom_at_middle (l1 l2 : list undo_t) (a : undo_t) :
  atom_at (l1 ++ a :: l2) (Z.of_nat (length l1)) = a.
Proof.
  unfold atom_at. destruct (Z.ltb_spec (Z.of_nat (length l1)) 0); [lia|].
  rewrite Nat2Z.id. rewrite lookup_total_app_r by lia. by rewrite Nat.sub_diag.
Qed.

Lemma set_atom_middle (l1 l2 : list undo_t) (a x : undo_t) :
  set_atom (Z.of_nat (length l1)) x (l1 ++ a :: l2) = l1 ++ x :: l2.
Proof.
  unfold set_atom. destruct (Z.ltb_spec (Z.of_nat (length l1)) 0); [lia|].
  rewrite Nat2Z.id. rewrite insert_app_r_alt by lia. by rewrite Nat.sub_diag.
Qed.

Lemma with_links_id s : with_links (heap (buf s)) (ustack (buf s)) s = s.
Proof. destruct s as [? ? ? [] ? ? ? ? ? ?]; reflexivity. Qed.

Lemma with_links_twice h st h' st' s :
  with_links h' st' (with_links h st s) = with_links h' st' s.
Proof. destruct s as [? ? ? [] ? ? ? ? ? ?]; reflexivity. Qed.

Lemma link_nodes_run a b s :
  link_nodes a b s = (Some tt, with_links (link_heap a b (heap (buf s))) (ustack (buf s)) s).
Proof. destruct s as [? ? ? [] ? ? ? ? ? ?]; reflexivity. Qed.

(** One round of the first loop, for the atom [a] on top of [rest]. *)
Lemma undo_atom_run (rest D : list undo_t) (a : undo_t) (s : ed) :
  ustack (buf s) = rev rest ++ a :: D ->
  undo_atom (Z.of_nat (length rest)) s =
    let h := heap (buf s) in
    if u_type a =? UADD then
      (Some (Z.of_nat (length rest)), with_links (unlink_range a h) (ustack (buf s)) s)
    else if u_type a =? UDEL then
      (Some (Z.of_nat (length rest)), with_links (relink_range a h) (ustack (buf s)) s)
    else if (u_type a =? UMOV) || (u_type a =? VMOV) then
      (Some (Z.of_nat (length rest) - 1),
       with_links (move_back (atom_at (ustack (buf s)) (Z.of_nat (length rest) - 1)) a h)
                  (ustack (buf s)) s)
    else (Some (Z.of_nat (length rest)), s).
Proof.
  intros Hst.
  assert (Ha : atom_at (ustack (buf s)) (Z.of_nat (length rest)) = a)
    by (rewrite Hst, <- (length_rev rest); apply atom_at_middle).
  unfold undo_atom, bind, gets. cbn [fst snd]. rewrite Ha. cbv zeta.
  destruct s as [? ? ? [] ? ? ? ? ? ?].
  destruct (u_type a =? UADD); [reflexivity|].
  destruct (u_type a =? UDEL); [reflexivity|].
  destruct ((u_type a =? UMOV) || (u_type a =? VMOV)); reflexivity.
Qed.

Lemma heap_with_links h st s : heap (buf (with_links h st s)) = h.
Proof. reflexivity. Qed.

Lemma ustack_with_links h st s : ustack (buf (with_links h st s)) = st.
Proof. reflexivity. Qed.

(** The first loop of [undo] is [undo_atoms] on the stack read from the top
    down; [D] holds the atoms above, which the loop is done with. *)
Lemma undo_loop_run (fuel : nat) (T D : list undo_t) (s : ed) :
  ustack (buf s) = rev T ++ D -> (length T <= fuel)%nat ->
  undo_loop fuel (Z.of_nat (length T) - 1) s =
    (Some tt, with_links (undo_atoms T (heap (buf s))).1
                         (rev (undo_atoms T (heap (buf s))).2 ++ D) s).
Proof.
  revert T D s. induction fuel as [|fuel IH]; intros T D s Hst Hfuel.
  { destruct T; [|simpl in Hfuel; lia]. simpl in *. rewrite <- Hst.
    by rewrite with_links_id. }
  destruct T as [|a rest].
  { simpl in *. rewrite <- Hst. by rewrite with_links_id. }
  cbn [undo_loop length]. replace (Z.of_nat (S (length rest)) - 1) with (Z.of_nat (length rest)) by lia.
  destruct (Z.ltb_spec (Z.of_nat (length rest)) 0) as [?|_]; [lia|].
  cbn [rev] in Hst. rewrite <- app_assoc in Hst. cbn [app] in Hst.
  unfold bind at 1. rewrite (undo_atom_run rest D a s Hst). cbv zeta.
  cbn [undo_atoms].
  destruct (u_type a =? UADD) eqn:Eadd; [|destruct (u_type a =? UDEL) eqn:Edel;
    [|destruct ((u_type a =? UMOV) || (u_type a =? VMOV)) eqn:Emov]].
  - (* UADD *)
    unfold bind, modify. cbn [fst snd].
    erewrite IH; [| |simpl in Hfuel; lia].
    2:{ cbn. rewrite Hst. rewrite <- (length_rev rest). rewrite atom_at_middle.
        rewrite set_atom_middle. reflexivity. }
    destruct s as [? ? ? [] ? ? ? ? ? ?]. cbn.
    destruct (undo_atoms rest _) as [h' r]. cbn.
    rewrite <- app_assoc. reflexivity.
  - (* UDEL *)
    unfold bind, modify. cbn [fst snd].
    erewrite IH; [| |simpl in Hfuel; lia].
    2:{ cbn. rewrite Hst. rewrite <- (length_rev rest). rewrite atom_at_middle.
        rewrite set_atom_middle. reflexivity. }
    destruct s as [? ? ? [] ? ? ? ? ? ?]. cbn.
    destruct (undo_atoms rest _) as [h' r]. cbn.
    rewrite <- app_assoc. reflexivity.
  - (* UMOV, VMOV *)
    unfold bind, modify. cbn [fst snd].
    destruct rest as [|b rest'].
    + (* no atom below: the loop is over *)
      cbn [length rev app] in *. change (Z.of_nat 0 - 1) with (-1).
      destruct fuel; cbn [undo_loop]; change (-1 - 1 <? 0) with true; cbn;
        destruct s as [? ? ? [] ? ? ? ? ? ?]; cbn in *; subst; reflexivity.
    + cbn [length rev] in *. rewrite <- app_assoc in Hst. cbn [app] in Hst.
      replace (Z.of_nat (S (length rest')) - 1) with (Z.of_nat (length rest')) by lia.
      assert (Hb : atom_at (ustack (buf s)) (Z.of_nat (length rest')) = b)
        by (rewrite Hst, <- (length_rev rest'); apply atom_at_middle).
      rewrite Hb.
      erewrite IH; [| |simpl in Hfuel; lia].
      2:{ cbn. rewrite Hst. rewrite <- (length_rev rest'). rewrite atom_at_middle.
          rewrite set_atom_middle. reflexivity. }
      destruct s as [? ? ? [] ? ? ? ? ? ?]. cbn.
      destruct (undo_atoms rest' _) as [h' r]. cbn.
      rewrite <- !app_assoc. reflexivity.
  - (* no case of the switch *)
    unfold bind, modify. cbn [fst snd].
    erewrite IH; [| |simpl in Hfuel; lia].
    2:{ cbn. rewrite Hst. rewrite <- (length_rev rest). rewrite atom_at_middle.
        rewrite set_atom_middle. reflexivity. }
    destruct s as [? ? ? [] ? ? ? ? ? ?]. cbn.
    destruct (undo_atoms rest _) as [h' r]. cbn.
    rewrite <- app_assoc. reflexivity.
Qed.

(** Both sides are the same list up to the bracketing of [++]. *)
Ltac reassoc := repeat (rewrite <- ?app_assoc; cbn [app]); reflexivity.

(** The second loop of [undo] reverses the stack: at round [n] the [n]
    atoms at either end are in place. *)
Lemma reverse_loop_middle (fuel : nat) (a m c : list undo_t) :
  length a = length c -> (length m <= fuel)%nat ->
  reverse_loop fuel (Z.of_nat (length a)) (a ++ m ++ c) = a ++ rev m ++ c.
Proof.
  revert a m c. induction fuel as [|fuel IH]; intros a m c Hac Hfuel.
  { destruct m; [reflexivity|simpl in Hfuel; lia]. }
  cbn [reverse_loop].
  destruct m as [|x m].
  { cbn [app rev]. rewrite length_app.
    destruct (Z.ltb_spec (2 * Z.of_nat (length a)) (Z.of_nat (length a + length c) - 1));
      [lia|reflexivity]. }
  destruct (decide (m = [])) as [->|Hm].
  { cbn [app rev]. rewrite length_app. cbn [length].
    destruct (Z.ltb_spec (2 * Z.of_nat (length a)) (Z.of_nat (length a + S (length c)) - 1));
      [lia|reflexivity]. }
  destruct (exists_last Hm) as (m' & y & ->). clear Hm.
  assert (Hfuel' : (length m' <= fuel)%nat)
    by (cbn [length] in Hfuel; rewrite length_app in Hfuel; lia).
  remember (a ++ (x :: m' ++ [y]) ++ c) as st eqn:Est.
  assert (Hlen : Z.of_nat (length st) = 2 * Z.of_nat (length a) + Z.of_nat (length m') + 2).
  { subst st. rewrite length_app. cbn [app length]. rewrite !length_app. cbn [length]. lia. }
  rewrite Hlen.
  destruct (Z.ltb_spec (2 * Z.of_nat (length a))
              (2 * Z.of_nat (length a) + Z.of_nat (length m') + 2 - 1)); [|lia].
  replace (2 * Z.of_nat (length a) + Z.of_nat (length m') + 2 - 1 - Z.of_nat (length a))
    with (Z.of_nat (length (a ++ x :: m'))) by (rewrite length_app; cbn [length]; lia).
  assert (E1 : atom_at st (Z.of_nat (length a)) = x).
  { replace st with (a ++ x :: (m' ++ y :: c)) by (subst st; reassoc).
    apply atom_at_middle. }
  assert (E2 : atom_at st (Z.of_nat (length (a ++ x :: m'))) = y).
  { replace st with ((a ++ x :: m') ++ y :: c) by (subst st; reassoc).
    apply atom_at_middle. }
  rewrite E1, E2.
  assert (E3 : set_atom (Z.of_nat (length a)) y st = a ++ y :: (m' ++ y :: c)).
  { replace st with (a ++ x :: (m' ++ y :: c)) by (subst st; reassoc).
    apply set_atom_middle. }
  rewrite E3.
  assert (E4 : set_atom (Z.of_nat (length (a ++ x :: m'))) x (a ++ y :: m' ++ y :: c)
               = (a ++ [y]) ++ m' ++ (x :: c)).
  { replace (length (a ++ x :: m')) with (length (a ++ y :: m'))
      by (rewrite !length_app; reflexivity).
    replace (a ++ y :: m' ++ y :: c) with ((a ++ y :: m') ++ y :: c) by reassoc.
    rewrite set_atom_middle. reassoc. }
  rewrite E4.
  replace (Z.of_nat (length a) + 1) with (Z.of_nat (length (a ++ [y])))
    by (rewrite length_app; cbn [length]; lia).
  rewrite IH.
  - cbn [rev]. rewrite rev_app_distr. cbn [rev app]. reassoc.
  - rewrite length_app. cbn [length]. lia.
  - exact Hfuel'.
Qed.

Lemma reverse_loop_rev (st : list undo_t) :
  reverse_loop (length st) 0 st = rev st.
Proof.
  pose proof (reverse_loop_middle (length st) [] st [] eq_refl (Nat.le_refl _)) as H.
  cbn [app length] in H. rewrite app_nil_r in H. change (Z.of_nat 0) with 0 in H.
  rewrite H. by rewrite app_nil_r.
Qed.

(** *** [undo] as a whole *)

(** [search_line_node] moves its cache and nothing else (the interrupt
    counter returns to where it was, or to zero). *)
Lemma search_line_node_run (addr : Z) (s : ed) :
  search_line_node addr s =
    (Some (search_cache (buf s) addr).1,
     on_sig (fun g => with_mutex (if mutex g + 1 - 1 <=? 0 then 0 else mutex g + 1 - 1) g)
       (on_buf (fun b => with_s_lp (search_cache (buf s) addr).1
                           (with_s_o_addr (search_cache (buf s) addr).2 b)) s)).
Proof.
  destruct s as [? [m ? ?] ? [] ? ? ? ? ? ?]. reflexivity.
Qed.

(** With a frame recorded, [undo] succeeds: the links are those
    [undo_atoms] leaves, the stack holds the toggled atoms in reverse
    order, and the addresses and the modified flag are swapped with the
    snapshot. *)
Lemma undo_run (isglobal : bool) (s : ed) :
  ustack (buf s) <> [] -> 0 <= u_current_addr (buf s) -> 0 <= u_last_addr (buf s) ->
  exists s',
    undo isglobal s = (Some tt, s') /\
    heap (buf s') = (undo_atoms (rev (ustack (buf s))) (heap (buf s))).1 /\
    ustack (buf s') = (undo_atoms (rev (ustack (buf s))) (heap (buf s))).2 /\
    current_addr_ (buf s') = u_current_addr (buf s) /\
    last_addr_ (buf s') = u_last_addr (buf s) /\
    modified_ (buf s') = u_modified (buf s) /\
    u_current_addr (buf s') = current_addr_ (buf s) /\
    u_last_addr (buf s') = last_addr_ (buf s) /\
    u_modified (buf s') = modified_ (buf s).
Proof.
  intros Hne Hcur Hlast.
  unfold undo, bind, gets. cbn [fst snd]. unfold u_idx.
  destruct (Z.leb_spec (Z.of_nat (length (ustack (buf s)))) 0) as [Hle|_].
  { destruct (ustack (buf s)); [congruence|simpl in Hle; lia]. }
  destruct (Z.ltb_spec (u_current_addr (buf s)) 0) as [?|_]; [lia|].
  destruct (Z.ltb_spec (u_last_addr (buf s)) 0) as [?|_]; [lia|].
  cbn [orb].
  rewrite search_line_node_run.
  unfold disable_interrupts at 1. unfold modify at 1.
  set (s2 := on_sig _ (on_sig _ (on_buf _ s))).
  assert (Hh : heap (buf s2) = heap (buf s)) by reflexivity.
  assert (Hu : ustack (buf s2) = ustack (buf s)) by reflexivity.
  assert (Hc : u_current_addr (buf s2) = u_current_addr (buf s)) by reflexivity.
  assert (Hl : u_last_addr (buf s2) = u_last_addr (buf s)) by reflexivity.
  assert (Hm : u_modified (buf s2) = u_modified (buf s)) by reflexivity.
  clearbody s2.
  assert (Hst2 : ustack (buf s2) = rev (rev (ustack (buf s))) ++ [])
    by (rewrite rev_involutive, app_nil_r; exact Hu).
  pose proof (undo_loop_run (length (ustack (buf s))) (rev (ustack (buf s))) [] s2 Hst2
                ltac:(rewrite length_rev; lia)) as Hloop.
  rewrite length_rev in Hloop. rewrite Hloop. clear Hloop.
  rewrite Hh.
  destruct (undo_atoms (rev (ustack (buf s))) (heap (buf s))) as [h' r].
  cbn [fst snd]. rewrite app_nil_r.
  unfold modify at 1. unfold with_links at 1.
  destruct s2 as [? ? ? [] ? ? ? ? ? ?]. norm_state. norm_state_in Hc.
  norm_state_in Hl. norm_state_in Hm.
  rewrite reverse_loop_rev, rev_involutive.
  destruct isglobal; (eexists; split; [reflexivity|]); norm_state;
    repeat split; first [exact Hc | exact Hl | exact Hm].
Qed.

(** *** Undo is an involution *)

Lemma undo_atoms_length (T : list undo_t) :
  forall h, length (undo_atoms T h).2 = length T.
Proof.
  induction T as [T IH] using (induction_ltof1 _ (@length undo_t)). unfold ltof in IH.
  intros h. destruct T as [|a rest]; [reflexivity|]. cbn [undo_atoms].
  destruct (u_type a =? UADD).
  { specialize (IH rest ltac:(simpl; lia) (unlink_range a h)).
    destruct (undo_atoms rest _). simpl in *. lia. }
  destruct (u_type a =? UDEL).
  { specialize (IH rest ltac:(simpl; lia) (relink_range a h)).
    destruct (undo_atoms rest _). simpl in *. lia. }
  destruct ((u_type a =? UMOV) || (u_type a =? VMOV)).
  { destruct rest as [|b rest']; [reflexivity|].
    specialize (IH rest' ltac:(simpl; lia) (move_back b a h)).
    destruct (undo_atoms rest' _). simpl in *. lia. }
  specialize (IH rest ltac:(simpl; lia) h).
  destruct (undo_atoms rest _). simpl in *. lia.
Qed.

Lemma undo_atoms_proper (T : list undo_t) :
  forall h h', heap_eq h h' ->
    heap_eq (undo_atoms T h).1 (undo_atoms T h').1 /\
    (undo_atoms T h).2 = (undo_atoms T h').2.
Proof.
  induction T as [T IH] using (induction_ltof1 _ (@length undo_t)). unfold ltof in IH.
  intros h h' Heq. destruct T as [|a rest]; [split; [exact Heq|reflexivity]|].
  cbn [undo_atoms].
  destruct (u_type a =? UADD).
  { destruct (IH rest ltac:(simpl; lia) _ _ (unlink_range_proper a h h' Heq)) as [H1 H2].
    do 2 destruct (undo_atoms rest _). simpl in *. split; [exact H1|congruence]. }
  destruct (u_type a =? UDEL).
  { destruct (IH rest ltac:(simpl; lia) _ _ (relink_range_proper a h h' Heq)) as [H1 H2].
    do 2 destruct (undo_atoms rest _). simpl in *. split; [exact H1|congruence]. }
  destruct ((u_type a =? UMOV) || (u_type a =? VMOV)).
  { destruct rest as [|b rest'].
    - split; [by apply move_back_proper|reflexivity].
    - destruct (IH rest' ltac:(simpl; lia) _ _ (move_back_proper b a h h' Heq)) as [H1 H2].
      do 2 destruct (undo_atoms rest' _). simpl in *. split; [exact H1|congruence]. }
  destruct (IH rest ltac:(simpl; lia) _ _ Heq) as [H1 H2].
  do 2 destruct (undo_atoms rest _). simpl in *. split; [exact H1|congruence].
Qed.

Lemma is_mov_toggle (a : undo_t) :
  is_mov a ->
  (u_type (toggle_type a) =? UADD) = false /\ (u_type (toggle_type a) =? UDEL) = false /\
  (u_type (toggle_type a) =? UMOV) || (u_type (toggle_type a) =? VMOV) = true.
Proof. intros [H|H]; cbn [toggle_type u_type]; rewrite H; repeat split. Qed.

Lemma is_mov_types (a : undo_t) :
  is_mov a ->
  (u_type a =? UADD) = false /\ (u_type a =? UDEL) = false /\
  (u_type a =? UMOV) || (u_type a =? VMOV) = true.
Proof. intros [H|H]; rewrite H; repeat split. Qed.

(** Undoing a frame and then the frame [undo] leaves in its place gives
    the links back; [K] is whatever is undone after that. *)
Lemma undo_atoms_twice (T : list undo_t) :
  forall h K, frame_ok h T ->
    heap_eq (undo_atoms (rev (undo_atoms T h).2 ++ K) (undo_atoms T h).1).1
            (undo_atoms K h).1.
Proof.
  induction T as [T IH] using (induction_ltof1 _ (@length undo_t)). unfold ltof in IH.
  intros h K Hok. destruct T as [|a rest]; [intros p; reflexivity|].
  cbn [frame_ok] in Hok. cbn [undo_atoms].
  destruct Hok as [(Ht & Hin & Hrest)|[(Ht & Hout & Hrest)|(Hmov & Hrest)]].
  - (* an added range *)
    rewrite Ht. cbn [Z.eqb UADD].
    specialize (IH rest ltac:(simpl; lia) (unlink_range a h) (toggle_type a :: K) Hrest).
    destruct (undo_atoms rest (unlink_range a h)) as [h1 r1]. cbn [fst snd] in *.
    cbn [rev]. rewrite <- app_assoc. cbn [app].
    eapply heap_eq_trans; [exact IH|].
    cbn [undo_atoms toggle_type u_type]. rewrite Ht. cbn [Z.lxor Z.eqb UADD UDEL Pos.lxor].
    change (relink_range (Undo_atom 1 (u_head a) (u_tail a))) with (relink_range a).
    destruct (undo_atoms_proper K _ _ (relink_unlink a h Hin)) as [H1 _].
    do 2 destruct (undo_atoms K _). exact H1.
  - (* a deleted range *)
    rewrite Ht. cbn [Z.eqb UADD UDEL Pos.eqb].
    specialize (IH rest ltac:(simpl; lia) (relink_range a h) (toggle_type a :: K) Hrest).
    destruct (undo_atoms rest (relink_range a h)) as [h1 r1]. cbn [fst snd] in *.
    cbn [rev]. rewrite <- app_assoc. cbn [app].
    eapply heap_eq_trans; [exact IH|].
    cbn [undo_atoms toggle_type u_type]. rewrite Ht. cbn [Z.lxor Z.eqb UADD UDEL Pos.lxor].
    change (unlink_range (Undo_atom 0 (u_head a) (u_tail a))) with (unlink_range a).
    destruct (undo_atoms_proper K _ _ (unlink_relink a h Hout)) as [H1 _].
    do 2 destruct (undo_atoms K _). exact H1.
  - (* a moved range *)
    destruct rest as [|b rest']; [contradiction|].
    destruct Hrest as (Hb & Hin & Hrest).
    destruct (is_mov_types a Hmov) as (-> & -> & ->).
    specialize (IH rest' ltac:(simpl; lia) (move_back b a h) (toggle_type b :: a :: K) Hrest).
    destruct (undo_atoms rest' (move_back b a h)) as [h1 r1]. cbn [fst snd] in *.
    cbn [rev]. rewrite <- !app_assoc. cbn [app].
    eapply heap_eq_trans; [exact IH|].
    cbn [undo_atoms]. destruct (is_mov_toggle b Hb) as (-> & -> & ->).
    change (move_back a (toggle_type b)) with (move_back a b).
    destruct (undo_atoms_proper K _ _ (move_back_move_back b a h Hin)) as [H1 _].
    do 2 destruct (undo_atoms K _). exact H1.
Qed.

Lemma walk_forw_proper (h h' : ptr -> line_t) (k : nat) (p : ptr) :
  heap_eq h h' -> walk_forw h k p = walk_forw h' k p.
Proof.
  intros H. revert p. induction k as [|k IH]; intros p; [reflexivity|].
  cbn [walk_forw]. rewrite H. apply IH.
Qed.

Lemma line_sequence_proper (b b' : buffer_t) :
  heap_eq (heap b) (heap b') -> last_addr_ b = last_addr_ b' ->
  line_sequence b = line_sequence b'.
Proof.
  intros Hh Hl. unfold line_sequence, line_nodes. rewrite Hl.
  rewrite !map_map. apply map_ext. intros k.
  rewrite (walk_forw_proper _ _ k buffer_head Hh). by rewrite Hh.
Qed.

(** C1.  Undo is an involution.  In an editor state with a committed undo
    frame (the stack is not empty, the snapshot is recorded, and the atoms
    describe the edits in effect), two [undo]s in a row both succeed and
    give back the current address, the last address, the modified flag and
    the line sequence; indeed every node of the heap is as before. *)
Theorem undo_undo (isglobal : bool) (s : ed) :
  ustack (buf s) <> [] ->
  0 <= u_current_addr (buf s) -> 0 <= u_last_addr (buf s) ->
  0 <= current_addr_ (buf s) -> 0 <= last_addr_ (buf s) ->
  frame_ok (heap (buf s)) (rev (ustack (buf s))) ->
  exists s1 s2,
    undo isglobal s = (Some tt, s1) /\
    undo isglobal s1 = (Some tt, s2) /\
    current_addr_ (buf s2) = current_addr_ (buf s) /\
    last_addr_ (buf s2) = last_addr_ (buf s) /\
    modified_ (buf s2) = modified_ (buf s) /\
    line_sequence (buf s2) = line_sequence (buf s) /\
    heap_eq (heap (buf s2)) (heap (buf s)).
Proof.
  intros Hne Huc Hul Hc Hl Hok.
  destruct (undo_run isglobal s Hne Huc Hul)
    as (s1 & Hrun1 & Hh1 & Hst1 & Hc1 & Hl1 & Hm1 & Huc1 & Hul1 & Hum1).
  assert (Hne1 : ustack (buf s1) <> []).
  { intros E. apply (f_equal length) in E. rewrite Hst1, undo_atoms_length, length_rev in E.
    destruct (ustack (buf s)); [congruence|discriminate]. }
  destruct (undo_run isglobal s1 Hne1 ltac:(lia) ltac:(lia))
    as (s2 & Hrun2 & Hh2 & Hst2 & Hc2 & Hl2 & Hm2 & _).
  assert (Hheap : heap_eq (heap (buf s2)) (heap (buf s))).
  { rewrite Hh2, Hh1, Hst1.
    pose proof (undo_atoms_twice (rev (ustack (buf s))) (heap (buf s)) [] Hok) as H.
    rewrite app_nil_r in H. exact H. }
  exists s1, s2. split_and!; try assumption; try congruence.
  apply line_sequence_proper; [exact Hheap|congruence].
Qed.

Lemma undo_undo_witness :
  ustack (buf five_lines_edited) <> [] /\
  0 <= u_current_addr (buf five_lines_edited) /\
  0 <= u_last_addr (buf five_lines_edited) /\
  0 <= current_addr_ (buf five_lines_edited) /\
  0 <= last_addr_ (buf five_lines_edited) /\
  frame_ok (heap (buf five_lines_edited)) (rev (ustack (buf five_lines_edited))) /\
  exists s1 s2,
    undo false five_lines_edited = (Some tt, s1) /\
    undo false s1 = (Some tt, s2) /\
    current_addr_ (buf s2) = current_addr_ (buf five_lines_edited) /\
    last_addr_ (buf s2) = last_addr_ (buf five_lines_edited) /\
    modified_ (buf s2) = modified_ (buf five_lines_edited) /\
    line_sequence (buf s2) = line_sequence (buf five_lines_edited) /\
    heap_eq (heap (buf s2)) (heap (buf five_lines_edited)).
Proof.
  assert (H1 : ustack (buf five_lines_edited) <> []) by (vm_compute; discriminate).
  assert (H2 : 0 <= u_current_addr (buf five_lines_edited)) by (vm_compute; discriminate).
  assert (H3 : 0 <= u_last_addr (buf five_lines_edited)) by (vm_compute; discriminate).
  assert (H4 : 0 <= current_addr_ (buf five_lines_edited)) by (vm_compute; discriminate).
  assert (H5 : 0 <= last_addr_ (buf five_lines_edited)) by (vm_compute; discriminate).
  assert (H6 : frame_ok (heap (buf five_lines_edited)) (rev (ustack (buf five_lines_edited)))).
  { vm_compute. left. split; [reflexivity|]. split; [repeat split; discriminate|].
    right. right. split; [left; reflexivity|]. split; [left; reflexivity|].
    split; [repeat split; discriminate|].
    right. left. split; [reflexivity|]. split; [repeat split; discriminate|]. exact I. }
  exact (conj H1 (conj H2 (conj H3 (conj H4 (conj H5 (conj H6
           (undo_undo false five_lines_edited H1 H2 H3 H4 H5 H6))))))).
Defined.

(** ** buffer.c: the ring of line nodes *)

Lemma chain_app h p L1 x L2 q :
  chain h p (L1 ++ x :: L2) q <-> chain h p L1 x /\ chain h x L2 q.
Proof.
  revert p. induction L1 as [|y L1 IH]; intros p; cbn [chain app].
  - tauto.
  - rewrite IH. tauto.
Qed.

Lemma chain_snoc h p L x q :
  chain h p (L ++ [x]) q <-> chain h p L x /\ q_forw (h x) = q /\ q_back (h q) = x.
Proof. rewrite chain_app. cbn [chain]. tauto. Qed.

(** A chain only depends on the forward links of its nodes but the last
    and on the backward links of its nodes but the first. *)
(** The element is one of those listed at the front of the list. *)
Ltac elem_front :=
  cbn [app]; repeat first [apply list_elem_of_here | apply list_elem_of_further].

Lemma chain_ext h h' p L q :
  (forall x, x ∈ p :: L -> q_forw (h' x) = q_forw (h x)) ->
  (forall x, x ∈ L ++ [q] -> q_back (h' x) = q_back (h x)) ->
  chain h p L q -> chain h' p L q.
Proof.
  revert p. induction L as [|y L IH]; intros p Hf Hb; cbn [chain].
  - intros [H1 H2]. rewrite Hf, Hb by elem_front. auto.
  - intros (H1 & H2 & H3).
    rewrite Hf, Hb by elem_front. split_and!; auto.
    apply IH; auto; intros x Hx; [apply Hf|apply Hb; cbn [app]];
      apply elem_of_cons; right; exact Hx.
Qed.

Lemma chain_forw h p L q (i : nat) :
  chain h p L q -> (i <= length L)%nat ->
  q_forw (h (chain_nodes p L q !!! i)) = chain_nodes p L q !!! S i.
Proof.
  unfold chain_nodes. revert p i. induction L as [|y L IH]; intros p i; cbn [chain length].
  - intros [H1 H2] Hi. assert (i = 0%nat) as -> by lia. exact H1.
  - intros (H1 & H2 & H3) Hi. destruct i as [|i]; [exact H1|].
    apply (IH y i H3). lia.
Qed.

Lemma chain_back h p L q (i : nat) :
  chain h p L q -> (i <= length L)%nat ->
  q_back (h (chain_nodes p L q !!! S i)) = chain_nodes p L q !!! i.
Proof.
  unfold chain_nodes. revert p i. induction L as [|y L IH]; intros p i; cbn [chain length].
  - intros [H1 H2] Hi. assert (i = 0%nat) as -> by lia. exact H2.
  - intros (H1 & H2 & H3) Hi. destruct i as [|i]; [exact H2|].
    apply (IH y i H3). lia.
Qed.

Lemma walk_forw_chain h p L q (i k : nat) :
  chain h p L q -> (i + k <= S (length L))%nat ->
  walk_forw h k (chain_nodes p L q !!! i) = chain_nodes p L q !!! (i + k)%nat.
Proof.
  intros Hc. revert i. induction k as [|k IH]; intros i Hik; cbn [walk_forw].
  - by rewrite Nat.add_0_r.
  - rewrite (chain_forw h p L q i Hc) by lia. rewrite IH by lia. f_equal. lia.
Qed.

Lemma walk_back_chain h p L q (i k : nat) :
  chain h p L q -> (k <= i <= S (length L))%nat ->
  walk_back h k (chain_nodes p L q !!! i) = chain_nodes p L q !!! (i - k)%nat.
Proof.
  intros Hc. revert i. induction k as [|k IH]; intros i Hik; cbn [walk_back].
  - by rewrite Nat.sub_0_r.
  - destruct i as [|i]; [lia|].
    rewrite (chain_back h p L q i Hc) by lia. rewrite IH by lia. f_equal.
Qed.

(** In the ring, the node at an address is a node of the chain. *)
Lemma node_at_chain (L : list ptr) (addr : Z) :
  0 <= addr <= Z.of_nat (length L) ->
  node_at L addr = chain_nodes buffer_head L buffer_head !!! Z.to_nat addr.
Proof.
  intros H. unfold node_at, chain_nodes.
  change (buffer_head :: L ++ [buffer_head]) with ((buffer_head :: L) ++ [buffer_head]).
  rewrite lookup_total_app_l by (cbn [length]; lia). reflexivity.
Qed.

Lemma node_at_wrap (L : list ptr) :
  chain_nodes buffer_head L buffer_head !!! S (length L) = buffer_head.
Proof.
  unfold chain_nodes.
  change (buffer_head :: L ++ [buffer_head]) with ((buffer_head :: L) ++ [buffer_head]).
  rewrite lookup_total_app_r by (cbn [length]; lia).
  cbn [length]. by rewrite Nat.sub_diag.
Qed.

Lemma node_at_0 (L : list ptr) : node_at L 0 = buffer_head.
Proof. reflexivity. Qed.

Lemma node_at_pos (L : list ptr) (addr : Z) :
  1 <= addr -> node_at L addr = L !!! Z.to_nat (addr - 1).
Proof.
  intros H. unfold node_at. replace (Z.to_nat addr) with (S (Z.to_nat (addr - 1))) by lia.
  reflexivity.
Qed.

(** [search_line_node] finds the node at the address it is asked for. *)
Lemma search_cache_spec (b : buffer_t) (L : list ptr) (addr : Z) :
  chain (heap b) buffer_head L buffer_head ->
  last_addr_ b = Z.of_nat (length L) ->
  0 <= s_o_addr b <= last_addr_ b -> s_lp b = node_at L (s_o_addr b) ->
  0 <= addr <= last_addr_ b ->
  search_cache b addr = (node_at L addr, addr).
Proof.
  intros Hc Hlast Ho Hlp Ha. unfold search_cache, seek_forw, seek_back. cbv zeta.
  rewrite Hlp. rewrite !node_at_chain by lia.
  destruct (Z.ltb_spec (s_o_addr b) addr).
  - destruct (Z.geb_spec (s_o_addr b + last_addr_ b) (2 * addr)).
    + rewrite (walk_forw_chain _ _ _ _ _ _ Hc) by lia. f_equal; [f_equal|]; lia.
    + pose proof (chain_back _ _ _ _ (length L) Hc (Nat.le_refl _)) as Hb.
      rewrite node_at_wrap in Hb. rewrite Hb.
      rewrite (walk_back_chain _ _ _ _ _ _ Hc) by lia. f_equal; [f_equal|]; lia.
  - destruct (Z.leb_spec (s_o_addr b) (2 * addr)).
    + rewrite (walk_back_chain _ _ _ _ _ _ Hc) by lia. f_equal; [f_equal|]; lia.
    + change buffer_head with (chain_nodes buffer_head L buffer_head !!! 0%nat) at 1.
      rewrite (walk_forw_chain _ _ _ _ _ _ Hc) by lia. f_equal; [f_equal|]; lia.
Qed.

(** The line sequence read off a ring is the list of its nodes. *)
Lemma line_nodes_chain (b : buffer_t) (L : list ptr) :
  chain (heap b) buffer_head L buffer_head -> last_addr_ b = Z.of_nat (length L) ->
  line_nodes b = L.
Proof.
  intros Hc Hlast. unfold line_nodes. rewrite Hlast, Nat2Z.id.
  apply list_eq. intros i. rewrite list_lookup_fmap.
  destruct (decide (i < length L)%nat) as [Hi|Hi].
  - rewrite lookup_seq_lt by lia. cbn [fmap option_fmap option_map].
    change buffer_head with (chain_nodes buffer_head L buffer_head !!! 0%nat) at 1.
    rewrite (walk_forw_chain _ _ _ _ _ _ Hc) by lia.
    unfold chain_nodes. cbn [Nat.add]. rewrite lookup_total_cons_ne_0 by lia.
    cbn [Nat.pred]. rewrite lookup_total_app_l by lia.
    symmetry. apply list_lookup_lookup_total_lt. lia.
  - rewrite lookup_seq_ge by lia. rewrite lookup_ge_None_2 by lia. reflexivity.
Qed.

(** *** Running the operations on a buffer that satisfies the invariant *)

Lemma search_line_node_ok (s : ed) (L Y : list ptr) (addr : Z) :
  buffer_ok s L Y -> 0 <= addr <= last_addr_ (buf s) ->
  search_line_node addr s = (Some (node_at L addr), cached (node_at L addr) addr s) /\
  buffer_ok (cached (node_at L addr) addr s) L Y.
Proof.
  intros [Hr Hy Hn Hl Hca Hcn Hb] Ha.
  rewrite search_line_node_run.
  rewrite (search_cache_spec (buf s) L addr Hr Hl Hca Hcn Ha). split; [reflexivity|].
  split; try assumption; destruct_state s; norm_state; norm_state_in Hl; try assumption; try lia.
  reflexivity.
Qed.

Lemma inc_addr_run (addr : Z) (s : ed) :
  inc_addr addr s = (Some (if addr + 1 >? last_addr_ (buf s) then 0 else addr + 1), s).
Proof. reflexivity. Qed.

(** The node after the one at [addr] is the node at [inc_addr addr]. *)
Lemma node_at_inc (L : list ptr) (addr : Z) :
  0 <= addr <= Z.of_nat (length L) ->
  node_at L (if addr + 1 >? Z.of_nat (length L) then 0 else addr + 1) =
  chain_nodes buffer_head L buffer_head !!! S (Z.to_nat addr).
Proof.
  intros H. destruct (Z.gtb_spec (addr + 1) (Z.of_nat (length L))).
  - assert (Z.to_nat addr = length L) as -> by lia. by rewrite node_at_wrap.
  - rewrite node_at_chain by lia. f_equal. lia.
Qed.

Lemma link_heap_other a b h x : x <> a -> x <> b -> link_heap a b h x = h x.
Proof.
  intros Ha Hb. apply line_t_eq; read_links; pointer_cases; congruence.
Qed.

Lemma text_of_link_heap a b h x : text_of (link_heap a b h) x = text_of h x.
Proof. unfold text_of. by rewrite pos_link_heap, len_link_heap. Qed.

(** The invariant only looks at the links, the number of lines, the cache
    and the allocator. *)
Lemma buffer_ok_same (s s' : ed) (L Y : list ptr) :
  heap (buf s') = heap (buf s) -> last_addr_ (buf s') = last_addr_ (buf s) ->
  s_lp (buf s') = s_lp (buf s) -> s_o_addr (buf s') = s_o_addr (buf s) ->
  brk (libc s') = brk (libc s) ->
  buffer_ok s L Y -> buffer_ok s' L Y.
Proof.
  intros Hh Hl Hp Ho Hb [H1 H2 H3 H4 H5 H6 H7].
  split; rewrite ?Hh, ?Hl, ?Hp, ?Ho, ?Hb; assumption.
Qed.

Lemma link_nodes_nodes a b s :
  link_nodes a b s = (Some tt, with_nodes (link_heap a b (heap (buf s))) s).
Proof. reflexivity. Qed.

Lemma insert_node_run lp prev s :
  insert_node lp prev s =
    (Some tt,
     with_nodes (link_heap prev lp
                  (link_heap lp (q_forw (heap (buf s) prev)) (heap (buf s)))) s).
Proof. destruct_state s. reflexivity. Qed.

(** A list of distinct nodes the allocator has handed out is no longer
    than the allocator has gone. *)
Lemma nodes_bounded (l : list ptr) (n : nat) :
  NoDup l -> Forall (fun p => (NULL < p < n)%nat) l -> (length l <= n)%nat.
Proof.
  intros Hnd Hall.
  assert (Hle : (length l <= length (seq 0 n))%nat); [|by rewrite length_seq in Hle].
  apply submseteq_length, NoDup_submseteq; [exact Hnd|].
  intros x Hx. apply elem_of_seq.
  pose proof (proj1 (list.Forall_forall _ _) Hall x Hx) as Hlt. simpl in Hlt. lia.
Qed.

(** The loop of [clear_yank_buffer] unlinks the yanked nodes one by one and
    leaves an empty ring; no other node is touched. *)
Lemma clear_yank_loop_spec (Y : list ptr) :
  forall (fuel : nat) (s : ed),
    (length Y <= fuel)%nat ->
    chain (heap (buf s)) yank_buffer_head Y yank_buffer_head ->
    NoDup (yank_buffer_head :: Y) ->
    exists h',
      clear_yank_loop fuel (q_forw (heap (buf s) yank_buffer_head)) s =
        (Some tt, with_nodes h' s) /\
      chain h' yank_buffer_head [] yank_buffer_head /\
      (forall p, p ∉ yank_buffer_head :: Y -> h' p = heap (buf s) p) /\
      (forall p, text_of h' p = text_of (heap (buf s)) p).
Proof.
  induction Y as [|y Y IH]; intros fuel s Hfuel Hc Hnd.
  - cbn [chain] in Hc. destruct Hc as [Hf Hb]. rewrite Hf.
    exists (heap (buf s)). split_and!; [|cbn [chain]; auto|auto|auto].
    destruct fuel; cbn [clear_yank_loop]; [|rewrite bool_decide_true by reflexivity];
      destruct_state s; reflexivity.
  - cbn [chain] in Hc. destruct Hc as (Hf & Hb & Hc). rewrite Hf.
    destruct fuel as [|fuel]; [simpl in Hfuel; lia|]. cbn [clear_yank_loop].
    assert (Hy : y <> yank_buffer_head).
    { apply list.NoDup_cons in Hnd as [Hnd _]. intros ->. apply Hnd. elem_front. }
    rewrite bool_decide_false by exact Hy.
    unfold bind, forw, back, gets. cbn [fst snd]. rewrite Hb, link_nodes_nodes.
    set (p := q_forw (heap (buf s) y)).
    set (h1 := link_heap yank_buffer_head p (heap (buf s))).
    assert (Hnd' : NoDup (yank_buffer_head :: Y)).
    { apply list.NoDup_cons in Hnd as [Hn1 Hn2]. apply list.NoDup_cons in Hn2 as [Hn2 Hn3].
      apply list.NoDup_cons. split; [|exact Hn3]. intros Hin. apply Hn1. by apply list_elem_of_further. }
    assert (HyY : y ∉ Y).
    { apply list.NoDup_cons in Hnd as [_ Hn2]. by apply list.NoDup_cons in Hn2 as [Hn2 _]. }
    assert (Hc1 : chain h1 yank_buffer_head Y yank_buffer_head).
    { subst h1. destruct Y as [|y2 Y'].
      - cbn [chain] in Hc |- *. destruct Hc as [Hc1 Hc2]. subst p. rewrite Hc1.
        read_links. pointer_cases; try congruence; auto.
      - cbn [chain] in Hc |- *. destruct Hc as (Hc1 & Hc2 & Hc3).
        assert (Hp : p = y2) by exact Hc1. rewrite Hp.
        assert (Hy2 : y2 <> yank_buffer_head).
        { apply list.NoDup_cons in Hnd' as [Hn _]. intros ->. apply Hn. elem_front. }
        split_and!.
        + read_links. pointer_cases; congruence.
        + read_links. pointer_cases; congruence.
        + eapply chain_ext; [| |exact Hc3].
          * intros x Hx. read_links. pointer_cases; try congruence.
            apply list.NoDup_cons in Hnd' as [Hn _]. contradiction.
          * intros x Hx. read_links. pointer_cases; try congruence.
            apply list.NoDup_cons in Hnd' as [_ Hn]. apply list.NoDup_cons in Hn as [Hn _].
            apply elem_of_app in Hx as [Hx|Hx]; [contradiction|].
            apply list_elem_of_singleton in Hx. congruence. }
    destruct (IH fuel (with_nodes h1 s) ltac:(simpl in Hfuel; lia) Hc1 Hnd')
      as (h' & Hrun & Hc' & Hframe & Htext).
    assert (Hfirst : q_forw (h1 yank_buffer_head) = p).
    { subst h1. read_links. pointer_cases; congruence. }
    change (heap (buf (with_nodes h1 s))) with h1 in Hrun, Hframe, Htext.
    rewrite Hfirst in Hrun. exists h'. split_and!.
    + rewrite Hrun. destruct_state s. reflexivity.
    + exact Hc'.
    + intros q Hq. rewrite Hframe.
      * subst h1. apply link_heap_other.
        -- intros ->. apply Hq. elem_front.
        -- intros ->. apply Hq. subst p.
           destruct Y as [|y2 Y']; cbn [chain] in Hc.
           ++ destruct Hc as [-> _]. elem_front.
           ++ destruct Hc as (-> & _). elem_front.
      * intros Hin. apply Hq. apply elem_of_cons in Hin as [->|Hin]; [elem_front|].
        by do 2 apply list_elem_of_further.
    + intros q. rewrite Htext. subst h1. apply text_of_link_heap.
Qed.

(** ** Deleting a range of lines *)

(** Membership in a list built with [::] and [++], spelled out. *)
Ltac elems := repeat progress rewrite ?elem_of_app, ?elem_of_cons, ?elem_of_nil.

Lemma last_cons_default {A} (x d : A) (l : list A) :
  List.last (x :: l) d = List.last l x.
Proof.
  revert x d. induction l as [|y l IH]; intros x d; [reflexivity|].
  change (List.last (x :: y :: l) d) with (List.last (y :: l) d).
  rewrite IH. symmetry. apply IH.
Qed.

Lemma last_elem {A} (d : A) (l : list A) : List.last l d ∈ d :: l.
Proof.
  revert d. induction l as [|y l IH]; intros d; [elem_front|].
  rewrite last_cons_default. apply list_elem_of_further, IH.
Qed.

Lemma lookup_total_snoc_hd (L : list ptr) (d : ptr) (n : nat) :
  (n <= length L)%nat -> (L ++ [d]) !!! n = List.hd d (drop n L).
Proof.
  revert n. induction L as [|x L IH]; intros n Hn.
  - simpl in Hn. assert (n = 0%nat) as -> by lia. reflexivity.
  - destruct n as [|n]; [reflexivity|]. cbn [length] in Hn.
    change (((x :: L) ++ [d]) !!! S n) with ((L ++ [d]) !!! n).
    rewrite IH by lia. reflexivity.
Qed.

Lemma lookup_total_cons_last (L : list ptr) (d : ptr) (n : nat) :
  (n <= length L)%nat -> (d :: L) !!! n = List.last (take n L) d.
Proof.
  revert d n. induction L as [|x L IH]; intros d n Hn.
  - simpl in Hn. assert (n = 0%nat) as -> by lia. reflexivity.
  - destruct n as [|n]; [reflexivity|]. cbn [length] in Hn.
    cbn [take]. rewrite last_cons_default, <- IH by lia. reflexivity.
Qed.

Lemma chain_split h p A B q :
  chain h p (A ++ B) q -> chain h p A (List.hd q B) /\ chain h (List.last A p) B q.
Proof.
  revert p. induction A as [|a A IH]; intros p; cbn [app].
  - intros Hc. split; [|exact Hc]. destruct B as [|b B]; cbn [chain List.hd] in *; tauto.
  - cbn [chain]. intros (H1 & H2 & H3). apply IH in H3 as [H3 H4].
    rewrite last_cons_default. tauto.
Qed.

Lemma chain_path h p S q : chain h p S q -> path h (q_forw (h p)) S q.
Proof.
  revert p. induction S as [|x S IH]; intros p; cbn [chain path].
  - tauto.
  - intros (H1 & H2 & H3). split; [exact H1|]. by apply IH.
Qed.

Lemma path_ext h h' bp S ep :
  (forall x, x ∈ S -> q_forw (h' x) = q_forw (h x)) -> path h bp S ep -> path h' bp S ep.
Proof.
  revert bp. induction S as [|x S IH]; intros bp Hf; cbn [path]; [tauto|].
  intros [H1 H2]. split; [exact H1|]. rewrite Hf by elem_front.
  apply IH; [|exact H2]. intros y Hy. apply Hf. by apply list_elem_of_further.
Qed.

(** A chain ends elsewhere when the links at its end are set anew. *)
Lemma chain_retarget h h' a A q q' :
  NoDup (a :: A) -> chain h a A q ->
  (forall x, x ∈ a :: A -> x <> List.last A a -> q_forw (h' x) = q_forw (h x)) ->
  (forall x, x ∈ A -> q_back (h' x) = q_back (h x)) ->
  q_forw (h' (List.last A a)) = q' -> q_back (h' q') = List.last A a ->
  chain h' a A q'.
Proof.
  revert a. induction A as [|x A IH]; intros a Hnd Hc Hf Hb Hl1 Hl2.
  - cbn [chain]. auto.
  - cbn [chain] in Hc |- *. destruct Hc as (H1 & H2 & H3).
    rewrite last_cons_default in Hl1, Hl2, Hf.
    apply list.NoDup_cons in Hnd as [Ha Hnd].
    split_and!.
    + rewrite Hf; [exact H1|elem_front|]. intros ->. apply Ha, last_elem.
    + rewrite Hb by elem_front. exact H2.
    + apply IH; auto.
      * intros y Hy Hne. apply Hf; [by apply list_elem_of_further|exact Hne].
      * intros y Hy. apply Hb. by apply list_elem_of_further.
Qed.

Lemma dup_line_node_ok (lp : ptr) (s : ed) :
  env_ok (libc s) (env_tick (libc s)) = true -> lp <> NULL ->
  dup_line_node lp s =
    (Some (brk (libc s)), allocated (copied (brk (libc s)) lp (heap (buf s))) s).
Proof.
  intros Hok Hlp. unfold dup_line_node, bind, libc_call, gets, modify, ret. cbn [fst snd].
  rewrite Hok. cbn [negb]. cbn [fst snd]. rewrite bool_decide_true by exact Hlp.
  destruct_state s. reflexivity.
Qed.

Lemma dup_line_node_fails (lp : ptr) (s : ed) :
  env_ok (libc s) (env_tick (libc s)) = false -> fst (dup_line_node lp s) = None.
Proof.
  intros Hok. unfold dup_line_node, bind, libc_call, gets, modify, ret. cbn [fst snd].
  rewrite Hok. reflexivity.
Qed.

Lemma yank_loop_done (fuel : nat) (ep lp : ptr) (s : ed) :
  yank_loop (S fuel) ep ep lp s = (Some tt, s).
Proof. cbn [yank_loop]. by rewrite bool_decide_true. Qed.

Lemma yank_loop_step (fuel : nat) (bp ep lp : ptr) (s : ed) :
  bp <> ep -> bp <> NULL -> env_ok (libc s) (env_tick (libc s)) = true ->
  yank_loop (S fuel) bp ep lp s =
    yank_loop fuel
      (q_forw (inserted (brk (libc s)) lp (copied (brk (libc s)) bp (heap (buf s))) bp))
      ep (brk (libc s))
      (settled (allocated (inserted (brk (libc s)) lp
                             (copied (brk (libc s)) bp (heap (buf s)))) s)).
Proof.
  intros Hne Hnn Hok. cbn [yank_loop]. rewrite bool_decide_false by exact Hne.
  unfold bind at 1. unfold disable_interrupts at 1, modify at 1. cbn [fst snd].
  unfold bind at 1. unfold attempt at 1.
  rewrite dup_line_node_ok by (destruct_state s; assumption).
  cbn [fst snd]. unfold bind at 1. rewrite insert_node_run. cbn [fst snd].
  unfold bind at 1, forw at 1, gets at 1. cbn [fst snd].
  unfold bind at 1, enable_interrupts at 1, modify at 1. cbn [fst snd].
  destruct_state s. reflexivity.
Qed.

Lemma yank_loop_fails (fuel : nat) (bp ep lp : ptr) (s : ed) :
  bp <> ep -> env_ok (libc s) (env_tick (libc s)) = false ->
  fst (yank_loop (S fuel) bp ep lp s) = None.
Proof.
  intros Hne Hok. cbn [yank_loop]. rewrite bool_decide_false by exact Hne.
  unfold bind at 1. unfold disable_interrupts at 1, modify at 1. cbn [fst snd].
  unfold bind at 1. unfold attempt at 1.
  destruct (dup_line_node bp _) as [r s1] eqn:Hd.
  assert (Hr : r = None).
  { change r with (fst (r, s1)). rewrite <- Hd. apply dup_line_node_fails.
    destruct_state s. assumption. }
  subst r. reflexivity.
Qed.

Lemma chain_last_forw h a A q : chain h a A q -> q_forw (h (List.last A a)) = q.
Proof.
  revert a. induction A as [|x A IH]; intros a; cbn [chain]; [tauto|].
  intros (_ & _ & H). rewrite last_cons_default. by apply IH.
Qed.

Lemma forw_copied p lp h x : q_forw (copied p lp h x) = q_forw (h x).
Proof.
  unfold copied. destruct (decide (x = p)) as [->|Hne].
  - by rewrite fn_lookup_insert.
  - by rewrite fn_lookup_insert_ne.
Qed.

Lemma back_copied p lp h x : q_back (copied p lp h x) = q_back (h x).
Proof.
  unfold copied. destruct (decide (x = p)) as [->|Hne].
  - by rewrite fn_lookup_insert.
  - by rewrite fn_lookup_insert_ne.
Qed.

Lemma copied_other p lp h x : x <> p -> copied p lp h x = h x.
Proof. intros Hne. unfold copied. by rewrite fn_lookup_insert_ne. Qed.

Lemma text_of_copied p lp h x :
  text_of (copied p lp h) x = if decide (x = p) then text_of h lp else text_of h x.
Proof.
  unfold text_of, copied. destruct (decide (x = p)) as [->|Hne].
  - by rewrite fn_lookup_insert.
  - by rewrite fn_lookup_insert_ne.
Qed.

Lemma text_of_inserted p prev h x : text_of (inserted p prev h) x = text_of h x.
Proof. unfold inserted. by rewrite !text_of_link_heap. Qed.

Lemma forw_inserted p prev h x :
  q_forw (inserted p prev h x) =
    if decide (x = prev) then p else if decide (x = p) then q_forw (h prev) else q_forw (h x).
Proof. unfold inserted. read_links. reflexivity. Qed.

Lemma back_inserted p prev h x :
  q_back (inserted p prev h x) =
    if decide (x = p) then prev
    else if decide (x = q_forw (h prev)) then p else q_back (h x).
Proof. unfold inserted. read_links. reflexivity. Qed.

Lemma inserted_other p prev h x :
  x <> p -> x <> prev -> x <> q_forw (h prev) -> inserted p prev h x = h x.
Proof.
  intros H1 H2 H3. unfold inserted. rewrite !link_heap_other; congruence.
Qed.

Lemma same_but_nodes_refl s : same_but_nodes s s.
Proof. unfold same_but_nodes. split_and!; auto. by destruct (buf s). Qed.

Lemma same_but_nodes_trans s1 s2 s3 :
  same_but_nodes s1 s2 -> same_but_nodes s2 s3 -> same_but_nodes s1 s3.
Proof.
  unfold same_but_nodes. intros (H1 & H2 & H3 & H4) (H5 & H6 & H7 & H8).
  split_and!; [|congruence|lia|lia].
  rewrite H5 at 1. rewrite H1. by destruct (buf s1).
Qed.

Lemma some_call_fails_later s s' :
  same_but_nodes s s' -> some_call_fails s' -> some_call_fails s.
Proof.
  intros (_ & H2 & _ & H4) (n & Hn & Hf). exists n. split; [lia|]. by rewrite <- H2.
Qed.

(** What is known of the state after the lines [S] have been yanked behind
    the yanked lines [Yacc]. *)
Lemma yank_loop_spec (S : list ptr) :
  forall (fuel : nat) (bp ep : ptr) (Yacc : list ptr) (s : ed),
    (length S < fuel)%nat ->
    path (heap (buf s)) bp S ep ->
    chain (heap (buf s)) yank_buffer_head Yacc yank_buffer_head ->
    NoDup (yank_buffer_head :: Yacc ++ S ++ [ep]) ->
    Forall (fun p => (NULL < p < brk (libc s))%nat) (yank_buffer_head :: Yacc ++ S ++ [ep]) ->
    exists r s',
      yank_loop fuel bp ep (List.last Yacc yank_buffer_head) s = (r, s') /\
      (r = None -> some_call_fails s) /\
      (r = Some tt ->
       exists Ynew,
         chain (heap (buf s')) yank_buffer_head (Yacc ++ Ynew) yank_buffer_head /\
         map (text_of (heap (buf s'))) Ynew = map (text_of (heap (buf s))) S /\
         Forall (fun p => (brk (libc s) <= p < brk (libc s'))%nat) Ynew /\
         NoDup Ynew /\
         (forall x, (x < brk (libc s))%nat -> x ∉ yank_buffer_head :: Yacc ->
                    heap (buf s') x = heap (buf s) x) /\
         (forall x, (x < brk (libc s))%nat ->
                    text_of (heap (buf s')) x = text_of (heap (buf s)) x) /\
         same_but_nodes s s' /\
         s_lp (buf s') = s_lp (buf s) /\ s_o_addr (buf s') = s_o_addr (buf s)).
Proof.
  induction S as [|b S IH]; intros fuel bp ep Yacc s Hfuel Hpath Hc Hnd Hall.
  - cbn [path] in Hpath. subst bp.
    destruct fuel as [|fuel]; [simpl in Hfuel; lia|].
    exists (Some tt), s. rewrite yank_loop_done. split_and!; [reflexivity|discriminate|].
    intros _. exists []. rewrite app_nil_r.
    split_and!; auto using same_but_nodes_refl; constructor.
  - cbn [path] in Hpath. destruct Hpath as [-> Hpath].
    destruct fuel as [|fuel]; [simpl in Hfuel; lia|].
    set (lp := List.last Yacc yank_buffer_head).
    set (p := brk (libc s)).
    set (h := heap (buf s)) in *.
    assert (Hlp : lp ∈ yank_buffer_head :: Yacc) by apply last_elem.
    assert (Hold : forall x, x ∈ yank_buffer_head :: Yacc ++ b :: S ++ [ep] -> (NULL < x < p)%nat).
    { intros x Hx. exact (proj1 (list.Forall_forall _ _) Hall x Hx). }
    assert (Hbep : b <> ep).
    { intros ->. apply list.NoDup_cons in Hnd as [_ Hnd]. apply list.NoDup_app in Hnd as (_ & _ & Hnd).
      apply list.NoDup_cons in Hnd as [Hnd _]. apply Hnd. apply elem_of_app. right. elem_front. }
    assert (Hbn : b <> NULL).
    { assert (NULL < b < p)%nat; [|lia]. apply Hold. apply list_elem_of_further, elem_of_app.
      right. elem_front. }
    assert (Hsep : forall x, x ∈ yank_buffer_head :: Yacc -> x ∉ b :: S ++ [ep]).
    { intros x Hx Hx'. apply list.NoDup_cons in Hnd as [Hy Hnd].
      apply list.NoDup_app in Hnd as (_ & Hd & _).
      apply elem_of_cons in Hx as [->|Hx].
      - apply Hy. apply elem_of_app. by right.
      - by apply (Hd x). }
    assert (HndY : NoDup (yank_buffer_head :: Yacc)).
    { apply list.NoDup_cons in Hnd as [Hy Hnd]. apply list.NoDup_app in Hnd as (Hn & _ & _).
      apply list.NoDup_cons. split; [|exact Hn]. intros Hin. apply Hy, elem_of_app. by left. }
    assert (HndS : NoDup (S ++ [ep])).
    { apply list.NoDup_cons in Hnd as [_ Hnd]. apply list.NoDup_app in Hnd as (_ & _ & Hnd).
      by apply list.NoDup_cons in Hnd as [_ Hnd]. }
    assert (HbS : b ∉ S ++ [ep]).
    { apply list.NoDup_cons in Hnd as [_ Hnd]. apply list.NoDup_app in Hnd as (_ & _ & Hnd).
      by apply list.NoDup_cons in Hnd as [Hnd _]. }
    assert (HpY : p ∉ yank_buffer_head :: Yacc).
    { intros Hin. assert (NULL < p < p)%nat; [|lia]. apply Hold.
      apply elem_of_cons in Hin as [Hin|Hin]; [rewrite Hin; elem_front|].
      apply list_elem_of_further, elem_of_app. by left. }
    assert (HpS : p ∉ b :: S ++ [ep]).
    { intros Hin. assert (NULL < p < p)%nat; [|lia]. apply Hold.
      apply list_elem_of_further, elem_of_app. by right. }
    destruct (env_ok (libc s) (env_tick (libc s))) eqn:Hok.
    + rewrite yank_loop_step by assumption. fold p h.
      set (h1 := inserted p lp (copied p b h)).
      set (s1 := settled (allocated h1 s)).
      assert (Hlpf : q_forw (h lp) = yank_buffer_head) by (apply chain_last_forw; exact Hc).
      assert (Hplp : p <> lp) by (intros Heq; apply HpY; by rewrite Heq).
      assert (Hf1 : forall x, x <> p -> x <> lp -> q_forw (h1 x) = q_forw (h x)).
      { intros x H1 H2. subst h1. rewrite forw_inserted, !forw_copied.
        pointer_cases; congruence. }
      assert (Hb1 : forall x, x <> p -> x <> yank_buffer_head -> q_back (h1 x) = q_back (h x)).
      { intros x H1 H2. subst h1. rewrite back_inserted, !forw_copied, !back_copied, Hlpf.
        pointer_cases; congruence. }
      assert (Hh1 : forall x, x <> p -> x ∉ yank_buffer_head :: Yacc -> h1 x = h x).
      { intros x H1 H2. subst h1. rewrite inserted_other, copied_other; auto.
        - intros ->. by apply H2.
        - rewrite forw_copied, Hlpf. intros ->. apply H2. elem_front. }
      assert (Ht1 : forall x, x <> p -> text_of h1 x = text_of h x).
      { intros x H1. subst h1. rewrite text_of_inserted, text_of_copied.
        by rewrite decide_False. }
      assert (Htp : text_of h1 p = text_of h b).
      { subst h1. rewrite text_of_inserted, text_of_copied. by rewrite decide_True. }
      assert (Hs1 : same_but_nodes s s1).
      { subst s1. unfold same_but_nodes. destruct_state s. cbn. split_and!; auto; lia. }
      assert (Hbrk1 : brk (libc s1) = Datatypes.S p) by (subst s1 p; destruct_state s; reflexivity).
      assert (Hheap1 : heap (buf s1) = h1) by (subst s1; destruct_state s; reflexivity).
      assert (Hlp1 : s_lp (buf s1) = s_lp (buf s) /\ s_o_addr (buf s1) = s_o_addr (buf s))
        by (subst s1; destruct_state s; split; reflexivity).
      destruct (IH fuel (q_forw (h1 b)) ep (Yacc ++ [p]) s1) as (r & s' & Hrun & Hnone & Hsome).
      * simpl in Hfuel. lia.
      * rewrite Hheap1. rewrite Hf1.
        -- eapply path_ext; [|exact Hpath]. intros x Hx. apply Hf1.
           ++ intros ->. apply HpS. apply list_elem_of_further, elem_of_app. by left.
           ++ intros ->. apply (Hsep lp Hlp). apply list_elem_of_further, elem_of_app. by left.
        -- intros ->. apply HpS. elem_front.
        -- intros ->. apply (Hsep lp Hlp). elem_front.
      * rewrite Hheap1. apply chain_snoc. split_and!.
        -- eapply chain_retarget; [exact HndY|exact Hc| | | |].
           ++ intros x Hx Hne. apply Hf1; [|exact Hne]. intros ->. by apply HpY.
           ++ intros x Hx. apply Hb1.
              ** intros ->. apply HpY. by apply list_elem_of_further.
              ** intros ->. by apply list.NoDup_cons in HndY as [HndY _].
           ++ fold lp. subst h1. rewrite forw_inserted. by rewrite decide_True.
           ++ fold lp. subst h1. rewrite back_inserted. by rewrite decide_True.
        -- subst h1. rewrite forw_inserted, forw_copied, Hlpf.
           rewrite decide_False by exact Hplp. by rewrite decide_True.
        -- subst h1. rewrite back_inserted, forw_copied, Hlpf.
           rewrite decide_False; [by rewrite decide_True|].
           intros Heq. apply HpY. rewrite <- Heq. elem_front.
      * rewrite <- app_assoc. cbn [app].
        apply list.NoDup_cons. split.
        -- intros Hin. apply list.NoDup_cons in Hnd as [Hy _]. apply Hy.
           assert (Hyp : yank_buffer_head <> p).
           { intros Heq. apply HpY. rewrite <- Heq. elem_front. }
           revert Hin. elems. tauto.
        -- apply list.NoDup_app. split_and!.
           ++ by apply list.NoDup_cons in HndY as [_ HndY].
           ++ intros x Hx Hin. apply elem_of_cons in Hin as [->|Hin].
              ** apply HpY. by apply list_elem_of_further.
              ** apply (Hsep x); by apply list_elem_of_further.
           ++ apply list.NoDup_cons. split; [|exact HndS].
              intros Hin. apply HpS. by apply list_elem_of_further.
      * rewrite Hbrk1. apply list.Forall_forall. intros x Hx.
        destruct (decide (x = p)) as [->|Hne].
        -- unfold NULL. assert (NULL < yank_buffer_head < p)%nat by (apply Hold; elem_front).
           unfold NULL in *. lia.
        -- assert (NULL < x < p)%nat; [|lia]. apply Hold.
           revert Hx. elems. tauto.
      * fold lp in Hrun |- *. rewrite last_last in Hrun.
        exists r, s'. split; [exact Hrun|]. split.
        -- intros Hr. eapply some_call_fails_later; [exact Hs1|]. by apply Hnone.
        -- intros Hr. destruct (Hsome Hr) as (Ynew & H1 & H2 & H3 & H4 & H5 & H6 & H7 & H8 & H9).
           rewrite Hbrk1, Hheap1 in *.
           exists (p :: Ynew). split_and!.
           ++ rewrite <- app_assoc in H1. exact H1.
           ++ cbn [map]. f_equal.
              ** rewrite H6 by lia. exact Htp.
              ** rewrite H2. apply map_ext_in. intros x Hx. apply Ht1.
                 intros ->. apply HpS. apply list_elem_of_further, elem_of_app. left.
                 by apply list_elem_of_In.
           ++ constructor.
              ** destruct Hs1 as (_ & _ & Hb & _). destruct H7 as (_ & _ & Hb' & _).
                 rewrite Hbrk1 in Hb'. fold p in Hb. lia.
              ** eapply list.Forall_impl; [exact H3|]. intros x Hx. simpl in Hx. lia.
           ++ apply list.NoDup_cons. split; [|exact H4].
              intros Hin. pose proof (proj1 (list.Forall_forall _ _) H3 p Hin) as Hlt.
              simpl in Hlt. lia.
           ++ intros x Hx Hnin. rewrite H5.
              ** apply Hh1; [lia|exact Hnin].
              ** lia.
              ** intros Hin. rewrite app_comm_cons in Hin. apply elem_of_app in Hin as [Hin|Hin];
                   [contradiction|]. apply list_elem_of_singleton in Hin. lia.
           ++ intros x Hx. rewrite H6 by lia. apply Ht1. lia.
           ++ eapply same_but_nodes_trans; eassumption.
           ++ rewrite H8. apply Hlp1.
           ++ rewrite H9. apply Hlp1.
    + exists (fst (yank_loop (Datatypes.S fuel) b ep lp s)),
             (snd (yank_loop (Datatypes.S fuel) b ep lp s)).
      split; [apply surjective_pairing|]. split.
      * intros _. exists (env_tick (libc s)). split; [lia|exact Hok].
      * rewrite yank_loop_fails by assumption. discriminate.
Qed.

Lemma submseteq_NoDup (l k : list ptr) : l ⊆+ k -> NoDup k -> NoDup l.
Proof.
  induction 1 as [|x l k Hs IH|x y l|x l k Hs IH|l k m H1 IH1 H2 IH2]; intros Hnd.
  - constructor.
  - apply list.NoDup_cons in Hnd as [Hx Hnd]. apply list.NoDup_cons. split; [|by apply IH].
    intros Hin. apply Hx. eapply elem_of_submseteq; eassumption.
  - revert Hnd. rewrite !list.NoDup_cons. elems. intuition congruence.
  - apply list.NoDup_cons in Hnd as [_ Hnd]. by apply IH.
  - auto.
Qed.

Lemma submseteq_Forall (P : ptr -> Prop) (l k : list ptr) :
  l ⊆+ k -> Forall P k -> Forall P l.
Proof.
  intros Hs Hall. apply list.Forall_forall. intros x Hx.
  apply (proj1 (list.Forall_forall _ _) Hall). eapply elem_of_submseteq; eassumption.
Qed.

(** The range [from] ... [to] cuts the lines in three. *)
Lemma lines_split (L : list ptr) (from to : Z) :
  1 <= from <= to -> to <= Z.of_nat (length L) ->
  L = take (Z.to_nat (from - 1)) L ++ lines_between L from to ++ drop (Z.to_nat to) L.
Proof.
  intros H1 H2. unfold lines_between.
  rewrite <- (take_drop (Z.to_nat (from - 1)) L) at 1. f_equal.
  rewrite <- (take_drop (Z.to_nat (to - from + 1)) (drop (Z.to_nat (from - 1)) L)) at 1.
  f_equal. rewrite drop_drop. f_equal. lia.
Qed.

Lemma lines_between_length (L : list ptr) (from to : Z) :
  1 <= from <= to -> to <= Z.of_nat (length L) ->
  length (lines_between L from to) = Z.to_nat (to - from + 1).
Proof.
  intros H1 H2. unfold lines_between. rewrite length_take, length_drop. lia.
Qed.

Lemma lines_without_length (L : list ptr) (from to : Z) :
  1 <= from <= to -> to <= Z.of_nat (length L) ->
  Z.of_nat (length (lines_without L from to)) = Z.of_nat (length L) - (to - from + 1).
Proof.
  intros H1 H2. unfold lines_without. rewrite length_app, length_take, length_drop. lia.
Qed.

Lemma lines_between_first (L : list ptr) (from to : Z) :
  1 <= from <= to -> to <= Z.of_nat (length L) ->
  exists S', lines_between L from to = node_at L from :: S'.
Proof.
  intros H1 H2. unfold lines_between.
  rewrite node_at_pos by lia.
  destruct (lookup_lt_is_Some_2 L (Z.to_nat (from - 1)) ltac:(lia)) as [x Hx].
  rewrite (drop_S _ _ _ Hx). rewrite (list_lookup_total_correct _ _ _ Hx).
  replace (Z.to_nat (to - from + 1)) with (Datatypes.S (Z.to_nat (to - from))) by lia.
  cbn [take]. eauto.
Qed.

Lemma node_at_before (L : list ptr) (from : Z) :
  1 <= from -> from - 1 <= Z.of_nat (length L) ->
  node_at L (from - 1) = List.last (take (Z.to_nat (from - 1)) L) buffer_head.
Proof. intros H1 H2. unfold node_at. apply lookup_total_cons_last. lia. Qed.

Lemma node_at_after (L : list ptr) (to : Z) :
  0 <= to <= Z.of_nat (length L) ->
  node_at L (if to + 1 >? Z.of_nat (length L) then 0 else to + 1) =
    List.hd buffer_head (drop (Z.to_nat to) L).
Proof.
  intros H. rewrite node_at_inc by lia. unfold chain_nodes.
  change ((buffer_head :: L ++ [buffer_head]) !!! Datatypes.S (Z.to_nat to))
    with ((L ++ [buffer_head]) !!! Z.to_nat to).
  apply lookup_total_snoc_hd. lia.
Qed.

Lemma clear_yank_buffer_spec (s : ed) (L Y : list ptr) :
  buffer_ok s L Y ->
  exists h',
    clear_yank_buffer s = (Some tt, settled (with_nodes h' s)) /\
    chain h' yank_buffer_head [] yank_buffer_head /\
    (forall p, p ∉ yank_buffer_head :: Y -> h' p = heap (buf s) p) /\
    (forall p, text_of h' p = text_of (heap (buf s)) p).
Proof.
  intros [Hr Hy Hn Hl Hca Hcn Hb].
  assert (HndY : NoDup (yank_buffer_head :: Y)).
  { eapply submseteq_NoDup; [|exact Hn]. solve_submseteq. }
  assert (Hlen : (length Y <= brk (libc s))%nat).
  { apply nodes_bounded.
    - eapply submseteq_NoDup; [|exact Hn]. solve_submseteq.
    - eapply submseteq_Forall; [|exact Hb]. solve_submseteq. }
  destruct (clear_yank_loop_spec Y (brk (libc s))
              (on_sig (fun g => with_mutex (mutex g + 1) g) s) Hlen)
    as (h' & Hrun & Hc' & Hframe & Htext).
  { destruct_state s. exact Hy. }
  { exact HndY. }
  exists h'. split_and!.
  - unfold clear_yank_buffer, bind, forw, gets, disable_interrupts, modify. cbn [fst snd].
    replace (heap (buf (on_sig (fun g => with_mutex (mutex g + 1) g) s)))
      with (heap (buf s)) in Hrun by (destruct_state s; reflexivity).
    replace (brk (libc (on_sig (fun g => with_mutex (mutex g + 1) g) s)))
      with (brk (libc s)) by (destruct_state s; reflexivity).
    rewrite Hrun. cbn [fst snd]. destruct_state s. reflexivity.
  - exact Hc'.
  - intros p Hp. rewrite Hframe by exact Hp. destruct_state s. reflexivity.
  - intros p. rewrite Htext. destruct_state s. reflexivity.
Qed.

(** No node of the ring of lines is in the ring of yanked lines. *)
Lemma ring_not_yank (L Y : list ptr) (x : ptr) :
  NoDup (buffer_head :: yank_buffer_head :: L ++ Y) ->
  x ∈ buffer_head :: L ++ [buffer_head] -> x ∉ yank_buffer_head :: Y.
Proof.
  rewrite !list.NoDup_cons, !list.NoDup_app. elems.
  intros (H1 & H2 & H3 & H4 & H5) Hx Hin.
  assert (Hx' : x = buffer_head \/ x ∈ L) by tauto. clear Hx.
  destruct Hx' as [->|Hx], Hin as [Heq|Hin].
  - apply H1. left. exact Heq.
  - apply H1. tauto.
  - subst x. tauto.
  - by apply (H4 x).
Qed.

Lemma same_but_nodes_fields s s' :
  same_but_nodes s s' ->
  current_addr_ (buf s') = current_addr_ (buf s) /\
  last_addr_ (buf s') = last_addr_ (buf s) /\
  modified_ (buf s') = modified_ (buf s) /\
  ustack (buf s') = ustack (buf s) /\
  usize (buf s') = usize (buf s) /\
  ustack_alloc (buf s') = ustack_alloc (buf s).
Proof.
  intros (H & _). rewrite H. destruct (buf s). split_and!; reflexivity.
Qed.

(** [yank_lines] leaves the lines alone and puts copies of the lines from
    [from] to [to] in the yank buffer; it fails only when an allocation
    does. *)
Lemma yank_lines_spec (from to : Z) (s : ed) (L Y : list ptr) :
  buffer_ok s L Y -> 1 <= from <= to -> to <= last_addr_ (buf s) ->
  exists r s',
    yank_lines from to s = (r, s') /\
    (r = None -> some_call_fails s) /\
    (r = Some tt ->
     exists Y',
       buffer_ok s' L Y' /\
       map (text_of (heap (buf s'))) Y' = map (text_of (heap (buf s))) (lines_between L from to) /\
       Forall (fun p => (brk (libc s) <= p)%nat) Y' /\
       (forall x, (x < brk (libc s))%nat -> x ∉ yank_buffer_head :: Y ->
                  heap (buf s') x = heap (buf s) x) /\
       (forall x, (x < brk (libc s))%nat ->
                  text_of (heap (buf s')) x = text_of (heap (buf s)) x) /\
       same_but_nodes s s').
Proof.
  intros Hok Hft Hto.
  pose proof (ok_last _ _ _ Hok) as Hlast.
  set (a := if to + 1 >? last_addr_ (buf s) then 0 else to + 1).
  assert (Ha : 0 <= a <= last_addr_ (buf s)) by (subst a; destruct (Z.gtb_spec (to + 1) (last_addr_ (buf s))); lia).
  destruct (search_line_node_ok s L Y a Hok Ha) as [Hrun1 Hok1].
  set (ep := node_at L a) in *. set (s1 := cached ep a s) in *.
  assert (Hlast1 : last_addr_ (buf s1) = last_addr_ (buf s)) by (subst s1; destruct_state s; reflexivity).
  destruct (search_line_node_ok s1 L Y from Hok1 ltac:(lia)) as [Hrun2 Hok2].
  set (bp := node_at L from) in *. set (s2 := cached bp from s1) in *.
  destruct (clear_yank_buffer_spec s2 L Y Hok2) as (h' & Hrun3 & Hc3 & Hframe3 & Htext3).
  set (s3 := settled (with_nodes h' s2)) in *.
  assert (Hheap2 : heap (buf s2) = heap (buf s)) by (subst s2 s1; destruct_state s; reflexivity).
  rewrite Hheap2 in Hframe3, Htext3.
  assert (Hheap3 : heap (buf s3) = h') by (subst s3 s2 s1; destruct_state s; reflexivity).
  assert (Hbrk3 : brk (libc s3) = brk (libc s)) by (subst s3 s2 s1; destruct_state s; reflexivity).
  assert (Hlast3 : last_addr_ (buf s3) = last_addr_ (buf s)) by (subst s3 s2 s1; destruct_state s; reflexivity).
  assert (Hlp3 : s_lp (buf s3) = bp /\ s_o_addr (buf s3) = from)
    by (subst s3 s2 s1; destruct_state s; split; reflexivity).
  assert (Hs3 : same_but_nodes s s3).
  { subst s3 s2 s1. unfold same_but_nodes. destruct_state s. cbn. split_and!; auto. }
  (* the three parts of the lines *)
  pose proof (lines_split L from to Hft ltac:(lia)) as Hsplit.
  set (A := take (Z.to_nat (from - 1)) L) in *.
  set (B := drop (Z.to_nat to) L) in *.
  set (S := lines_between L from to) in *.
  assert (Hep : ep = List.hd buffer_head B).
  { subst ep a B. rewrite Hlast. apply node_at_after. lia. }
  destruct (lines_between_first L from to Hft ltac:(lia)) as [S' HS'].
  fold S bp in HS'.
  destruct Hok as [Hr Hy Hn _ Hca Hcn Hb].
  assert (Hring3 : chain h' buffer_head L buffer_head).
  { eapply chain_ext; [| |exact Hr].
    - intros x Hx. rewrite Hframe3; [reflexivity|].
      apply (ring_not_yank L Y x Hn). revert Hx. elems. tauto.
    - intros x Hx. rewrite Hframe3; [reflexivity|].
      apply (ring_not_yank L Y x Hn). revert Hx. elems. tauto. }
  assert (Hpath : path h' bp S ep).
  { rewrite Hsplit in Hring3. apply chain_split in Hring3 as [_ Hring3].
    apply chain_split in Hring3 as [Hring3 _]. apply chain_path in Hring3.
    rewrite Hep. rewrite HS' in Hring3 |- *. cbn [path] in Hring3 |- *. tauto. }
  assert (HndS : NoDup (yank_buffer_head :: [] ++ S ++ [ep])).
  { rewrite Hep. rewrite Hsplit in Hn. destruct B as [|e B']; cbn [List.hd].
    - eapply submseteq_NoDup; [|exact Hn]. solve_submseteq.
    - eapply submseteq_NoDup; [|exact Hn]. solve_submseteq. }
  assert (HallS : Forall (fun p => (NULL < p < brk (libc s3))%nat)
                         (yank_buffer_head :: [] ++ S ++ [ep])).
  { rewrite Hbrk3, Hep. rewrite Hsplit in Hb. destruct B as [|e B']; cbn [List.hd].
    - eapply submseteq_Forall; [|exact Hb]. solve_submseteq.
    - eapply submseteq_Forall; [|exact Hb]. solve_submseteq. }
  destruct (yank_loop_spec S (Datatypes.S (Z.to_nat (last_addr_ (buf s) + 1))) bp ep [] s3)
    as (r & s' & Hrun4 & Hnone & Hsome).
  { subst S. rewrite lines_between_length by lia. lia. }
  { by rewrite Hheap3. }
  { by rewrite Hheap3. }
  { exact HndS. }
  { exact HallS. }
  exists r, s'. split_and!.
  - unfold yank_lines. unfold bind at 1. rewrite inc_addr_run. cbn [fst snd]. fold a.
    unfold bind at 1. rewrite Hrun1. cbn [fst snd]. fold s1.
    unfold bind at 1. rewrite Hrun2. cbn [fst snd]. fold s2.
    unfold bind at 1. rewrite Hrun3. cbn [fst snd]. fold s3.
    unfold bind at 1, last_addr at 1, gets at 1. cbn [fst snd]. rewrite Hlast3.
    exact Hrun4.
  - intros Hr'. eapply some_call_fails_later; [exact Hs3|]. by apply Hnone.
  - intros Hr'. destruct (Hsome Hr') as (Ynew & H1 & H2 & H3 & H4 & H5 & H6 & H7 & H8 & H9).
    rewrite Hbrk3, Hheap3 in *. cbn [app] in H1.
    assert (Hfr : forall x, (x < brk (libc s))%nat -> x ∉ yank_buffer_head :: Y ->
                            heap (buf s') x = heap (buf s) x).
    { intros x Hx Hnin. rewrite H5; [by apply Hframe3|exact Hx|].
      intros Hin. apply Hnin. revert Hin. elems. tauto. }
    assert (Hnew : forall x, x ∈ Ynew -> (brk (libc s) <= x < brk (libc s'))%nat).
    { intros x Hx. exact (proj1 (list.Forall_forall _ _) H3 x Hx). }
    assert (Hold : forall x, x ∈ buffer_head :: yank_buffer_head :: L ++ Y ->
                             (NULL < x < brk (libc s))%nat).
    { intros x Hx. exact (proj1 (list.Forall_forall _ _) Hb x Hx). }
    destruct (same_but_nodes_fields _ _ H7) as (_ & Hl' & _).
    exists Ynew. split_and!.
    + split.
      * eapply chain_ext; [| |exact Hr].
        -- intros x Hx. rewrite Hfr; [reflexivity| |].
           ++ apply Hold. revert Hx. elems. tauto.
           ++ apply (ring_not_yank L Y x Hn). revert Hx. elems. tauto.
        -- intros x Hx. rewrite Hfr; [reflexivity| |].
           ++ apply Hold. revert Hx. elems. tauto.
           ++ apply (ring_not_yank L Y x Hn). revert Hx. elems. tauto.
      * exact H1.
      * change (NoDup ((buffer_head :: yank_buffer_head :: L) ++ Ynew)).
        apply list.NoDup_app. split_and!.
        -- eapply submseteq_NoDup; [|exact Hn]. solve_submseteq.
        -- intros x Hx Hin. apply Hnew in Hin.
           assert (NULL < x < brk (libc s))%nat; [|lia].
           apply Hold. revert Hx. elems. tauto.
        -- exact H4.
      * rewrite Hl', Hlast3. exact Hlast.
      * rewrite H9, (proj2 Hlp3), Hl', Hlast3. lia.
      * rewrite H8, H9, (proj1 Hlp3), (proj2 Hlp3). reflexivity.
      * apply list.Forall_forall. intros x Hx.
        destruct H7 as (_ & _ & Hbrk' & _). rewrite Hbrk3 in Hbrk'.
        change (x ∈ (buffer_head :: yank_buffer_head :: L) ++ Ynew) in Hx.
        apply elem_of_app in Hx as [Hx|Hx].
        -- assert (NULL < x < brk (libc s))%nat; [|lia]. apply Hold. revert Hx. elems. tauto.
        -- apply Hnew in Hx. assert (NULL < buffer_head < brk (libc s))%nat by (apply Hold; elem_front).
           unfold NULL in *. lia.
    + rewrite H2. apply map_ext_in. intros x Hx. apply Htext3.
    + eapply list.Forall_impl; [exact H3|]. intros x Hx. simpl in Hx. lia.
    + exact Hfr.
    + intros x Hx. rewrite H6 by exact Hx. apply Htext3.
    + eapply same_but_nodes_trans; eassumption.
Qed.

Lemma bind_fails {A B} (c : M A) (k : A -> M B) (s : ed) :
  (forall a s', fst (k a s') = None) -> fst (bind c k s) = None.
Proof.
  intros Hk. unfold bind. destruct (c s) as [[a|] s']; [|reflexivity].
  destruct (k a s') as [r s''] eqn:E. specialize (Hk a s'). rewrite E in Hk. exact Hk.
Qed.

Lemma fail_fails {A} (s : ed) : fst (@fail A s) = None.
Proof. reflexivity. Qed.

(** The end of [push_undo_atom], once the stack is large enough. *)
Lemma push_undo_atom_end (type from to : Z) (n : nat) (s : ed) (L Y : list ptr) :
  buffer_ok s L Y -> 0 <= from <= last_addr_ (buf s) -> 0 <= to <= last_addr_ (buf s) ->
  exists s',
    bind (search_line_node to) (fun tail =>
      bind (search_line_node from) (fun head =>
        bind (modify (on_buf (fun b =>
                with_ustack (ustack b ++ [Undo_atom type head tail]) b))) (fun _ =>
          bind enable_interrupts (fun _ => ret n)))) s = (Some n, s') /\
    buffer_ok s' L Y /\ heap (buf s') = heap (buf s) /\
    ustack (buf s') = ustack (buf s) ++ [Undo_atom type (node_at L from) (node_at L to)] /\
    s_o_addr (buf s') = from /\
    last_addr_ (buf s') = last_addr_ (buf s) /\
    current_addr_ (buf s') = current_addr_ (buf s) /\
    modified_ (buf s') = modified_ (buf s) /\
    libc s' = libc s /\ gl s' = gl s.
Proof.
  intros Hok Hfrom Hto.
  destruct (search_line_node_ok s L Y to Hok Hto) as [Hrun1 Hok1].
  set (s1 := cached (node_at L to) to s) in *.
  assert (Hlast1 : last_addr_ (buf s1) = last_addr_ (buf s))
    by (subst s1; destruct_state s; reflexivity).
  destruct (search_line_node_ok s1 L Y from Hok1 ltac:(lia)) as [Hrun2 Hok2].
  set (s2 := cached (node_at L from) from s1) in *.
  eexists. split.
  - unfold bind at 1. rewrite Hrun1. cbn [fst snd]. fold s1.
    unfold bind at 1. rewrite Hrun2. cbn [fst snd]. fold s2.
    reflexivity.
  - cbn [snd]. split_and!.
    + eapply buffer_ok_same; [| | | | |exact Hok2]; destruct_state s; reflexivity.
    + subst s2 s1. destruct_state s. reflexivity.
    + subst s2 s1. destruct_state s. reflexivity.
    + subst s2 s1. destruct_state s. reflexivity.
    + subst s2 s1. destruct_state s. reflexivity.
    + subst s2 s1. destruct_state s. reflexivity.
    + subst s2 s1. destruct_state s. reflexivity.
    + subst s2 s1. destruct_state s. reflexivity.
    + subst s2 s1. destruct_state s. reflexivity.
Qed.

(** [push_undo_atom] puts the atom on the stack and leaves the lines alone;
    it fails only when the stack cannot grow. *)
Lemma push_undo_atom_spec (type from to : Z) (s : ed) (L Y : list ptr) :
  buffer_ok s L Y -> 0 <= from <= last_addr_ (buf s) -> 0 <= to <= last_addr_ (buf s) ->
  exists r s',
    push_undo_atom type from to s = (r, s') /\
    (r = None ->
     some_call_fails s \/ INT_MAX <= to_unsigned ((u_idx (buf s) + 1) * sizeof_undo_t)) /\
    (forall n, r = Some n ->
       buffer_ok s' L Y /\ heap (buf s') = heap (buf s) /\
       ustack (buf s') = ustack (buf s) ++ [Undo_atom type (node_at L from) (node_at L to)] /\
       s_o_addr (buf s') = from /\
       last_addr_ (buf s') = last_addr_ (buf s) /\
       current_addr_ (buf s') = current_addr_ (buf s) /\
       modified_ (buf s') = modified_ (buf s) /\
       env_ok (libc s') = env_ok (libc s) /\
       (env_tick (libc s) <= env_tick (libc s'))%nat /\
       brk (libc s') = brk (libc s) /\ gl s' = gl s).
Proof.
  intros Hok Hfrom Hto.
  unfold push_undo_atom. unfold bind at 1, gets at 1. cbn [fst snd].
  unfold bind at 1, disable_interrupts at 1, modify at 1. cbn [fst snd].
  set (s0 := on_sig (fun g => with_mutex (mutex g + 1) g) s).
  assert (Hok0 : buffer_ok s0 L Y).
  { eapply buffer_ok_same; [| | | | |exact Hok]; subst s0; destruct_state s; reflexivity. }
  unfold bind at 1.
  destruct (to_unsigned (usize (buf s)) <? to_unsigned ((u_idx (buf s) + 1) * sizeof_undo_t)) eqn:Hgrow.
  - destruct (to_unsigned ((u_idx (buf s) + 1) * sizeof_undo_t) >=? INT_MAX) eqn:Hmax.
    + destruct (bind (set_error_msg _) _ s0) as [o s0'] eqn:E.
      assert (Ho : o = None).
      { change o with (fst (o, s0')). rewrite <- E.
        apply bind_fails. intros _ ?. apply bind_fails. intros _ ?.
        apply bind_fails. intros _ ?. apply fail_fails. }
      subst o. exists None, s0'. split_and!; [reflexivity| |discriminate].
      intros _. right. lia.
    + unfold bind at 1, libc_call at 1. cbn [fst snd].
      destruct (env_ok (libc s0) (env_tick (libc s0))) eqn:Hcall; cbn [negb].
      * unfold modify at 1. cbn [fst snd].
        match goal with |- context [bind (search_line_node to) ?k ?st] => set (s1 := st) end.
        destruct (push_undo_atom_end type from to (length (ustack (buf s))) s1 L Y)
          as (s' & Hrun & H1 & H2 & H3 & H4 & H5 & H6 & H7 & H8 & H9).
        { eapply buffer_ok_same; [| | | | |exact Hok]; subst s1 s0; destruct_state s; reflexivity. }
        { subst s1 s0; destruct_state s; exact Hfrom. }
        { subst s1 s0; destruct_state s; exact Hto. }
        exists (Some (length (ustack (buf s)))), s'. split; [exact Hrun|].
        split; [discriminate|]. intros n _.
        split_and!; [exact H1|rewrite H2|rewrite H3|exact H4|rewrite H5|rewrite H6|rewrite H7
                    |rewrite H8|rewrite H8|rewrite H8|rewrite H9];
          subst s1 s0; destruct_state s; cbn; auto.
      * destruct (bind show_strerror _ _) as [o s0'] eqn:E.
        assert (Ho : o = None).
        { change o with (fst (o, s0')). rewrite <- E.
          apply bind_fails. intros _ ?. apply bind_fails. intros _ ?.
          apply bind_fails. intros _ ?. apply bind_fails. intros _ ?. apply fail_fails. }
        subst o. exists None, s0'. split_and!; [reflexivity| |discriminate].
        intros _. left. exists (env_tick (libc s)). split; [lia|].
        subst s0. destruct_state s. exact Hcall.
  - unfold ret at 1.
    destruct (push_undo_atom_end type from to (length (ustack (buf s))) s0 L Y)
      as (s' & Hrun & H1 & H2 & H3 & H4 & H5 & H6 & H7 & H8 & H9).
    { exact Hok0. }
    { subst s0; destruct_state s; exact Hfrom. }
    { subst s0; destruct_state s; exact Hto. }
    exists (Some (length (ustack (buf s)))), s'. split; [exact Hrun|].
    split; [discriminate|]. intros n _.
    split_and!; [exact H1|rewrite H2|rewrite H3|exact H4|rewrite H5|rewrite H6|rewrite H7
                |rewrite H8|rewrite H8|rewrite H8|rewrite H9];
      subst s0; destruct_state s; cbn; auto.
Qed.

(** Linking the node before a range to the node after it takes the range
    out of the ring. *)
Lemma ring_cut h (A S B : list ptr) :
  NoDup (buffer_head :: A ++ S ++ B) ->
  chain h buffer_head (A ++ S ++ B) buffer_head ->
  chain (link_heap (List.last A buffer_head) (List.hd buffer_head B) h)
        buffer_head (A ++ B) buffer_head.
Proof.
  intros Hnd Hc.
  set (p := List.last A buffer_head). set (n := List.hd buffer_head B).
  assert (Hp : p ∈ buffer_head :: A) by apply last_elem.
  apply chain_split in Hc as [Hc1 Hc2]. apply chain_split in Hc2 as [_ Hc3].
  assert (HndA : NoDup (buffer_head :: A)).
  { eapply submseteq_NoDup; [|exact Hnd]. solve_submseteq. }
  assert (HnA : n ∉ A).
  { subst n. destruct B as [|e B']; cbn [List.hd].
    - by apply list.NoDup_cons in HndA as [HndA _].
    - revert Hnd. rewrite !list.NoDup_cons, !list.NoDup_app. elems.
      intros (_ & _ & H & _) Hin. apply (H e Hin). elems. tauto. }
  assert (Hcut : chain (link_heap p n h) buffer_head A n).
  { eapply chain_retarget; [exact HndA|exact Hc1| | | |].
    - intros x Hx Hne. read_links. fold p in Hne. by rewrite decide_False.
    - intros x Hx. read_links. rewrite decide_False; [reflexivity|]. intros ->. by apply HnA.
    - fold p. read_links. by rewrite decide_True.
    - fold p. read_links. by rewrite decide_True. }
  destruct B as [|e B'].
  - rewrite app_nil_r. exact Hcut.
  - cbn [List.hd] in n. apply chain_app. split; [exact Hcut|].
    cbn [chain] in Hc3. destruct Hc3 as (_ & _ & Hc3).
    eapply chain_ext; [| |exact Hc3].
    + intros x Hx. read_links. rewrite decide_False; [reflexivity|]. intros ->.
      revert Hnd Hp Hx. rewrite !list.NoDup_cons, !list.NoDup_app, !list.NoDup_cons. elems.
      intros (H1 & _ & H2 & _) [Hp|Hp] Hx.
      * apply H1. rewrite <- Hp. tauto.
      * apply (H2 p Hp). elems. tauto.
    + intros x Hx. read_links. rewrite decide_False; [reflexivity|]. intros ->.
      revert Hnd Hx. rewrite !list.NoDup_cons, !list.NoDup_app, !list.NoDup_cons. elems.
      subst n. intros (H1 & _ & _ & _ & _ & H2 & _) [Hx|[Hx|[]]].
      * tauto.
      * apply H1. rewrite <- Hx. tauto.
Qed.

Lemma unset_active_loop_run (fuel : nat) :
  forall (bp ep : ptr) (s : ed),
    exists g', unset_active_loop fuel bp ep s = (Some tt, on_gl (fun _ => g') s).
Proof.
  induction fuel as [|fuel IH]; intros bp ep s; cbn [unset_active_loop].
  - exists (gl s). destruct_state s. reflexivity.
  - destruct (bool_decide (bp = ep)).
    + exists (gl s). destruct_state s. reflexivity.
    + unfold bind at 1, modify at 1. cbn [fst snd].
      unfold bind at 1, gets at 1. cbn [fst snd].
      match goal with |- context [unset_active_loop fuel ?b ep ?st] =>
        destruct (IH b ep st) as [g' Hg'] end.
      exists g'. rewrite Hg'. destruct_state s. reflexivity.
Qed.

Lemma unset_active_nodes_run (bp ep : ptr) (s : ed) :
  exists g', unset_active_nodes bp ep s = (Some tt, on_gl (fun _ => g') s).
Proof.
  unfold unset_active_nodes, bind, gets. cbn [fst snd]. apply unset_active_loop_run.
Qed.

Lemma node_at_lines_without (L : list ptr) (from to : Z) :
  1 <= from <= to -> to <= Z.of_nat (length L) ->
  node_at (lines_without L from to) (from - 1) = node_at L (from - 1).
Proof.
  intros H1 H2. unfold node_at, lines_without.
  rewrite !lookup_total_cons_last by (rewrite ?length_app, ?length_take, ?length_drop; lia).
  f_equal. rewrite take_app_le by (rewrite length_take; lia).
  rewrite take_take. f_equal. lia.
Qed.

(** C3. For a well-formed buffer and addresses 1 <= from <= to <= last,
    [delete_lines from to isglobal] fails only when an allocation fails or
    the undo stack cannot grow; when it succeeds, the line sequence is the
    old one without the lines from [from] to [to], the number of lines has
    gone down by to-from+1, the yank buffer holds fresh nodes with the text
    of the deleted lines in their order, the current address is the minimum
    of [from] and the new last address, and the modified flag is set. *)
Theorem delete_lines_spec (from to : Z) (isglobal : bool) (s : ed) (L Y : list ptr) :
  buffer_ok s L Y -> 1 <= from <= to -> to <= last_addr_ (buf s) ->
  exists r s',
    delete_lines from to isglobal s = (r, s') /\
    (r = None ->
     some_call_fails s \/ INT_MAX <= to_unsigned ((u_idx (buf s) + 1) * sizeof_undo_t)) /\
    (r = Some tt ->
     line_nodes (buf s) = L /\
     line_nodes (buf s') = lines_without L from to /\
     last_addr_ (buf s') = last_addr_ (buf s) - (to - from + 1) /\
     (exists Y',
        buffer_ok s' (lines_without L from to) Y' /\
        Forall (fun p => (brk (libc s) <= p)%nat) Y' /\
        map (text_of (heap (buf s'))) Y' =
          map (text_of (heap (buf s))) (lines_between L from to)) /\
     (forall x, (x < brk (libc s))%nat ->
                text_of (heap (buf s')) x = text_of (heap (buf s)) x) /\
     current_addr_ (buf s') = Z.min from (last_addr_ (buf s')) /\
     modified_ (buf s') = true).
Proof.
  intros Hok Hft Hto.
  pose proof (ok_last _ _ _ Hok) as Hlast.
  assert (HL : line_nodes (buf s) = L).
  { apply line_nodes_chain; [apply (ok_ring _ _ _ Hok)|exact Hlast]. }
  destruct (yank_lines_spec from to s L Y Hok Hft Hto) as (r1 & s1 & Hrun1 & Hnone1 & Hsome1).
  unfold delete_lines. unfold bind at 1. rewrite Hrun1.
  destruct r1 as [[]|]; [|exists None, s1; split_and!; [reflexivity|auto|discriminate]].
  destruct (Hsome1 eq_refl) as (Y' & Hok1 & Htext1 & Hnew1 & Hframe1 & Htextf1 & Hsame1).
  clear Hnone1 Hsome1.
  destruct (same_but_nodes_fields _ _ Hsame1) as (Hcur1 & Hlast1 & Hmod1 & Hst1 & Hsz1 & Hal1).
  unfold bind at 1, disable_interrupts at 1, modify at 1. cbn [fst snd].
  set (s1' := on_sig (fun g => with_mutex (mutex g + 1) g) s1).
  assert (Hok1' : buffer_ok s1' L Y').
  { eapply buffer_ok_same; [| | | | |exact Hok1]; subst s1'; destruct_state s1; reflexivity. }
  assert (Hsame1' : same_but_nodes s s1').
  { eapply same_but_nodes_trans; [exact Hsame1|].
    subst s1'. unfold same_but_nodes. destruct_state s1. cbn. split_and!; auto. }
  assert (Hlast1' : last_addr_ (buf s1') = last_addr_ (buf s))
    by (rewrite <- Hlast1; subst s1'; destruct_state s1; reflexivity).
  destruct (push_undo_atom_spec UDEL from to s1' L Y' Hok1' ltac:(lia) ltac:(lia))
    as (r2 & s2 & Hrun2 & Hnone2 & Hsome2).
  unfold bind at 1, attempt at 1. rewrite Hrun2.
  destruct r2 as [n2|].
  2:{ destruct (bind enable_interrupts _ s2) as [o s2'] eqn:E.
      assert (Ho : o = None).
      { change o with (fst (o, s2')). rewrite <- E. apply bind_fails. intros _ ?. apply fail_fails. }
      subst o. exists None, s2'. split_and!; [reflexivity| |discriminate].
      intros _. destruct (Hnone2 eq_refl) as [Hf|Hf].
      - left. eapply some_call_fails_later; eassumption.
      - right. replace (u_idx (buf s)) with (u_idx (buf s1')); [exact Hf|].
        unfold u_idx. f_equal. f_equal. rewrite <- Hst1. subst s1'. destruct_state s1. reflexivity. }
  destruct (Hsome2 n2 eq_refl)
    as (Hok2 & Hheap2 & Hst2 & Hso2 & Hlast2 & Hcur2 & Hmod2 & Henv2 & Htick2 & Hbrk2 & Hgl2).
  clear Hnone2 Hsome2.
  assert (Hheap21 : heap (buf s2) = heap (buf s1))
    by (rewrite Hheap2; subst s1'; destruct_state s1; reflexivity).
  assert (Hbrk21 : brk (libc s2) = brk (libc s1))
    by (rewrite Hbrk2; subst s1'; destruct_state s1; reflexivity).
  rewrite Hlast1' in Hlast2.
  (* the two nodes to link *)
  unfold bind at 1. rewrite inc_addr_run. cbn [fst snd]. rewrite Hlast2.
  set (a := if to + 1 >? last_addr_ (buf s) then 0 else to + 1).
  assert (Ha : 0 <= a <= last_addr_ (buf s))
    by (subst a; destruct (Z.gtb_spec (to + 1) (last_addr_ (buf s))); lia).
  destruct (search_line_node_ok s2 L Y' a Hok2 ltac:(lia)) as [Hrun3 Hok3].
  set (n := node_at L a) in *. set (s3 := cached n a s2) in *.
  assert (Hlast3 : last_addr_ (buf s3) = last_addr_ (buf s))
    by (rewrite <- Hlast2; subst s3; destruct_state s2; reflexivity).
  destruct (search_line_node_ok s3 L Y' (from - 1) Hok3 ltac:(lia)) as [Hrun4 Hok4].
  set (p := node_at L (from - 1)) in *. set (s4 := cached p (from - 1) s3) in *.
  unfold bind at 1. rewrite Hrun3. cbn [fst snd]. fold s3.
  unfold bind at 1. rewrite Hrun4. cbn [fst snd]. fold s4.
  assert (Hg : exists g',
             (if isglobal
              then bind (forw p) (fun first => unset_active_nodes first n)
              else ret tt) s4 = (Some tt, on_gl (fun _ => g') s4)).
  { destruct isglobal.
    - unfold bind, forw, gets. cbn [fst snd]. apply unset_active_nodes_run.
    - exists (gl s4). destruct_state s4. reflexivity. }
  destruct Hg as [g' Hg]. unfold bind at 1. rewrite Hg. cbn [fst snd].
  set (s5 := on_gl (fun _ => g') s4).
  eexists _, _. split; [reflexivity|]. split; [discriminate|]. intros _.
  cbn [snd].
  (* the parts of the old sequence *)
  pose proof (lines_split L from to Hft ltac:(lia)) as Hsplit.
  assert (Hn : n = List.hd buffer_head (drop (Z.to_nat to) L)).
  { subst n a. rewrite Hlast. apply node_at_after. lia. }
  assert (Hp : p = List.last (take (Z.to_nat (from - 1)) L) buffer_head).
  { subst p. apply node_at_before; lia. }
  destruct Hok1 as [Hr1 Hy1 Hn1 Hl1 Hca1 Hcn1 Hb1].
  assert (Hheap5 : heap (buf s5) = heap (buf s1)).
  { rewrite <- Hheap21. subst s5 s4 s3. destruct_state s2. reflexivity. }
  set (h' := link_heap p n (heap (buf s1))).
  assert (Hring : chain h' buffer_head (lines_without L from to) buffer_head).
  { subst h'. rewrite Hp, Hn. unfold lines_without.
    apply (ring_cut _ _ (lines_between L from to)).
    - rewrite <- Hsplit. eapply submseteq_NoDup; [|exact Hn1]. solve_submseteq.
    - rewrite <- Hsplit. exact Hr1. }
  assert (Hpn : p ∈ buffer_head :: L ++ [buffer_head] /\ n ∈ buffer_head :: L ++ [buffer_head]).
  { split.
    - rewrite Hp. pose proof (last_elem buffer_head (take (Z.to_nat (from - 1)) L)) as Hin.
      apply elem_of_cons in Hin as [->|Hin]; [elem_front|].
      apply list_elem_of_further, elem_of_app. left.
      eapply elem_of_sublist; [exact Hin|apply sublist_take].
    - rewrite Hn. destruct (drop (Z.to_nat to) L) as [|e B'] eqn:E; cbn [List.hd]; [elem_front|].
      apply list_elem_of_further, elem_of_app. left.
      eapply elem_of_sublist; [|apply (sublist_drop L (Z.to_nat to))]. rewrite E. elem_front. }
  assert (Hyank : chain h' yank_buffer_head Y' yank_buffer_head).
  { eapply chain_ext; [| |exact Hy1].
    - intros x Hx. subst h'. read_links. rewrite decide_False; [reflexivity|]. intros ->.
      apply (ring_not_yank L Y' p Hn1 (proj1 Hpn)). revert Hx. elems. tauto.
    - intros x Hx. subst h'. read_links. rewrite decide_False; [reflexivity|]. intros ->.
      apply (ring_not_yank L Y' n Hn1 (proj2 Hpn)). revert Hx. elems. tauto. }
  assert (Hlen' : Z.of_nat (length (lines_without L from to)) = last_addr_ (buf s) - (to - from + 1)).
  { rewrite Hlast. apply lines_without_length; lia. }
  match goal with |- context [line_nodes (buf ?st) = lines_without _ _ _] => set (s' := st) end.
  assert (Hh' : heap (buf s') = h').
  { subst s' h'. rewrite <- Hheap5. subst s5 s4 s3. destruct_state s2. reflexivity. }
  assert (Hl' : last_addr_ (buf s') = last_addr_ (buf s) - (to - from + 1)).
  { rewrite <- Hlast2. subst s' s5 s4 s3. destruct_state s2. reflexivity. }
  assert (Hc' : current_addr_ (buf s') = Z.min from (last_addr_ (buf s'))).
  { subst s' s5 s4 s3. destruct_state s2. reflexivity. }
  assert (Hm' : modified_ (buf s') = true).
  { subst s' s5 s4 s3. destruct_state s2. reflexivity. }
  assert (Hcache' : s_lp (buf s') = p /\ s_o_addr (buf s') = from - 1).
  { subst s' s5 s4 s3. destruct_state s2. split; reflexivity. }
  assert (Hbrk' : brk (libc s') = brk (libc s1)).
  { rewrite <- Hbrk21. subst s' s5 s4 s3. destruct_state s2. reflexivity. }
  assert (Hok' : buffer_ok s' (lines_without L from to) Y').
  { split.
    - by rewrite Hh'.
    - by rewrite Hh'.
    - unfold lines_without. rewrite Hsplit in Hn1.
      eapply submseteq_NoDup; [|exact Hn1]. solve_submseteq.
    - rewrite Hl'. symmetry. exact Hlen'.
    - rewrite (proj2 Hcache'), Hl'. lia.
    - rewrite (proj1 Hcache'), (proj2 Hcache'). subst p.
      symmetry. apply node_at_lines_without; lia.
    - rewrite Hbrk'. unfold lines_without. rewrite Hsplit in Hb1.
      eapply submseteq_Forall; [|exact Hb1]. solve_submseteq. }
  split_and!.
  - exact HL.
  - apply line_nodes_chain; [rewrite Hh'; exact Hring|]. rewrite Hl'. symmetry. exact Hlen'.
  - exact Hl'.
  - exists Y'. split_and!; [exact Hok'|exact Hnew1|].
    rewrite <- Htext1. apply map_ext_in. intros x Hx. rewrite Hh'. subst h'.
    apply text_of_link_heap.
  - intros x Hx. rewrite Hh'. subst h'. rewrite text_of_link_heap. by apply Htextf1.
  - exact Hc'.
  - exact Hm'.
Qed.

Lemma delete_lines_spec_witness :
  buffer_ok five_lines [3; 4; 5; 6; 7]%nat [] /\
  exists r s',
    delete_lines 2 4 false five_lines = (r, s') /\
    (r = None ->
     some_call_fails five_lines \/
     INT_MAX <= to_unsigned ((u_idx (buf five_lines) + 1) * sizeof_undo_t)) /\
    (r = Some tt ->
     line_nodes (buf five_lines) = [3; 4; 5; 6; 7]%nat /\
     line_nodes (buf s') = lines_without [3; 4; 5; 6; 7]%nat 2 4 /\
     last_addr_ (buf s') = last_addr_ (buf five_lines) - (4 - 2 + 1) /\
     (exists Y',
        buffer_ok s' (lines_without [3; 4; 5; 6; 7]%nat 2 4) Y' /\
        Forall (fun p => (brk (libc five_lines) <= p)%nat) Y' /\
        map (text_of (heap (buf s'))) Y' =
          map (text_of (heap (buf five_lines))) (lines_between [3; 4; 5; 6; 7]%nat 2 4)) /\
     (forall x, (x < brk (libc five_lines))%nat ->
                text_of (heap (buf s')) x = text_of (heap (buf five_lines)) x) /\
     current_addr_ (buf s') = Z.min 2 (last_addr_ (buf s')) /\
     modified_ (buf s') = true).
Proof.
  assert (Hok : buffer_ok five_lines [3; 4; 5; 6; 7]%nat []).
  { split.
    - vm_compute. repeat split.
    - vm_compute. repeat split.
    - apply (bool_decide_unpack _). vm_compute. exact I.
    - vm_compute. reflexivity.
    - vm_compute. split; discriminate.
    - vm_compute. reflexivity.
    - apply (bool_decide_unpack _). vm_compute. exact I. }
  split; [exact Hok|].
  apply (delete_lines_spec 2 4 false five_lines [3; 4; 5; 6; 7]%nat [] Hok).
  - lia.
  - vm_compute. discriminate.
Defined.

(** ** What a computation leaves alone *)

Section Frame.
Context {V : Type} (view : ed -> V).

Lemma frame_ret {A} (a : A) : frame view (ret a).
Proof. intros s. reflexivity. Qed.

Lemma frame_fail {A} : frame view (@fail A).
Proof. intros s. reflexivity. Qed.

Lemma frame_gets {A} (f : ed -> A) : frame view (gets f).
Proof. intros s. reflexivity. Qed.

Lemma frame_modify (f : ed -> ed) : (forall s, view (f s) = view s) -> frame view (modify f).
Proof. intros H s. apply H. Qed.

Lemma frame_bind {A B} (c : M A) (k : A -> M B) :
  frame view c -> (forall a, frame view (k a)) -> frame view (bind c k).
Proof.
  intros Hc Hk s. unfold bind. specialize (Hc s).
  destruct (c s) as [[a|] s1]; cbn [snd] in *; [|exact Hc].
  specialize (Hk a s1). destruct (k a s1) as [r s2]; cbn [snd] in *. congruence.
Qed.

Lemma frame_attempt {A} (c : M A) : frame view c -> frame view (attempt c).
Proof.
  intros Hc s. unfold attempt. specialize (Hc s). by destruct (c s) as [r s1].
Qed.

Lemma frame_run {A} (c : M A) (s s' : ed) (r : option A) :
  frame view c -> c s = (r, s') -> view s' = view s.
Proof. intros Hc Hrun. specialize (Hc s). by rewrite Hrun in Hc. Qed.

End Frame.

(** From a run of [bind c k] that gives a result, the run of [c] and the
    run of [k] after it. *)
Lemma bind_some {A B} (c : M A) (k : A -> M B) (s s' : ed) (b : B) :
  bind c k s = (Some b, s') -> exists a s1, c s = (Some a, s1) /\ k a s1 = (Some b, s').
Proof.
  unfold bind. destruct (c s) as [[a|] s1]; [|discriminate]. eauto.
Qed.

(** One step in showing that a computation leaves a view alone: the same
    for its parts. *)
Ltac frame_step :=
  match goal with
  | |- frame _ (bind _ _) => apply frame_bind; [|intros ?]
  | |- frame _ (ret _) => apply frame_ret
  | |- frame _ fail => apply frame_fail
  | |- frame _ (gets _) => apply frame_gets
  | |- frame _ (attempt _) => apply frame_attempt
  | |- frame _ (modify _) =>
      apply frame_modify;
      let s := fresh "s" in intros s; destruct_state s; reflexivity
  | |- frame _ (if ?b then _ else _) => destruct b
  | |- frame _ (match ?x with Some _ => _ | None => _ end) => destruct x
  | |- frame _ (match ?x with pair _ _ => _ end) => destruct x
  | |- frame _ (let '(_, _) := ?x in _) => destruct x
  | |- frame _ _ => solve [auto with frames]
  end.

Ltac frames := repeat frame_step.

Create HintDb frames.

Lemma frame_set_error_msg {V} (view : ed -> V) msg :
  (forall s m, view (on_ml (with_errmsg m) s) = view s) -> frame view (set_error_msg msg).
Proof. intros H s. apply H. Qed.

(** ** Writing lines to a file *)

Lemma frame_libc_call {V} (view : ed -> V) :
  (forall s n, view (on_libc (with_env_tick n) s) = view s) -> frame view libc_call.
Proof. intros H s. apply H. Qed.

(** The library calls and the buffers of the program. *)
Ltac frame_base :=
  match goal with
  | |- frame _ libc_call =>
      apply frame_libc_call;
      let s := fresh "s" in intros s ?; destruct_state s; reflexivity
  | |- frame _ (set_error_msg _) => unfold set_error_msg
  | |- frame _ show_strerror => unfold show_strerror
  | |- frame _ invalid_address => unfold invalid_address
  | |- frame _ disable_interrupts => unfold disable_interrupts
  | |- frame _ enable_interrupts => unfold enable_interrupts
  | |- frame _ (resize_buffer _ _) => unfold resize_buffer
  | |- frame _ (resize_buffer_size _ _) => unfold resize_buffer_size
  | |- frame _ last_addr => unfold last_addr
  | |- frame _ current_addr => unfold current_addr
  | |- frame _ isbinary => unfold isbinary
  | |- frame _ (forw _) => unfold forw
  | |- frame _ (back _) => unfold back
  | |- frame _ (search_line_node _) => unfold search_line_node
  | |- frame _ (inc_addr _) => unfold inc_addr
  | |- frame _ _ => frame_step
  end.

Ltac frames_base := repeat frame_base.

Lemma search_line_node_text addr : frame text_view (search_line_node addr).
Proof. frames_base. Qed.

Lemma search_line_node_out addr : frame out_view (search_line_node addr).
Proof. frames_base. Qed.

Lemma search_line_node_pos addr : frame pos_view (search_line_node addr).
Proof. frames_base. Qed.

Lemma get_sbuf_line_text lp : frame text_view (get_sbuf_line lp).
Proof. unfold get_sbuf_line. frames_base. Qed.

Lemma get_sbuf_line_cache lp : frame cache_view (get_sbuf_line lp).
Proof. unfold get_sbuf_line. frames_base. Qed.

Lemma get_sbuf_line_out lp : frame out_view (get_sbuf_line lp).
Proof. unfold get_sbuf_line. frames_base. Qed.

Lemma unterminated_last_line_text : frame text_view unterminated_last_line.
Proof. unfold unterminated_last_line. frames_base. Qed.

Lemma unterminated_last_line_out : frame out_view unterminated_last_line.
Proof. unfold unterminated_last_line. frames_base. Qed.

Lemma unterminated_last_line_pos : frame pos_view unterminated_last_line.
Proof. unfold unterminated_last_line. frames_base. Qed.

Lemma write_chars_text text : frame text_view (write_chars text).
Proof. induction text as [|c text IH]; cbn [write_chars]; frames_base. Qed.

Lemma write_chars_cache text : frame cache_view (write_chars text).
Proof. induction text as [|c text IH]; cbn [write_chars]; frames_base. Qed.

Lemma write_chars_pos text : frame pos_view (write_chars text).
Proof. induction text as [|c text IH]; cbn [write_chars]; frames_base. Qed.

Lemma buffer_ok_views (s s' : ed) (L Y : list ptr) :
  text_view s' = text_view s -> cache_view s' = cache_view s ->
  buffer_ok s L Y -> buffer_ok s' L Y.
Proof.
  unfold text_view, cache_view. intros Ht Hc. apply buffer_ok_same; congruence.
Qed.

Lemma line_text_view (s s' : ed) (lp : ptr) :
  text_view s' = text_view s -> line_text s' lp = line_text s lp.
Proof. unfold text_view, line_text. intros Ht. congruence. Qed.

Lemma written_line_view (s s' : ed) (L : list ptr) (k : Z) :
  text_view s' = text_view s -> written_line s' L k = written_line s L k.
Proof.
  intros Ht. unfold written_line. rewrite (line_text_view _ _ _ Ht).
  unfold text_view in Ht. injection Ht as _ H2 H3 _ H5 _. by rewrite H2, H3, H5.
Qed.

(** [get_sbuf_line] gives the text of the line when the stream of the
    scratch file is where the editor takes it to be, and leaves it so. *)
Lemma get_sbuf_line_spec (lp : ptr) (s s' : ed) (p : list ascii) :
  sf_off (buf s) = sfpos (buf s) ->
  get_sbuf_line lp s = (Some p, s') ->
  p = line_text s lp /\ Z.of_nat (length p) = len (heap (buf s) lp) /\
  sf_off (buf s') = sfpos (buf s').
Proof.
  intros Hpos. unfold get_sbuf_line.
  destruct (bool_decide (lp = buffer_head)); [discriminate|].
  intros H. apply bind_some in H as ([] & s1 & H1 & H).
  apply bind_some in H as (b & s2 & H2 & H).
  unfold modify in H1. injection H1 as <-.
  unfold gets in H2. injection H2 as <- <-.
  set (l := heap (buf s) lp).
  change (heap (with_seek_write true (buf s)) lp) with l in H.
  change (sfpos (with_seek_write true (buf s))) with (sfpos (buf s)) in H.
  set (s1 := on_buf (with_seek_write true) s) in *.
  apply bind_some in H as ([] & s3 & H3 & H).
  assert (H3' : sf_off (buf s3) = pos l /\ sfpos (buf s3) = pos l /\
                heap (buf s3) = heap (buf s) /\ sfp (buf s3) = sfp (buf s)).
  { destruct (sfpos (buf s) =? pos l) eqn:Hsame; cbn [negb] in H3.
    - injection H3 as <-. apply Z.eqb_eq in Hsame.
      subst s1. destruct_state s. cbn in *. split_and!; congruence.
    - apply bind_some in H3 as ([] & s4 & H4 & H3). injection H4 as <-.
      apply bind_some in H3 as (ok & s5 & H5 & H3). injection H5 as <- <-.
      destruct (env_ok _ _); cbn [negb] in H3.
      + injection H3 as <-. subst s1. destruct_state s. cbn. auto.
      + apply bind_some in H3 as ([] & s6 & _ & H3).
        apply bind_some in H3 as ([] & s7 & _ & H3). discriminate. }
  destruct H3' as (Hoff3 & Hpos3 & Hheap3 & Hsfp3).
  apply bind_some in H as ([] & s4 & H4 & H).
  assert (H4' : pos_view s4 = pos_view s3 /\ text_view s4 = text_view s3).
  { split; eapply frame_run; try exact H4; frames_base. }
  apply bind_some in H as (ok & s5 & H5 & H). injection H5 as <- <-.
  apply bind_some in H as (b & s6 & H6 & H). injection H6 as <- <-.
  set (s5 := on_libc _ s4) in *.
  assert (H5' : sf_off (buf s5) = pos l /\ sfpos (buf s5) = pos l /\
                heap (buf s5) = heap (buf s) /\ sfp (buf s5) = sfp (buf s)).
  { destruct H4' as [Hp Ht]. unfold pos_view, text_view in Hp, Ht.
    subst s5. destruct_state s4. cbn in *. split_and!; congruence. }
  destruct H5' as (Hoff5 & Hpos5 & Hheap5 & Hsfp5).
  destruct (negb (env_ok _ _) || _ || _ || _) eqn:Hbad.
  { apply bind_some in H as ([] & s7 & _ & H).
    apply bind_some in H as ([] & s8 & _ & H). discriminate. }
  apply bind_some in H as ([] & s7 & H7 & H). injection H7 as <-. injection H as <- <-.
  rewrite !orb_false_iff in Hbad. destruct Hbad as (((_ & Hb1) & Hb2) & Hb3).
  apply Z.ltb_ge in Hb1, Hb2, Hb3.
  change (buf s5) with (buf s4) in Hoff5, Hpos5, Hheap5, Hsfp5.
  rewrite Hoff5, Hsfp5 in *. unfold line_text. fold l.
  split_and!.
  - reflexivity.
  - rewrite length_take, length_drop. lia.
  - change (sf_off (buf s4) + len l = sfpos (buf s4) + len l). lia.
Qed.

Lemma unterminated_last_line_spec (s s' : ed) (L Y : list ptr) (b : bool) :
  buffer_ok s L Y ->
  unterminated_last_line s = (Some b, s') ->
  b = bool_decide (unterminated_line (io s) ≠ NULL)
      && bool_decide (unterminated_line (io s) = node_at L (last_addr_ (buf s))) /\
  buffer_ok s' L Y.
Proof.
  intros Hok. unfold unterminated_last_line. unfold bind at 1, gets at 1. cbn [fst snd].
  destruct (bool_decide (unterminated_line (io s) ≠ NULL)).
  - unfold bind at 1, last_addr at 1, gets at 1. cbn [fst snd].
    pose proof (ok_last _ _ _ Hok) as Hlast.
    destruct (search_line_node_ok s L Y (last_addr_ (buf s)) Hok ltac:(lia)) as [Hrun Hok'].
    unfold bind at 1. rewrite Hrun. cbn [fst snd]. intros H. injection H as <- <-.
    split; [reflexivity|exact Hok'].
  - intros H. injection H as <- <-. split; [reflexivity|exact Hok].
Qed.

Lemma write_chars_spec (text : list ascii) :
  forall s s', write_chars text s = (Some tt, s') ->
               fout (libc s') = fout (libc s) ++ text.
Proof.
  induction text as [|c text IH]; intros s s'; cbn [write_chars].
  - intros H. injection H as <-. by rewrite app_nil_r.
  - intros H. apply bind_some in H as (ok & s1 & H1 & H). injection H1 as <- <-.
    destruct (env_ok _ _); cbn [negb] in H.
    + apply bind_some in H as ([] & s2 & H2 & H). injection H2 as <-.
      apply IH in H. rewrite H. destruct_state s. cbn. by rewrite <- app_assoc.
    + apply bind_some in H as ([] & s2 & _ & H).
      apply bind_some in H as ([] & s3 & _ & H). discriminate.
Qed.

Lemma addresses_nil (from to : Z) : to < from -> addresses from to = [].
Proof. intros H. unfold addresses. by replace (Z.to_nat (to - from + 1)) with 0%nat by lia. Qed.

Lemma addresses_cons (from to : Z) :
  from <= to -> addresses from to = from :: addresses (from + 1) to.
Proof.
  intros H. unfold addresses.
  replace (Z.to_nat (to - from + 1)) with (S (Z.to_nat (to - (from + 1) + 1))) by lia.
  cbn [seq map]. f_equal; [lia|].
  rewrite <- seq_shift, map_map. apply map_ext. intros i. lia.
Qed.

Lemma node_at_next (h : ptr -> line_t) (L : list ptr) (addr : Z) :
  chain h buffer_head L buffer_head -> 0 <= addr -> addr + 1 <= Z.of_nat (length L) ->
  q_forw (h (node_at L addr)) = node_at L (addr + 1).
Proof.
  intros Hc H0 H1. rewrite !node_at_chain by lia.
  rewrite (chain_forw h buffer_head L buffer_head (Z.to_nat addr) Hc) by lia.
  f_equal. lia.
Qed.

(** The rounds of the loop of [write_stream] write the lines one after
    the other. *)
Lemma write_stream_loop_spec (n : nat) :
  forall (from to : Z) (lp : ptr) (size : Z) (s : ed) (size' : Z) (s' : ed)
         (L Y : list ptr),
    buffer_ok s L Y -> 1 <= from -> to <= last_addr_ (buf s) ->
    n = Z.to_nat (to - from + 1) ->
    (from <= to -> lp = node_at L from) ->
    sf_off (buf s) = sfpos (buf s) ->
    write_stream_loop n lp from to size s = (Some size', s') ->
    fout (libc s') = fout (libc s) ++ written_lines s L from to /\
    size' = size + Z.of_nat (length (written_lines s L from to)) /\
    text_view s' = text_view s.
Proof.
  induction n as [|n IH]; intros from to lp size s size' s' L Y Hok Hfrom Hto Hn Hlp Hpos;
    cbn [write_stream_loop].
  - intros H. injection H as <- <-. unfold written_lines.
    rewrite addresses_nil by lia. cbn. rewrite app_nil_r. split_and!; auto; lia.
  - assert (Hle : from <= to) by lia. specialize (Hlp Hle). subst lp.
    replace (negb (from =? 0) && (from <=? to)) with true by (symmetry; apply andb_true_iff; split; [apply negb_true_iff|]; lia).
    intros H. apply bind_some in H as (p & s1 & H1 & H).
    destruct (get_sbuf_line_spec _ _ _ _ Hpos H1) as (Hp & Hplen & Hpos1).
    assert (Ht1 : text_view s1 = text_view s) by (eapply frame_run; [apply get_sbuf_line_text|exact H1]).
    assert (Hc1 : cache_view s1 = cache_view s) by (eapply frame_run; [apply get_sbuf_line_cache|exact H1]).
    assert (Ho1 : out_view s1 = out_view s) by (eapply frame_run; [apply get_sbuf_line_out|exact H1]).
    assert (Hok1 : buffer_ok s1 L Y) by (eapply buffer_ok_views; eassumption).
    apply bind_some in H as (l & s1' & Hl & H). injection Hl as <- <-.
    apply bind_some in H as (last & s1' & Hl & H). injection Hl as <- <-.
    apply bind_some in H as (newline & s2 & H2 & H).
    assert (Hview1 : heap (buf s1) = heap (buf s) /\ last_addr_ (buf s1) = last_addr_ (buf s) /\
                     isbinary_ (buf s1) = isbinary_ (buf s) /\
                     unterminated_line (io s1) = unterminated_line (io s)).
    { unfold text_view in Ht1. injection Ht1 as ? ? ? ? ? ?. auto. }
    destruct Hview1 as (Hh1 & Hl1 & Hb1 & Hu1).
    assert (H2' : newline = negb ((from =? last_addr_ (buf s)) && isbinary_ (buf s)
                                   && bool_decide (unterminated_line (io s) ≠ NULL)
                                   && bool_decide (unterminated_line (io s) =
                                                   node_at L (last_addr_ (buf s)))) /\
                  buffer_ok s2 L Y /\ text_view s2 = text_view s /\
                  out_view s2 = out_view s /\ sf_off (buf s2) = sfpos (buf s2)).
    { rewrite Hl1 in H2. destruct (from =? last_addr_ (buf s)); cbn [negb andb] in H2 |- *.
      - apply bind_some in H2 as (bin & s1' & Hb & H2). injection Hb as <- <-.
        rewrite Hb1 in H2. destruct (isbinary_ (buf s)); cbn [negb andb] in H2 |- *.
        + apply bind_some in H2 as (u & s2' & Hu & H2). injection H2 as <- <-.
          destruct (unterminated_last_line_spec _ _ _ _ _ Hok1 Hu) as [Hub Hok2].
          rewrite Hu1, Hl1 in Hub.
          assert (Ht2 : text_view s2' = text_view s1)
            by (eapply frame_run; [apply unterminated_last_line_text|exact Hu]).
          assert (Ho2 : out_view s2' = out_view s1)
            by (eapply frame_run; [apply unterminated_last_line_out|exact Hu]).
          assert (Hp2 : pos_view s2' = pos_view s1)
            by (eapply frame_run; [apply unterminated_last_line_pos|exact Hu]).
          split_and!; [by rewrite Hub|exact Hok2|congruence|congruence|].
          unfold pos_view in Hp2. injection Hp2 as Hp2a Hp2b. congruence.
        + injection H2 as <- <-. split_and!; auto.
      - injection H2 as <- <-. split_and!; auto. }
    destruct H2' as (Hnl & Hok2 & Ht2 & Ho2 & Hpos2).
    apply bind_some in H as ([] & s3 & H3 & H).
    pose proof (write_chars_spec _ _ _ H3) as Hout3.
    assert (Ht3 : text_view s3 = text_view s2) by (eapply frame_run; [apply write_chars_text|exact H3]).
    assert (Hc3 : cache_view s3 = cache_view s2) by (eapply frame_run; [apply write_chars_cache|exact H3]).
    assert (Hp3 : pos_view s3 = pos_view s2) by (eapply frame_run; [apply write_chars_pos|exact H3]).
    assert (Hok3 : buffer_ok s3 L Y) by (eapply buffer_ok_views; eassumption).
    apply bind_some in H as (lp' & s3' & Hf & H). injection Hf as <- <-.
    assert (Ht3s : text_view s3 = text_view s) by congruence.
    assert (Hview3 : heap (buf s3) = heap (buf s) /\ last_addr_ (buf s3) = last_addr_ (buf s)).
    { unfold text_view in Ht3s. injection Ht3s as ? ? ? ? ? ?. auto. }
    destruct Hview3 as (Hh3 & Hl3).
    pose proof (ok_last _ _ _ Hok) as Hlast.
    eapply (IH (from + 1) to _ _ s3 size' s' L Y Hok3) in H; [|lia|lia|lia| |].
    + destruct H as (Hout & Hsize & Ht).
      unfold written_lines in *. rewrite (addresses_cons from to Hle). cbn [map concat].
      assert (Htext : take (Z.to_nat (len (heap (buf s1) (node_at L from)))) p
                      ++ (if newline then [NL] else []) = written_line s L from).
      { unfold written_line. rewrite Hh1, <- Hplen, Nat2Z.id, firstn_all, <- Hp.
        f_equal. rewrite Hnl. by destruct (_ && _ && _ && _). }
      assert (Hrest : written_lines s3 L (from + 1) to = written_lines s L (from + 1) to).
      { unfold written_lines. f_equal. apply map_ext. intros k.
        by apply written_line_view. }
      unfold written_lines in Hrest. rewrite Htext in Hout3.
      unfold out_view in Ho1, Ho2.
      split_and!.
      * rewrite Hout, Hout3, Ho2, Hrest. by rewrite <- app_assoc.
      * rewrite Hsize, Hrest, length_app, <- Htext, length_app, Hh1.
        rewrite length_take, <- Hplen. destruct newline; cbn [length]; lia.
      * congruence.
    + intros Hle'. rewrite Hh3. apply node_at_next; [apply (ok_ring _ _ _ Hok)|lia|lia].
    + unfold pos_view in Hp3. injection Hp3 as Hp3a Hp3b. congruence.
Qed.

(** The buffer of the sample session [binary_file] is well formed. *)
Lemma binary_file_ok : buffer_ok binary_file [3; 4]%nat [].
Proof.
  split.
  - vm_compute. repeat split.
  - vm_compute. repeat split.
  - apply (bool_decide_unpack _). vm_compute. exact I.
  - vm_compute. reflexivity.
  - vm_compute. split; discriminate.
  - vm_compute. reflexivity.
  - apply (bool_decide_unpack _). vm_compute. exact I.
Qed.

(** C6. When [write_stream from to] succeeds on a well-formed buffer, with
    the stream of the scratch file where the editor takes it to be, the
    stream written has grown by the text of each line from [from] to [to]
    in turn, each followed by a newline, except that the last line of the
    buffer is written without one when the buffer is binary and the
    unterminated-line marker is that line; the size returned is the number
    of bytes written. *)
Theorem write_stream_spec (from to : Z) (s s' : ed) (size : Z) (L Y : list ptr) :
  buffer_ok s L Y -> 1 <= from <= last_addr_ (buf s) -> to <= last_addr_ (buf s) ->
  sf_off (buf s) = sfpos (buf s) ->
  write_stream from to s = (Some size, s') ->
  fout (libc s') = fout (libc s) ++ written_lines s L from to /\
  size = Z.of_nat (length (written_lines s L from to)).
Proof.
  intros Hok Hfrom Hto Hpos. unfold write_stream.
  destruct (search_line_node_ok s L Y from Hok ltac:(lia)) as [Hrun Hok1].
  unfold bind. rewrite Hrun. cbn [fst snd].
  set (s1 := cached (node_at L from) from s) in *.
  assert (Ht1 : text_view s1 = text_view s) by (subst s1; destruct_state s; reflexivity).
  assert (Ho1 : fout (libc s1) = fout (libc s)) by (subst s1; destruct_state s; reflexivity).
  assert (Hl1 : last_addr_ (buf s1) = last_addr_ (buf s)) by (subst s1; destruct_state s; reflexivity).
  assert (Hp1 : sf_off (buf s1) = sfpos (buf s1)) by (subst s1; destruct_state s; exact Hpos).
  intros H.
  eapply (write_stream_loop_spec _ from to _ 0 s1 size s' L Y Hok1) in H;
    [|first [exact Hp1|reflexivity|lia]..].
  destruct H as (Hout & Hsize & _).
  assert (Hw : written_lines s1 L from to = written_lines s L from to) by reflexivity.
  rewrite Hw, Ho1 in *. split; [exact Hout|lia].
Qed.

Lemma write_stream_spec_witness :
  fout (libc (state_of (write_stream 1 2 binary_file))) =
    fout (libc binary_file) ++ written_lines binary_file [3; 4]%nat 1 2 /\
  6 = Z.of_nat (length (written_lines binary_file [3; 4]%nat 1 2)).
Proof.
  apply (write_stream_spec 1 2 binary_file (state_of (write_stream 1 2 binary_file)) 6
           [3; 4]%nat [] binary_file_ok).
  - vm_compute. split; discriminate.
  - vm_compute. discriminate.
  - vm_compute. reflexivity.
  - apply run_of_result. vm_compute. reflexivity.
Defined.
